(** * Overlay engine and example harvesting of [scripts/overlay.ts]

    A shallow embedding of the overlay script of the api-specs repository:
    chain-id normalisation, the JSON-RPC client, the two backward block
    searches, the overlay loader and the JSONPath mutation engine.

    Conventions of the embedding.
    - Text is a [string] of ASCII characters.
    - JavaScript numbers are the integral ones ([Z]); [NaN] is added where
      [Number(...)] can produce it.
    - Objects that the script mutates live in an explicit heap of
      locations, so that two references to one object stay aliased.
    - [throw] is the [Err] branch of [result]; a failing computation keeps
      the state it had reached (JavaScript does not roll back).
    - Everything outside the script (fetch, the file system, JSON and YAML
      text parsing, the jsonpath-plus resolver, path joining) is a field of
      the environment record [Env]. *)

From Stdlib Require Import ZArith String Ascii List Lia.
From Stdlib Require DecimalString HexadecimalString DecimalPos HexadecimalPos.
From stdpp Require Import base gmap strings list.

Set Warnings "-register-all".
Open Scope string_scope.
Open Scope Z_scope.
Open Scope list_scope.

(** ** Exceptions *)

(** JSON text as a tree: what [response.json()], [JSON.parse] and
    [yaml.load] produce before any object identity matters. *)
Inductive json : Type :=
  | JNull
  | JBool (b : bool)
  | JNum (n : Z)
  | JStr (s : string)
  | JArr (items : list json)
  | JObj (fields : list (string * json)).

(** One constructor per [throw new Error(...)] site of the script, plus the
    built-in exceptions the modelled primitives raise. *)
Inductive exn : Type :=
  | EmptyChainId                                   (* "Chain ID string cannot be empty" *)
  | NoMatch (path : string)                        (* "JSONPath ... did not match anything" *)
  | CannotMutateRoot (target : string)             (* "Cannot mutate root node for ..." *)
  | CannotMergeIntoArray (target : string)         (* "Cannot merge object into array at ..." *)
  | RpcHttpError (rpcUrl : string) (status : Z) (statusText : string)
  | RpcError (error : json)                        (* "RPC error (code) message" *)
  | RpcMissingResult (rpcUrl method : string)      (* "... missing result for method ..." *)
  | MissingBlockHash                               (* "Selected block is missing a hash" *)
  | NoBlockWithTransactions (startBlock : json) (rpcUrl : string)
  | NoTransactionHashes                            (* "Selected block does not expose transaction hashes" *)
  | InvalidHex (value : json)                      (* "Invalid hex value: ..." *)
  | TypeError (what : string)
  | SyntaxError (what : string)
  | ErrnoException (code : string)                 (* node:fs errors carry a [code] *)
  | FetchFailed (reason : string)                  (* the promise of [fetch] rejects *)
  | InvalidReference                               (* a location outside the heap; no JavaScript counterpart *)
  | RecursionLimit.                                (* the fuel of a recursive model ran out *)

Inductive result (A : Type) : Type :=
  | Ok (a : A)
  | Err (e : exn).
Arguments Ok {A} a.
Arguments Err {A} e.

(** ** Text *)

(** [WhiteSpace] and [LineTerminator] of ECMAScript, on ASCII: TAB, LF, VT,
    FF, CR and SP. *)
Definition is_white (a : ascii) : bool :=
  let n := nat_of_ascii a in
  ((9 <=? n)%nat && (n <=? 13)%nat) || (n =? 32)%nat.

Definition is_empty (s : string) : bool :=
  match s with EmptyString => true | String _ _ => false end.

Fixpoint trimStart (s : string) : string :=
  match s with
  | EmptyString => EmptyString
  | String a r => if is_white a then trimStart r else s
  end.

Fixpoint trimEnd (s : string) : string :=
  match s with
  | EmptyString => EmptyString
  | String a r =>
      let r' := trimEnd r in
      if is_white a && is_empty r' then EmptyString else String a r'
  end.

(** [String.prototype.trim] *)
Definition trim (s : string) : string := trimEnd (trimStart s).

Fixpoint all_white (s : string) : bool :=
  match s with
  | EmptyString => true
  | String a r => is_white a && all_white r
  end.

(** ** BigInt *)

Definition digit_value (a : ascii) : option Z :=
  let n := Z.of_nat (nat_of_ascii a) in
  if (48 <=? n) && (n <=? 57) then Some (n - 48)
  else if (97 <=? n) && (n <=? 102) then Some (n - 87)
  else if (65 <=? n) && (n <=? 70) then Some (n - 55)
  else None.

(** Digits of [s] in [base], most significant first, onto the accumulator. *)
Fixpoint parse_digits_from (base acc : Z) (s : string) : option Z :=
  match s with
  | EmptyString => Some acc
  | String a r =>
      match digit_value a with
      | Some d => if d <? base then parse_digits_from base (acc * base + d) r else None
      | None => None
      end
  end.

(** A non-empty run of digits. *)
Definition parse_digits (base : Z) (s : string) : option Z :=
  if is_empty s then None else parse_digits_from base 0 s.

(** [StringToBigInt] of ECMAScript: surrounding white space is dropped, the
    empty text is [0n], a radix prefix [0x], [0o] or [0b] (either case)
    takes no sign, a decimal literal takes an optional sign.  [None] is
    the [SyntaxError] of [BigInt(text)]. *)
Definition StringToBigInt (s : string) : option Z :=
  match trim s with
  | EmptyString => Some 0
  | String "0" (String "x" r) | String "0" (String "X" r) => parse_digits 16 r
  | String "0" (String "o" r) | String "0" (String "O" r) => parse_digits 8 r
  | String "0" (String "b" r) | String "0" (String "B" r) => parse_digits 2 r
  | String "-" r => option_map Z.opp (parse_digits 10 r)
  | String "+" r => parse_digits 10 r
  | t => parse_digits 10 t
  end.

(** [bigint.toString(10)] and [bigint.toString(16)] *)
Definition toString10 (z : Z) : string :=
  DecimalString.NilZero.string_of_int (Z.to_int z).

Definition toString16 (z : Z) : string :=
  HexadecimalString.NilZero.string_of_int (Z.to_hex_int z).

(** ** normalizeChainId *)

Definition normalizeChainId (value : string) : result string :=
  let trimmed := trim value in
  if is_empty trimmed then Err EmptyChainId
  else
    match StringToBigInt trimmed with
    | Some n => Ok (toString10 n)
    | None => Ok trimmed
    end.

(** ** JSON trees *)

(** The last binding of a key wins, as in [JSON.parse]. *)
Fixpoint jfield (k : string) (fields : list (string * json)) : option json :=
  match fields with
  | [] => None
  | (k', v) :: rest =>
      match jfield k rest with
      | Some v' => Some v'
      | None => if String.eqb k k' then Some v else None
      end
  end.

(** [j.k] for a name [k] that is neither an index nor a built-in property
    ([hash], [number], [transactions], [error], [result], ...): [None] is
    [undefined]; reading a property of [null] throws. *)
Definition jprop (j : json) (k : string) : result (option json) :=
  match j with
  | JNull => Err (TypeError "Cannot read properties of null")
  | JObj fields => Ok (jfield k fields)
  | _ => Ok None
  end.

(** [j?.k] *)
Definition jprop_opt (j : json) (k : string) : option json :=
  match j with
  | JObj fields => jfield k fields
  | _ => None
  end.

(** [ToBoolean], with [None] for [undefined]. *)
Definition truthy (j : option json) : bool :=
  match j with
  | None | Some JNull => false
  | Some (JBool b) => b
  | Some (JNum n) => negb (n =? 0)
  | Some (JStr s) => negb (is_empty s)
  | Some (JArr _) | Some (JObj _) => true
  end.

(** [a ?? b] *)
Definition nullish (a : option json) (b : json) : json :=
  match a with
  | None | Some JNull => b
  | Some v => v
  end.

(** [Array.isArray(x) ? x : []] *)
Definition array_or_empty (j : option json) : list json :=
  match j with
  | Some (JArr items) => items
  | _ => []
  end.

Definition is_nil {A : Type} (l : list A) : bool :=
  match l with [] => true | _ :: _ => false end.

(** [ToString] as [Array.prototype.join] applies it to an element: [null]
    is the empty text, a nested array is joined in turn. *)
Fixpoint join_item (j : json) : string :=
  match j with
  | JNull => ""
  | JBool true => "true"
  | JBool false => "false"
  | JNum n => toString10 n
  | JStr s => s
  | JArr items =>
      (fix join (l : list json) : string :=
         match l with
         | [] => ""
         | [x] => join_item x
         | x :: r => join_item x +:+ "," +:+ join r
         end) items
  | JObj _ => "[object Object]"
  end.

(** [BigInt(value)] on a run-time value; [None] when it throws. *)
Definition BigInt (value : json) : option Z :=
  match value with
  | JNull => None
  | JBool b => Some (if b then 1 else 0)
  | JNum n => Some n
  | JStr s => StringToBigInt s
  | JArr _ | JObj _ => StringToBigInt (join_item value)
  end.

(** [normalizeChainId(value)] on a run-time value: [value.trim()] throws
    unless [value] is a text. *)
Definition normalizeChainIdOf (value : json) : result string :=
  match value with
  | JStr raw => normalizeChainId raw
  | JNull => Err (TypeError "Cannot read properties of null")
  | _ => Err (TypeError "value.trim is not a function")
  end.

(** ** hexToBigInt *)

Definition hexToBigInt (value : json) : result Z :=
  match BigInt value with
  | Some n => Ok n
  | None => Err (InvalidHex value)
  end.

(** ** The heap of mutable documents *)

Abbreviation loc := nat (only parsing).

Inductive value : Type :=
  | VUndefined
  | VNull
  | VBool (b : bool)
  | VNum (n : Z)
  | VStr (s : string)
  | VRef (l : loc).

(** A plain object, or an array with its elements and any named
    properties ([a["NaN"] = x] is legal JavaScript). *)
Inductive object : Type :=
  | Obj (fields : gmap string value)
  | Arr (elems : list value) (props : gmap string value).

Abbreviation heap := (list object).

(** A property key as jsonpath-plus reports it. *)
Inductive PropKey : Type :=
  | PKStr (s : string)
  | PKNum (n : Z).

(** [type JsonPathMatch]; a [parent] of [None] is the [null] that the
    resolver reports for the root, a [parentProperty] of [None] is
    [undefined]. *)
Record JsonPathMatch : Type := {
  parent : option loc;
  parentProperty : option PropKey;
  matched : value
}.

(** [type OverlayAction] *)
Inductive OverlayAction : Type :=
  | ActionSet (target : string) (set : value)
  | ActionMerge (target : string) (merge : gmap string value)
  | ActionRemove (target : string).

Definition target (action : OverlayAction) : string :=
  match action with
  | ActionSet t _ | ActionMerge t _ | ActionRemove t => t
  end.

(** An action as it stands in an overlay file, before [JSON.parse] or
    [yaml.load] has allocated its payload. *)
Inductive ActionText : Type :=
  | TextSet (target : string) (set : json)
  | TextMerge (target : string) (merge : list (string * json))
  | TextRemove (target : string).

(** [parsed as OverlayAction | OverlayAction[]] *)
Inductive Parsed : Type :=
  | ParsedOne (a : ActionText)
  | ParsedMany (l : list ActionText).

(** ** The environment *)

Inductive DirentKind : Type := IsFile | IsDirectory | IsOther.

Record Dirent : Type := { name : string; kind : DirentKind }.

Record Request : Type := {
  req_url : string;
  req_method : string;
  req_params : list json
}.

(** An HTTP response; a [resp_body] of [None] makes [response.json()]
    reject. *)
Record Response : Type := {
  resp_ok : bool;
  resp_status : Z;
  resp_statusText : string;
  resp_body : option json
}.

Inductive FetchOutcome : Type :=
  | Rejected (reason : string)
  | Responded (response : Response).

Record Env : Type := {
  (** the endpoint: what a request returns after the requests before it *)
  fetch : list Request -> Request -> FetchOutcome;
  (** [readdir(dir, { withFileTypes: true })] and [readFile(path, "utf8")] *)
  readdir : string -> result (list Dirent);
  readFile : string -> result string;
  (** [JSON.parse] and [yaml.load] of an overlay file *)
  JSON_parse : string -> result Parsed;
  yaml_load : string -> result Parsed;
  (** [JSONPath({ json, path, resultType: "all" })] of jsonpath-plus *)
  JSONPath : heap -> value -> string -> result (list JsonPathMatch);
  (** [join] of node:path *)
  join : string -> string -> string;
  OVERLAYS_ROOT_DIR : string
}.

(** ** State and exceptions *)

Definition M (S A : Type) : Type := S -> result A * S.

Definition ret {S A : Type} (a : A) : M S A := fun s => (Ok a, s).

Definition throw {S A : Type} (e : exn) : M S A := fun s => (Err e, s).

Definition lift {S A : Type} (r : result A) : M S A := fun s => (r, s).

Definition bind {S A B : Type} (m : M S A) (k : A -> M S B) : M S B :=
  fun s =>
    match m s with
    | (Ok a, s') => k a s'
    | (Err e, s') => (Err e, s')
    end.

(** [try { m } catch (error) { handler }] *)
Definition try_catch {S A : Type} (m : M S A) (handler : exn -> M S A) : M S A :=
  fun s =>
    match m s with
    | (Ok a, s') => (Ok a, s')
    | (Err e, s') => handler e s'
    end.

Notation "'let*' x ':=' c1 'in' c2" := (bind c1 (fun x => c2))
  (at level 10, x pattern, c1 at level 100, c2 at level 200).

(** The network side of the world: the requests sent so far, oldest
    first, and the lines of [console.warn]. *)
Record Net : Type := {
  trace : list Request;
  warnings : list (string * exn)
}.

Definition warn (msg : string) (error : exn) : M Net unit :=
  fun n => (Ok tt, {| trace := trace n; warnings := warnings n ++ [(msg, error)] |}).

(** ** extractTransactionHash *)

Definition is_string (j : json) : bool :=
  match j with JStr _ => true | _ => false end.

Definition extractTransactionHash (block : json) : result string :=
  match jprop block "transactions" with
  | Err e => Err e
  | Ok t =>
      let transactions := array_or_empty t in
      match List.find is_string transactions with
      | Some (JStr first) => Ok first
      | _ => Err NoTransactionHashes
      end
  end.

Section Rpc.

Variable E : Env.

(** [await fetch(rpcUrl, { method: "POST", ... })]; the [id] of the
    body, a clock reading, is not part of the model. *)
Definition post (req : Request) : M Net Response :=
  fun n =>
    let n' := {| trace := trace n ++ [req]; warnings := warnings n |} in
    match fetch E (trace n) req with
    | Rejected reason => (Err (FetchFailed reason), n')
    | Responded response => (Ok response, n')
    end.

(** ** jsonRpcRequest *)

Definition jsonRpcRequest (rpcUrl method : string) (params : list json) : M Net json :=
  let* response :=
    post {| req_url := rpcUrl; req_method := method; req_params := params |} in
  if negb (resp_ok response) then
    throw (RpcHttpError rpcUrl (resp_status response) (resp_statusText response))
  else
    match resp_body response with
    | None => throw (SyntaxError "response.json")
    | Some payload =>
        let* error := lift (jprop payload "error") in
        if truthy error then throw (RpcError (nullish error JNull))
        else
          let* result := lift (jprop payload "result") in
          match result with
          | None => throw (RpcMissingResult rpcUrl method)
          | Some r => ret r
          end
    end.

(** ** resolveOverlayChainId *)

Definition chainIdWarning (rpcUrl : string) : string :=
  "Failed to determine chainId from " +:+ rpcUrl +:+ ", falling back to global overlays:".

(** [None] is [undefined], both for the argument and for the result. *)
Definition resolveOverlayChainId (rpcUrl : option string) : M Net (option string) :=
  match rpcUrl with
  | None | Some EmptyString => ret None
  | Some url =>
      try_catch
        (let* rawChainId := jsonRpcRequest url "eth_chainId" [] in
         let* id := lift (normalizeChainIdOf rawChainId) in
         ret (Some id))
        (fun error =>
           let* _ := warn (chainIdWarning url) error in
           ret None)
  end.

(** ** findBlockWithTransactions *)

Record BlockCandidate : Type := {
  number : json;
  block : json
}.

Definition blockRequest (rpcUrl : string) (current : Z) : Request :=
  {| req_url := rpcUrl;
     req_method := "eth_getBlockByNumber";
     req_params := [JStr ("0x" +:+ toString16 current); JBool false] |}.

(** The [for (let i = 0; i < 64; i += 1)] loop with [attempts]
    iterations left; [None] when it ends without a [return]. *)
Fixpoint findBlockLoop (rpcUrl : string) (attempts : nat) (current : Z)
  : M Net (option BlockCandidate) :=
  match attempts with
  | O => ret None
  | S attempts' =>
      if current <? 0 then ret None
      else
        let candidate := "0x" +:+ toString16 current in
        let* block :=
          jsonRpcRequest rpcUrl "eth_getBlockByNumber" [JStr candidate; JBool false] in
        let transactions := array_or_empty (jprop_opt block "transactions") in
        if truthy (Some block) && negb (is_nil transactions) then
          let* n := lift (jprop block "number") in
          ret (Some {| number := nullish n (JStr candidate); block := block |})
        else findBlockLoop rpcUrl attempts' (current - 1)
  end.

Definition findBlockWithTransactions (rpcUrl : string) (startBlock : json)
  : M Net BlockCandidate :=
  let* current := lift (hexToBigInt startBlock) in
  let* found := findBlockLoop rpcUrl 64 current in
  match found with
  | Some candidate => ret candidate
  | None => throw (NoBlockWithTransactions startBlock rpcUrl)
  end.

(** ** safeGetLogs *)

Definition safeGetLogs (rpcUrl : string) (filter : json) : M Net (list json) :=
  try_catch
    (let* logs := jsonRpcRequest rpcUrl "eth_getLogs" [filter] in
     ret (array_or_empty (Some logs)))
    (fun _ => ret []).

(** ** findLogsCandidate *)

Record LogsContext : Type := {
  blockNumber : json;
  request : json;
  logs : list json
}.

Fixpoint findLogsLoop (rpcUrl : string) (attempts : nat) (current : Z)
  : M Net (option LogsContext) :=
  match attempts with
  | O => ret None
  | S attempts' =>
      if current <? 0 then ret None
      else
        let candidate := "0x" +:+ toString16 current in
        let* nextBlock :=
          jsonRpcRequest rpcUrl "eth_getBlockByNumber" [JStr candidate; JBool false] in
        let nextHash := jprop_opt nextBlock "hash" in
        if negb (truthy nextHash) then findLogsLoop rpcUrl attempts' (current - 1)
        else
          let nextRequest := JObj [("blockHash", nullish nextHash JNull)] in
          let* nextLogs := safeGetLogs rpcUrl nextRequest in
          if negb (is_nil nextLogs) then
            let* n := lift (jprop nextBlock "number") in
            ret (Some {| blockNumber := nullish n (JStr candidate);
                         request := nextRequest;
                         logs := nextLogs |})
          else findLogsLoop rpcUrl attempts' (current - 1)
  end.

Definition findLogsCandidate (rpcUrl : string) (block : json) (fallbackNumber : json)
  : M Net (option LogsContext) :=
  let* h := lift (jprop block "hash") in
  match h with
  | Some (JStr hash) =>
      if is_empty hash then ret None
      else
        let request := JObj [("blockHash", JStr hash)] in
        let* logs := safeGetLogs rpcUrl request in
        if negb (is_nil logs) then
          let* n := lift (jprop block "number") in
          ret (Some {| blockNumber := nullish n fallbackNumber;
                       request := request;
                       logs := logs |})
        else
          let* start := lift (hexToBigInt fallbackNumber) in
          findLogsLoop rpcUrl 64 (start - 1)
  | _ => ret None
  end.

(** ** buildNetworkContext *)

(** [type BlockOverlayConfig] *)
Record BlockOverlayConfig : Type := {
  cfg_rpcUrl : string;
  cfg_blockNumber : option string;
  cfg_label : option string
}.

(** [type NetworkContext] *)
Record NetworkContext : Type := {
  ctx_rpcUrl : string;
  ctx_label : string;
  ctx_chainId : string;
  ctx_chainDir : string;
  ctx_blockNumber : json;
  ctx_blockHash : string;
  ctx_block : json;
  ctx_txHash : string;
  ctx_txIndex : string;
  ctx_sampleTx : json;
  ctx_logs : option LogsContext
}.

Definition buildNetworkContext (config : BlockOverlayConfig) : M Net NetworkContext :=
  let rpcUrl := cfg_rpcUrl config in
  let* rawChainId := jsonRpcRequest rpcUrl "eth_chainId" [] in
  let* chainId := lift (normalizeChainIdOf rawChainId) in
  let label :=
    match cfg_label config with
    | Some given => given
    | None => rpcUrl +:+ " (chainId " +:+ join_item rawChainId +:+ ")"
    end in
  let* headBlock :=
    match cfg_blockNumber config with
    | Some given => ret (JStr given)
    | None => jsonRpcRequest rpcUrl "eth_blockNumber" []
    end in
  let* blockCandidate := findBlockWithTransactions rpcUrl headBlock in
  let* hashValue := lift (jprop (block blockCandidate) "hash") in
  match hashValue with
  | Some (JStr blockHash) =>
      let* txHash := lift (extractTransactionHash (block blockCandidate)) in
      let* sampleTx := jsonRpcRequest rpcUrl "eth_getTransactionByHash" [JStr txHash] in
      let* logs := findLogsCandidate rpcUrl (block blockCandidate) (number blockCandidate) in
      ret {| ctx_rpcUrl := rpcUrl;
             ctx_label := label;
             ctx_chainId := chainId;
             ctx_chainDir := join E "overlays" chainId;
             ctx_blockNumber := number blockCandidate;
             ctx_blockHash := blockHash;
             ctx_block := block blockCandidate;
             ctx_txHash := txHash;
             ctx_txIndex := "0x0";
             ctx_sampleTx := sampleTx;
             ctx_logs := logs |}
  | _ => throw MissingBlockHash
  end.

End Rpc.

(** ** Property keys and array primitives *)

Inductive num : Type :=
  | Finite (n : Z)
  | NaN.

(** [Number(parentProperty)].  Of the numeric texts only the integer
    literals are read (they follow the grammar of [StringToBigInt]); a
    fraction or an exponent, which an index never has, reads as [NaN]. *)
Definition Number (p : PropKey) : num :=
  match p with
  | PKNum n => Finite n
  | PKStr s =>
      match StringToBigInt s with
      | Some n => Finite n
      | None => NaN
      end
  end.

(** [ToPropertyKey] *)
Definition ToPropertyKey (p : PropKey) : string :=
  match p with
  | PKStr s => s
  | PKNum n => toString10 n
  end.

(** [elems.splice(start, 1)]: what is left of the array. *)
Definition splice1 (start : num) (elems : list value) : list value :=
  let len := Z.of_nat (length elems) in
  let relativeStart := match start with Finite n => n | NaN => 0 end in
  let actualStart :=
    if relativeStart <? 0 then Z.max (len + relativeStart) 0
    else Z.min relativeStart len in
  let deleteCount := Z.max 0 (Z.min 1 (len - actualStart)) in
  take (Z.to_nat actualStart) elems ++ drop (Z.to_nat (actualStart + deleteCount)) elems.

(** [array[index] = v]: an index inside the array overwrites, an index
    past the end extends the array (the holes read as [undefined]), a
    negative index or [NaN] names a property. *)
Definition array_assign (index : num) (v : value)
    (elems : list value) (props : gmap string value) : object :=
  match index with
  | NaN => Arr elems (<["NaN" := v]> props)
  | Finite n =>
      if n <? 0 then Arr elems (<[toString10 n := v]> props)
      else
        let i := Z.to_nat n in
        if (i <? length elems)%nat then Arr (<[i := v]> elems) props
        else Arr (elems ++ replicate (i - length elems) VUndefined ++ [v]) props
  end.

(** The own enumerable properties that [{...o}] copies. *)
Definition index_fields (elems : list value) : gmap string value :=
  list_to_map (imap (fun i v => (toString10 (Z.of_nat i), v)) elems).

Definition own_fields (o : object) : gmap string value :=
  match o with
  | Obj fields => fields
  | Arr elems props => props ∪ index_fields elems
  end.

(** ** Heap primitives *)

Definition read (l : loc) : M heap object :=
  fun h =>
    match h !! l with
    | Some o => (Ok o, h)
    | None => (Err InvalidReference, h)
    end.

Definition write (l : loc) (o : object) : M heap unit :=
  fun h => (Ok tt, <[l := o]> h).

Definition alloc (o : object) : M heap loc :=
  fun h => (Ok (length h), h ++ [o]).

Fixpoint mapM {S A B : Type} (f : A -> M S B) (l : list A) : M S (list B) :=
  match l with
  | [] => ret []
  | x :: rest =>
      let* y := f x in
      let* ys := mapM f rest in
      ret (y :: ys)
  end.

(** [typeof current === "object" && current ? current : {}], spread. *)
Definition spread_current (current : value) : M heap (gmap string value) :=
  match current with
  | VRef l => let* o := read l in ret (own_fields o)
  | _ => ret ∅
  end.

(** ** JSON.stringify and JSON.parse *)

Fixpoint option_mapM {A B : Type} (f : A -> option B) (l : list A) : option (list B) :=
  match l with
  | [] => Some []
  | x :: rest =>
      match f x, option_mapM f rest with
      | Some y, Some ys => Some (y :: ys)
      | _, _ => None
      end
  end.

(** The tree [JSON.stringify] writes.  The outer [None] is the
    [TypeError] on a circular structure: a chain of [fuel] nested
    references has been followed.  The inner [None] is [undefined].
    Inside an array [undefined] is written as [null]; inside an object the
    property is left out; named properties of an array are not written. *)
Fixpoint JSON_stringify (fuel : nat) (h : heap) (v : value) : option (option json) :=
  match v with
  | VUndefined => Some None
  | VNull => Some (Some JNull)
  | VBool b => Some (Some (JBool b))
  | VNum n => Some (Some (JNum n))
  | VStr s => Some (Some (JStr s))
  | VRef l =>
      match fuel with
      | O => None
      | S fuel' =>
          match h !! l with
          | None => None
          | Some (Arr elems _) =>
              match option_mapM
                      (fun x => match JSON_stringify fuel' h x with
                                | None => None
                                | Some None => Some JNull
                                | Some (Some j) => Some j
                                end) elems with
              | None => None
              | Some items => Some (Some (JArr items))
              end
          | Some (Obj fields) =>
              match option_mapM
                      (fun kx => match JSON_stringify fuel' h (snd kx) with
                                 | None => None
                                 | Some None => Some []
                                 | Some (Some j) => Some [(fst kx, j)]
                                 end) (map_to_list fields) with
              | None => None
              | Some fs => Some (Some (JObj (concat fs)))
              end
          end
      end
  end.

(** The objects [JSON.parse] (or [yaml.load]) allocates for a tree: every
    array and object of the tree gets a location of its own, children
    before their parent. *)
Fixpoint reify (j : json) (h : heap) : value * heap :=
  match j with
  | JNull => (VNull, h)
  | JBool b => (VBool b, h)
  | JNum n => (VNum n, h)
  | JStr s => (VStr s, h)
  | JArr items =>
      let '(vs, h1) :=
        (fix items_ (l : list json) (h : heap) : list value * heap :=
           match l with
           | [] => ([], h)
           | x :: r =>
               let '(v, h') := reify x h in
               let '(vs, h'') := items_ r h' in
               (v :: vs, h'')
           end) items h in
      (VRef (length h1), h1 ++ [Arr vs ∅])
  | JObj fields =>
      let '(fs, h1) :=
        (fix fields_ (l : list (string * json)) (h : heap) : gmap string value * heap :=
           match l with
           | [] => (∅, h)
           | (k, x) :: r =>
               let '(v, h') := reify x h in
               let '(fs, h'') := fields_ r h' in
               (match fs !! k with Some _ => fs | None => <[k := v]> fs end, h'')
           end) fields h in
      (VRef (length h1), h1 ++ [Obj fs])
  end.

(** The elements of a parsed array, and the properties of a parsed
    object, the last binding of a key winning: the two inner loops of
    [reify] by name. *)
Fixpoint reify_items (l : list json) (h : heap) : list value * heap :=
  match l with
  | [] => ([], h)
  | x :: r =>
      let '(v, h') := reify x h in
      let '(vs, h'') := reify_items r h' in
      (v :: vs, h'')
  end.

Fixpoint reify_fields (l : list (string * json)) (h : heap) : gmap string value * heap :=
  match l with
  | [] => (∅, h)
  | (k, x) :: r =>
      let '(v, h') := reify x h in
      let '(fs, h'') := reify_fields r h' in
      (match fs !! k with Some _ => fs | None => <[k := v]> fs end, h'')
  end.

Definition is_container (j : json) : bool :=
  match j with
  | JArr _ | JObj _ => true
  | _ => false
  end.

(** [JSON.parse(JSON.stringify(document))] *)
Definition deepClone (document : value) : M heap value :=
  fun h =>
    match JSON_stringify (S (length h)) h document with
    | None => (Err (TypeError "Converting circular structure to JSON"), h)
    | Some None => (Err (SyntaxError "undefined is not valid JSON"), h)
    | Some (Some j) => let '(v, h') := reify j h in (Ok v, h')
    end.

(** ** File names *)

Definition startsWithDot (s : string) : bool :=
  match s with
  | String "." _ => true
  | _ => false
  end.

(** [name.split(".").pop()]: the text after the last dot, the whole name
    when it has no dot. *)
Fixpoint lastSegment (s : string) : string :=
  match s with
  | EmptyString => EmptyString
  | String a r =>
      if Ascii.eqb a "." then lastSegment r
      else if existsb (Ascii.eqb ".") (list_ascii_of_string r) then lastSegment r
      else s
  end.

Definition lower (a : ascii) : ascii :=
  let n := nat_of_ascii a in
  if ((65 <=? n) && (n <=? 90))%nat then ascii_of_nat (n + 32) else a.

Fixpoint toLowerCase (s : string) : string :=
  match s with
  | EmptyString => EmptyString
  | String a r => String (lower a) (toLowerCase r)
  end.

Definition overlayExtension (ext : string) : bool :=
  String.eqb ext "json" || String.eqb ext "yaml" || String.eqb ext "yml".

(** [(error as NodeJS.ErrnoException).code] *)
Definition code (error : exn) : option string :=
  match error with
  | ErrnoException c => Some c
  | _ => None
  end.

Definition isENOENT (error : exn) : bool :=
  match code error with
  | Some c => String.eqb c "ENOENT"
  | None => false
  end.

(** The two sides of the world an overlay run touches. *)
Record World : Type := {
  wheap : heap;
  wnet : Net
}.

Definition on_heap {A : Type} (m : M heap A) : M World A :=
  fun w => let '(r, h) := m (wheap w) in (r, {| wheap := h; wnet := wnet w |}).

Definition on_net {A : Type} (m : M Net A) : M World A :=
  fun w => let '(r, n) := m (wnet w) in (r, {| wheap := wheap w; wnet := n |}).

Section Overlay.

Variable E : Env.

(** ** selectNodes *)

Definition selectNodes (doc : value) (path : string) : M heap (list JsonPathMatch) :=
  fun h =>
    match JSONPath E h doc path with
    | Err e => (Err e, h)
    | Ok results =>
        if is_nil results then (Err (NoMatch path), h) else (Ok results, h)
    end.

(** ** applyAction *)

Definition applyAction (m : JsonPathMatch) (action : OverlayAction) : M heap unit :=
  match parent m, parentProperty m with
  | Some l, Some property =>
      let* o := read l in
      match action with
      | ActionRemove _ =>
          match o with
          | Arr elems props => write l (Arr (splice1 (Number property) elems) props)
          | Obj fields => write l (Obj (delete (ToPropertyKey property) fields))
          end
      | ActionMerge t merge =>
          match o with
          | Arr _ _ => throw (CannotMergeIntoArray t)
          | Obj fields =>
              let key := ToPropertyKey property in
              let current := default VUndefined (fields !! key) in
              let* base := spread_current current in
              let* fresh := alloc (Obj (merge ∪ base)) in
              write l (Obj (<[key := VRef fresh]> fields))
          end
      | ActionSet _ v =>
          match o with
          | Arr elems props => write l (array_assign (Number property) v elems props)
          | Obj fields => write l (Obj (<[ToPropertyKey property := v]> fields))
          end
      end
  | _, _ => throw (CannotMutateRoot (target action))
  end.

(** ** applyJsonPathOverlay *)

Fixpoint applyMatches (matches : list JsonPathMatch) (action : OverlayAction) : M heap unit :=
  match matches with
  | [] => ret tt
  | m :: rest =>
      let* _ := applyAction m action in
      applyMatches rest action
  end.

Fixpoint applyJsonPathOverlay (doc : value) (actions : list OverlayAction) : M heap value :=
  match actions with
  | [] => ret doc
  | action :: rest =>
      let* matches := selectNodes doc (target action) in
      let* _ := applyMatches matches action in
      applyJsonPathOverlay doc rest
  end.

(** ** parseOverlayFile *)

Definition allocAction (a : ActionText) : M heap OverlayAction :=
  fun h =>
    match a with
    | TextSet t j => let '(v, h') := reify j h in (Ok (ActionSet t v), h')
    | TextMerge t fields =>
        let '(fs, h') := reify_fields fields h in (Ok (ActionMerge t fs), h')
    | TextRemove t => (Ok (ActionRemove t), h)
    end.

Definition parseOverlayFile (contents ext : string) : M heap (list OverlayAction) :=
  let* parsed :=
    lift (if String.eqb ext "json" then JSON_parse E contents else yaml_load E contents) in
  mapM allocAction
    match parsed with
    | ParsedOne a => [a]
    | ParsedMany l => l
    end.

(** ** loadOverlayActions *)

(** The [for (const entry of entries)] loop; [descend] is the recursive
    call of [loadOverlayActions]. *)
Fixpoint loadEntries (descend : string -> M heap (list OverlayAction))
    (dir : string) (recursive : bool)
    (entries : list Dirent) (actions : list OverlayAction)
  : M heap (list OverlayAction) :=
  match entries with
  | [] => ret actions
  | entry :: rest =>
      if startsWithDot (name entry) then loadEntries descend dir recursive rest actions
      else
        match kind entry with
        | IsDirectory =>
            if recursive then
              let* sub := descend (join E dir (name entry)) in
              loadEntries descend dir recursive rest (actions ++ sub)
            else loadEntries descend dir recursive rest actions
        | IsOther => loadEntries descend dir recursive rest actions
        | IsFile =>
            let ext := toLowerCase (lastSegment (name entry)) in
            if is_empty ext || negb (overlayExtension ext) then
              loadEntries descend dir recursive rest actions
            else
              let* raw := lift (readFile E (join E dir (name entry))) in
              let* parsed := parseOverlayFile raw ext in
              loadEntries descend dir recursive rest (actions ++ parsed)
        end
  end.

(** [fuel] bounds the depth of directories the recursion enters. *)
Fixpoint loadOverlayActions (fuel : nat) (dir : string) (recursive : bool)
  : M heap (list OverlayAction) :=
  match fuel with
  | O => throw RecursionLimit
  | S fuel' =>
      try_catch
        (let* entries := lift (readdir E dir) in
         loadEntries (fun sub => loadOverlayActions fuel' sub true) dir recursive entries [])
        (fun error => if isENOENT error then ret [] else throw error)
  end.

(** ** applyExampleOverlays *)

Definition applyExampleOverlays (fuel : nat) (document : value) (rpcUrl : option string)
  : M World value :=
  let* global := on_heap (loadOverlayActions fuel (OVERLAYS_ROOT_DIR E) false) in
  let* chainId := on_net (resolveOverlayChainId E rpcUrl) in
  let* scoped :=
    match chainId with
    | Some id =>
        if is_empty id then ret []
        else on_heap (loadOverlayActions fuel (join E (OVERLAYS_ROOT_DIR E) id) true)
    | None => ret []
    end in
  let actions := global ++ scoped in
  if is_nil actions then ret document
  else
    let* clone := on_heap (deepClone document) in
    on_heap (applyJsonPathOverlay clone actions).

End Overlay.

(** ** Vocabulary of the statements *)

(** The network state after one more request. *)
Definition sent (req : Request) (n : Net) : Net :=
  {| trace := trace n ++ [req]; warnings := warnings n |}.

Definition logsRequest (rpcUrl : string) (filter : json) : Request :=
  {| req_url := rpcUrl; req_method := "eth_getLogs"; req_params := [filter] |}.

Definition isBlockRequest (req : Request) : bool :=
  String.eqb (req_method req) "eth_getBlockByNumber".

(** The transaction list of a block is a non-empty array. *)
Definition hasTransactions (block : json) : bool :=
  negb (is_nil (array_or_empty (jprop_opt block "transactions"))).

(** A well-formed JSON-RPC success response. *)
Definition success (r : json) : FetchOutcome :=
  Responded {| resp_ok := true; resp_status := 200; resp_statusText := "OK";
               resp_body := Some (JObj [("jsonrpc", JStr "2.0"); ("result", r)]) |}.

(** Every block query of the window [lo..hi] is answered, and answered
    with the block [feed] holds for that height. *)
Definition blocksAnswer (E : Env) (rpcUrl : string) (feed : Z -> json) (lo hi : Z) : Prop :=
  forall (n : Net) (current : Z),
    lo <= current <= hi ->
    fst (jsonRpcRequest E rpcUrl "eth_getBlockByNumber"
           [JStr ("0x" +:+ toString16 current); JBool false] n)
    = Ok (feed current).

(** The requests of a walk from [start] down over [count] blocks. *)
Definition walkRequests (rpcUrl : string) (start : Z) (count : nat) : list Request :=
  map (fun j : nat => blockRequest rpcUrl (start - Z.of_nat j)) (seq 0 count).

(** Every logs query fails or comes back without a single entry. *)
Definition noLogs (E : Env) (rpcUrl : string) : Prop :=
  forall (filter : json) (n : Net),
    match fst (jsonRpcRequest E rpcUrl "eth_getLogs" [filter] n) with
    | Ok (JArr (_ :: _)) => False
    | _ => True
    end.

(** How many of the requests sent so far ask for a block. *)
Definition blockRequests (n : Net) : nat :=
  length (List.filter isBlockRequest (trace n)).


Definition chainIdRequest (rpcUrl : string) : Request :=
  {| req_url := rpcUrl; req_method := "eth_chainId"; req_params := [] |}.


(** *** Regions of the heap *)

(** [v] refers to no location below [n]. *)
Definition value_above (n : nat) (v : value) : Prop :=
  match v with
  | VRef l => (n <= l)%nat
  | _ => True
  end.

Definition fields_above (n : nat) (fields : gmap string value) : Prop :=
  map_Forall (fun _ v => value_above n v) fields.

Definition object_above (n : nat) (o : object) : Prop :=
  match o with
  | Obj fields => fields_above n fields
  | Arr elems props => Forall (value_above n) elems /\ fields_above n props
  end.

(** The objects from location [n] on refer to one another only. *)
Definition closed_above (n : nat) (h : heap) : Prop :=
  forall (l : loc) (o : object),
    (n <= l)%nat -> h !! l = Some o -> object_above n o.

Definition action_above (n : nat) (action : OverlayAction) : Prop :=
  match action with
  | ActionSet _ v => value_above n v
  | ActionMerge _ payload => fields_above n payload
  | ActionRemove _ => True
  end.

(** Every object of [h0] is still in [h], as it was. *)
Definition untouched (h0 h : heap) : Prop :=
  (length h0 <= length h)%nat /\
  forall l : loc, (l < length h0)%nat -> h !! l = h0 !! l.

(** [o] holds [v] as an element or as the value of a property. *)
Definition holds (o : object) (v : value) : Prop :=
  match o with
  | Obj fields => exists k : string, fields !! k = Some v
  | Arr elems props => v ∈ elems \/ exists k : string, props !! k = Some v
  end.

(** What every step of a call that started on [h0] maintains: the
    objects of [h0] are as they were, and the objects made since do not
    refer to them. *)
Definition isolated (h0 h : heap) : Prop :=
  untouched h0 h /\ closed_above (length h0) h.

(** Allocating the tree [j] keeps a call isolated and yields a value of
    the new region, a new location when [j] is an array or an object. *)
Definition reify_ok (h0 : heap) (j : json) : Prop :=
  forall (h h' : heap) (v : value),
    isolated h0 h -> reify j h = (v, h') ->
    isolated h0 h' /\ value_above (length h0) v /\ (length h <= length h')%nat
    /\ (is_container j = true -> exists l : loc, v = VRef l /\ (length h <= l)%nat).

(** The actions a loader returned, if it did, carry payloads of the new
    region only. *)
Definition actions_above (n : nat) (r : result (list OverlayAction)) : Prop :=
  match r with
  | Ok actions => Forall (action_above n) actions
  | Err _ => True
  end.

(** The locations a value leads to. *)
Inductive reach (h : heap) : value -> loc -> Prop :=
  | reach_root (l : loc) : reach h (VRef l) l
  | reach_child (l : loc) (o : object) (v : value) (l' : loc) :
      h !! l = Some o -> holds o v -> reach h v l' -> reach h (VRef l) l'.

(** What the engine relies on from jsonpath-plus: the parent of a match
    is a container of the document that was searched. *)
Definition resolverSound (E : Env) : Prop :=
  forall (h : heap) (doc : value) (path : string)
         (matches : list JsonPathMatch) (m : JsonPathMatch) (l : loc),
    JSONPath E h doc path = Ok matches ->
    m ∈ matches ->
    parent m = Some l ->
    reach h doc l.

(** ** A concrete environment

    A small resolver, endpoint and overlay directory on which the
    definitions above can be run. *)

Module Demo.

Definition net0 : Net := {| trace := []; warnings := [] |}.

(** *** Child paths

    The resolver below reads the paths [$.key.key...] of jsonpath-plus:
    every segment names an own property of the container reached so
    far, a key of an object or an index of an array.  As in
    jsonpath-plus the root match has no parent and a segment is reported
    as the text it has in the path. *)

Fixpoint splitDots (s : string) : list string :=
  match s with
  | EmptyString => [EmptyString]
  | String a r =>
      if Ascii.eqb a "." then EmptyString :: splitDots r
      else
        match splitDots r with
        | x :: xs => String a x :: xs
        | [] => [String a EmptyString]
        end
  end.

Definition arrayIndex (s : string) : option nat :=
  match parse_digits 10 s with
  | Some n => if String.eqb (toString10 n) s then Some (Z.to_nat n) else None
  | None => None
  end.

Definition child (h : heap) (l : loc) (segment : string) : option value :=
  match h !! l with
  | Some (Obj fields) => fields !! segment
  | Some (Arr elems _) =>
      match arrayIndex segment with
      | Some i => elems !! i
      | None => None
      end
  | None => None
  end.

Fixpoint walk (h : heap) (segments : list string)
    (par : option loc) (property : option PropKey) (v : value) : list JsonPathMatch :=
  match segments with
  | [] => [{| parent := par; parentProperty := property; matched := v |}]
  | segment :: rest =>
      match v with
      | VRef l =>
          match child h l segment with
          | Some v' => walk h rest (Some l) (Some (PKStr segment)) v'
          | None => []
          end
      | _ => []
      end
  end.

Definition childPath (h : heap) (doc : value) (path : string)
  : result (list JsonPathMatch) :=
  match splitDots path with
  | first :: segments =>
      if String.eqb first "$" then Ok (walk h segments None None doc)
      else Err (SyntaxError "path")
  | [] => Err (SyntaxError "path")
  end.

(** *** A document with one nested object *)

Definition infoFields : gmap string value :=
  <["title" := VStr "API"]> {["version" := VStr "1"]}.

Definition infoHeap : heap := [Obj {["info" := VRef 1%nat]}; Obj infoFields].

Definition infoMatch : JsonPathMatch :=
  {| parent := Some 0%nat; parentProperty := Some (PKStr "info"); matched := VRef 1%nat |}.

Definition versionPatch : gmap string value := {["version" := VStr "2"]}.

(** A flat document [{ "title": "API" }] at location 0. *)
Definition titleHeap : heap := [Obj {["title" := VStr "API"]}].

(** *** Endpoints *)

Definition offline : list Request -> Request -> FetchOutcome :=
  fun _ _ => Rejected "connect ECONNREFUSED".

(** An endpoint that answers the three methods of the searches. *)
Definition endpoint (chainId : FetchOutcome) (blocks : Z -> FetchOutcome)
    (logs : json -> FetchOutcome) : list Request -> Request -> FetchOutcome :=
  fun _ req =>
    if String.eqb (req_method req) "eth_chainId" then chainId
    else if String.eqb (req_method req) "eth_getBlockByNumber" then
      match req_params req with
      | JStr height :: _ =>
          match StringToBigInt height with
          | Some n => blocks n
          | None => Rejected "bad height"
          end
      | _ => Rejected "bad params"
      end
    else if String.eqb (req_method req) "eth_getLogs" then
      match req_params req with
      | [filter] => logs filter
      | _ => Rejected "bad params"
      end
    else Rejected "unsupported method".

Definition blockOf (height : Z) (transactions : list json) : json :=
  JObj [("number", JStr ("0x" +:+ toString16 height));
        ("hash", JStr ("0xb10c" +:+ toString16 height));
        ("transactions", JArr transactions)].

(** Six blocks, 5 down to 0; only block 2, the fourth of a walk from 5,
    has transactions. *)
Definition sixBlocks (height : Z) : json :=
  if height =? 2 then blockOf 2 [JStr "0xaaa"; JStr "0xbbb"] else blockOf height [].

(** *** Overlay directories *)

Definition noDirectory : string -> result (list Dirent) :=
  fun _ => Err (ErrnoException "ENOENT").

Definition noFile : string -> result string :=
  fun _ => Err (ErrnoException "ENOENT").

Definition noParser : string -> result Parsed :=
  fun _ => Err (SyntaxError "unexpected token").

Definition env (fetch_ : list Request -> Request -> FetchOutcome)
    (readdir_ : string -> result (list Dirent))
    (readFile_ : string -> result string)
    (parse_ : string -> result Parsed) : Env :=
  {| fetch := fetch_;
     readdir := readdir_;
     readFile := readFile_;
     JSON_parse := parse_;
     yaml_load := parse_;
     JSONPath := childPath;
     join := fun a b => a +:+ "/" +:+ b;
     OVERLAYS_ROOT_DIR := "overlays" |}.

Definition online (fetch_ : list Request -> Request -> FetchOutcome) : Env :=
  env fetch_ noDirectory noFile noParser.

(** An endpoint whose answer carries neither [result] nor [error]. *)
(** No endpoint and no overlay directory: only the resolver matters. *)
Definition bare : Env := online offline.


(** An overlay directory with one file, [title.json], that sets the
    title, next to a hidden entry and a subdirectory. *)
Definition patched : Env :=
  env offline
    (fun dir =>
       if String.eqb dir "overlays" then
         Ok [{| name := ".gitkeep"; kind := IsFile |};
             {| name := "title.json"; kind := IsFile |};
             {| name := "11155111"; kind := IsDirectory |}]
       else Err (ErrnoException "ENOENT"))
    (fun path =>
       if String.eqb path "overlays/title.json" then Ok "{ set title }"
       else Err (ErrnoException "ENOENT"))
    (fun contents =>
       if String.eqb contents "{ set title }" then
         Ok (ParsedOne (TextSet "$.title" (JStr "v2")))
       else Err (SyntaxError "unexpected token")).

Definition world0 : World := {| wheap := titleHeap; wnet := net0 |}.

Definition hollow : Env :=
  online (fun _ _ =>
            Responded {| resp_ok := true; resp_status := 200; resp_statusText := "OK";
                         resp_body := Some (JObj [("jsonrpc", JStr "2.0");
                                                  ("id", JNum 1)]) |}).

Definition sixBlockChain : Env :=
  online (endpoint (success (JStr "0xaa36a7"))
                   (fun n => success (sixBlocks n))
                   (fun _ => Rejected "logs are pruned")).

End Demo.

(** ** sanitizeMethodName and defaultTargetForMethod *)

(** The characters outside the class [[^A-Za-z0-9_.-]]. *)
Definition safeChar (a : ascii) : bool :=
  let n := nat_of_ascii a in
  (((65 <=? n) && (n <=? 90)) || ((97 <=? n) && (n <=? 122))
   || ((48 <=? n) && (n <=? 57)) || (n =? 95) || (n =? 46) || (n =? 45))%nat.

(** [methodName.replace(/[^A-Za-z0-9_.-]/g, "_")] *)
Fixpoint sanitizeMethodName (methodName : string) : string :=
  match methodName with
  | EmptyString => EmptyString
  | String a r => String (if safeChar a then a else "_"%char) (sanitizeMethodName r)
  end.

Definition defaultTargetForMethod (methodName : string) : string :=
  "$.methods[?(@.name=='" +:+ methodName +:+ "')].examples[0]".

(** ** The example generators *)

(** What the generators use of node:fs, node:path and js-yaml. *)
Record Disk : Type := {
  dirname : string -> string;
  (** [mkdir(path, { recursive: true })] *)
  mkdir : string -> result unit;
  (** [writeFile(path, contents, "utf8")] *)
  writeFile : string -> string -> result unit;
  (** [yaml.dump(value, { lineWidth: -1 })] *)
  yaml_dump : json -> string
}.

(** The world of a refresh run: the network, the directories made, the
    files written (oldest first), and the lines of [console.log] and of
    [console.warn]. *)
Record Run : Type := {
  rnet : Net;
  dirs : list string;
  files : list (string * string);
  logged : list string;
  skipped : list string
}.

Definition on_rnet {A : Type} (m : M Net A) : M Run A :=
  fun r =>
    let '(a, n) := m (rnet r) in
    (a, {| rnet := n; dirs := dirs r; files := files r;
           logged := logged r; skipped := skipped r |}).

Definition console_log (line : string) : M Run unit :=
  fun r => (Ok tt, {| rnet := rnet r; dirs := dirs r; files := files r;
                      logged := logged r ++ [line]; skipped := skipped r |}).

Definition console_warn (line : string) : M Run unit :=
  fun r => (Ok tt, {| rnet := rnet r; dirs := dirs r; files := files r;
                      logged := logged r; skipped := skipped r ++ [line] |}).

(** [type ExampleParam] and [type OverlayExample]; [None] is an absent
    optional property. *)
Record ExampleParam : Type := {
  param_name : string;
  param_value : json
}.

Record OverlayExample : Type := {
  params : list ExampleParam;
  resultName : string;
  resultValue : json;
  description : option string;
  example_target : option string
}.

(** [`${value}`] in a template literal. *)
Definition template (value : json) : string :=
  match value with
  | JNull => "null"
  | _ => join_item value
  end.

Definition paramJson (p : ExampleParam) : json :=
  JObj [("name", JStr (param_name p)); ("value", param_value p)].

(** The [overlayAction] object of [writeOverlay]. *)
Definition overlayActionFor (ctx : NetworkContext) (methodName : string)
    (example : OverlayExample) : json :=
  JObj [("target",
         JStr match example_target example with
              | Some t => t
              | None => defaultTargetForMethod methodName
              end);
        ("set",
         JObj [("name", JStr methodName);
               ("description",
                JStr match description example with
                     | Some d => d
                     | None =>
                         "Example generated from " +:+ ctx_label ctx
                         +:+ " at block " +:+ template (ctx_blockNumber ctx)
                     end);
               ("params", JArr (map paramJson (params example)));
               ("result",
                JObj [("name", JStr (resultName example));
                      ("value", resultValue example)])])].

(** The messages of the skipped generators. *)
Definition skipMessage (methodName rpcUrl why : string) : string :=
  "Skipping " +:+ methodName +:+ " for " +:+ rpcUrl +:+ " (" +:+ why +:+ ")".

(** The fields [generateCreateAccessListExample] takes over. *)
Definition graft : list string :=
  ["from"; "to"; "gas"; "gasPrice"; "maxFeePerGas"; "maxPriorityFeePerGas";
   "value"; "data"].

(** [typeof baseTx[field] === "string" && baseTx[field] !== "0x"] *)
Definition grafted (baseTx : json) (field : string) : list (string * json) :=
  match jprop_opt baseTx field with
  | Some (JStr s) => if String.eqb s "0x" then [] else [(field, JStr s)]
  | _ => []
  end.

(** [delete tx[key]] on the properties of a fresh object. *)
Definition deleteKey (key : string) (tx : list (string * json)) : list (string * json) :=
  List.filter (fun kv => negb (String.eqb (fst kv) key)) tx.

(** The transaction object of [generateCreateAccessListExample], before
    its [from] and [to] are checked. *)
Definition accessListTx (baseTx : json) : list (string * json) :=
  let tx := flat_map (grafted baseTx) graft in
  if truthy (jfield "gasPrice" tx)
     && (truthy (jfield "maxFeePerGas" tx) || truthy (jfield "maxPriorityFeePerGas" tx))
  then deleteKey "gasPrice" tx
  else tx.

(** The first log's address and first topic, as [generateFilterExamples]
    adds them to the filter. *)
Definition filterAnchors (firstLog : json) : result (list (string * json)) :=
  match jprop firstLog "address", jprop firstLog "topics" with
  | Err e, _ => Err e
  | _, Err e => Err e
  | Ok address, Ok topics =>
      Ok (match address with
          | Some (JStr a) => [("address", JStr a)]
          | _ => []
          end
          ++ match topics with
             | Some (JArr (topic :: _)) => [("topics", JArr [topic])]
             | _ => []
             end)
  end.

Section Generators.

Variable E : Env.
Variable D : Disk.

(** ** writeOverlay *)

Definition overlayPath (ctx : NetworkContext) (methodName : string) : string :=
  join E (ctx_chainDir ctx) (sanitizeMethodName methodName +:+ ".yaml").

Definition make_dir (path : string) : M Run unit :=
  fun r =>
    match mkdir D path with
    | Ok _ => (Ok tt, {| rnet := rnet r; dirs := dirs r ++ [path]; files := files r;
                         logged := logged r; skipped := skipped r |})
    | Err e => (Err e, r)
    end.

Definition write_file (path contents : string) : M Run unit :=
  fun r =>
    match writeFile D path contents with
    | Ok _ => (Ok tt, {| rnet := rnet r; dirs := dirs r;
                         files := files r ++ [(path, contents)];
                         logged := logged r; skipped := skipped r |})
    | Err e => (Err e, r)
    end.

Definition writeOverlay (ctx : NetworkContext) (methodName : string)
    (example : OverlayExample) : M Run unit :=
  let overlayAction := overlayActionFor ctx methodName example in
  let filePath := overlayPath ctx methodName in
  let* _ := make_dir (dirname D filePath) in
  let* _ := write_file filePath (yaml_dump D overlayAction) in
  console_log ("Wrote overlay for " +:+ methodName +:+ " -> " +:+ filePath).

(** ** generateBlockExamples *)

Definition generateBlockExamples (ctx : NetworkContext) : M Run unit :=
  let* _ :=
    writeOverlay ctx "eth_getBlockByNumber"
      {| params := [{| param_name := "Block"; param_value := ctx_blockNumber ctx |};
                    {| param_name := "Hydrated transactions"; param_value := JBool false |}];
         resultName := "Block information";
         resultValue := ctx_block ctx;
         description := None;
         example_target := None |} in
  let* blockByHash :=
    on_rnet (jsonRpcRequest E (ctx_rpcUrl ctx) "eth_getBlockByHash"
               [JStr (ctx_blockHash ctx); JBool false]) in
  writeOverlay ctx "eth_getBlockByHash"
    {| params := [{| param_name := "Block hash"; param_value := JStr (ctx_blockHash ctx) |};
                  {| param_name := "Hydrated transactions"; param_value := JBool false |}];
       resultName := "Block information";
       resultValue := blockByHash;
       description := None;
       example_target := None |}.

(** ** generateTransactionExamples *)

Definition generateTransactionExamples (ctx : NetworkContext) : M Run unit :=
  let* byNumber :=
    on_rnet (jsonRpcRequest E (ctx_rpcUrl ctx) "eth_getTransactionByBlockNumberAndIndex"
               [ctx_blockNumber ctx; JStr (ctx_txIndex ctx)]) in
  let* _ :=
    writeOverlay ctx "eth_getTransactionByBlockNumberAndIndex"
      {| params := [{| param_name := "Block"; param_value := ctx_blockNumber ctx |};
                    {| param_name := "Transaction index";
                       param_value := JStr (ctx_txIndex ctx) |}];
         resultName := "Transaction";
         resultValue := byNumber;
         description := None;
         example_target := None |} in
  let* byHashAndIndex :=
    on_rnet (jsonRpcRequest E (ctx_rpcUrl ctx) "eth_getTransactionByBlockHashAndIndex"
               [JStr (ctx_blockHash ctx); JStr (ctx_txIndex ctx)]) in
  let* _ :=
    writeOverlay ctx "eth_getTransactionByBlockHashAndIndex"
      {| params := [{| param_name := "Block hash"; param_value := JStr (ctx_blockHash ctx) |};
                    {| param_name := "Transaction index";
                       param_value := JStr (ctx_txIndex ctx) |}];
         resultName := "Transaction";
         resultValue := byHashAndIndex;
         description := None;
         example_target := None |} in
  let* tx :=
    on_rnet (jsonRpcRequest E (ctx_rpcUrl ctx) "eth_getTransactionByHash"
               [JStr (ctx_txHash ctx)]) in
  writeOverlay ctx "eth_getTransactionByHash"
    {| params := [{| param_name := "Transaction hash";
                     param_value := JStr (ctx_txHash ctx) |}];
       resultName := "Transaction";
       resultValue := tx;
       description := None;
       example_target := None |}.

(** ** generateLogsExample *)

Definition generateLogsExample (ctx : NetworkContext) : M Run unit :=
  match ctx_logs ctx with
  | None => console_warn (skipMessage "eth_getLogs" (ctx_rpcUrl ctx) "no logs found")
  | Some found =>
      writeOverlay ctx "eth_getLogs"
        {| params := [{| param_name := "Filter"; param_value := request found |}];
           resultName := "Logs";
           resultValue := JArr (logs found);
           description :=
             Some ("Logs fetched for block " +:+ template (blockNumber found)
                   +:+ " from " +:+ ctx_label ctx);
           example_target := None |}
  end.

(** The [miner] of the context's block when it is a non-empty text: the
    [account] of [generateProofExample], the [sender] of
    [generateEstimateGasExample]. *)
Definition minerOf (ctx : NetworkContext) : result (option string) :=
  match jprop (ctx_block ctx) "miner" with
  | Err e => Err e
  | Ok (Some (JStr m)) => Ok (if is_empty m then None else Some m)
  | Ok _ => Ok None
  end.

(** ** generateProofExample *)

Definition generateProofExample (ctx : NetworkContext) : M Run unit :=
  let* miner := lift (minerOf ctx) in
  match miner with
  | None =>
      console_warn (skipMessage "eth_getProof" (ctx_rpcUrl ctx) "missing miner address")
  | Some account =>
      let* proof :=
        on_rnet (jsonRpcRequest E (ctx_rpcUrl ctx) "eth_getProof"
                   [JStr account; JArr []; ctx_blockNumber ctx]) in
      writeOverlay ctx "eth_getProof"
        {| params := [{| param_name := "Address"; param_value := JStr account |};
                      {| param_name := "Storage keys"; param_value := JArr [] |};
                      {| param_name := "Block"; param_value := ctx_blockNumber ctx |}];
           resultName := "Account proof";
           resultValue := proof;
           description := None;
           example_target := None |}
  end.

(** ** generateFilterExamples *)

Definition generateFilterExamples (ctx : NetworkContext) : M Run unit :=
  match ctx_logs ctx with
  | Some {| blockNumber := logsBlock; logs := firstLog :: _ |} =>
      let* anchors := lift (filterAnchors firstLog) in
      let filterParams :=
        JObj ([("fromBlock", logsBlock); ("toBlock", logsBlock)] ++ anchors) in
      let* filterId :=
        on_rnet (jsonRpcRequest E (ctx_rpcUrl ctx) "eth_newFilter" [filterParams]) in
      let* changes :=
        on_rnet (jsonRpcRequest E (ctx_rpcUrl ctx) "eth_getFilterChanges" [filterId]) in
      let* _ :=
        writeOverlay ctx "eth_getFilterChanges"
          {| params := [{| param_name := "Filter id"; param_value := filterId |}];
             resultName := "Filter changes";
             resultValue := changes;
             description := Some ("Filter changes for block " +:+ template logsBlock);
             example_target := None |} in
      let* filterLogs :=
        on_rnet (jsonRpcRequest E (ctx_rpcUrl ctx) "eth_getFilterLogs" [filterId]) in
      writeOverlay ctx "eth_getFilterLogs"
        {| params := [{| param_name := "Filter id"; param_value := filterId |}];
           resultName := "Filter logs";
           resultValue := filterLogs;
           description := Some ("Filter logs for block " +:+ template logsBlock);
           example_target := None |}
  | _ =>
      console_warn
        (skipMessage "filter examples" (ctx_rpcUrl ctx) "no logs to anchor filter")
  end.

(** ** generateEstimateGasExample *)

Definition generateEstimateGasExample (ctx : NetworkContext) : M Run unit :=
  let* miner := lift (minerOf ctx) in
  match miner with
  | None =>
      console_warn (skipMessage "eth_estimateGas" (ctx_rpcUrl ctx) "missing miner address")
  | Some sender =>
      let tx := JObj [("from", JStr sender); ("to", JStr sender); ("value", JStr "0x0")] in
      let* estimate :=
        on_rnet (jsonRpcRequest E (ctx_rpcUrl ctx) "eth_estimateGas" [tx]) in
      writeOverlay ctx "eth_estimateGas"
        {| params := [{| param_name := "Transaction"; param_value := tx |}];
           resultName := "Estimated gas";
           resultValue := estimate;
           description := None;
           example_target := None |}
  end.

(** ** generateCreateAccessListExample *)

Definition generateCreateAccessListExample (ctx : NetworkContext) : M Run unit :=
  let baseTx := ctx_sampleTx ctx in
  if negb (truthy (Some baseTx)) then
    console_warn (skipMessage "eth_createAccessList" (ctx_rpcUrl ctx)
                    "no sample transaction available")
  else
    let tx := accessListTx baseTx in
    if negb (truthy (jfield "from" tx)) || negb (truthy (jfield "to" tx)) then
      console_warn (skipMessage "eth_createAccessList" (ctx_rpcUrl ctx)
                      "sample transaction missing required fields")
    else
      let* accessList :=
        on_rnet (jsonRpcRequest E (ctx_rpcUrl ctx) "eth_createAccessList"
                   [JObj tx; ctx_blockNumber ctx]) in
      writeOverlay ctx "eth_createAccessList"
        {| params := [{| param_name := "Transaction"; param_value := JObj tx |};
                      {| param_name := "Block"; param_value := ctx_blockNumber ctx |}];
           resultName := "Access list information";
           resultValue := accessList;
           description := None;
           example_target := None |}.

(** ** generateBlockExampleOverlays *)

(** The seven generators of one endpoint, in the order of the loop body. *)
Definition generateExamples (ctx : NetworkContext) : M Run unit :=
  let* _ := generateBlockExamples ctx in
  let* _ := generateTransactionExamples ctx in
  let* _ := generateLogsExample ctx in
  let* _ := generateProofExample ctx in
  let* _ := generateFilterExamples ctx in
  let* _ := generateEstimateGasExample ctx in
  generateCreateAccessListExample ctx.

Fixpoint generateBlockExampleOverlays (configs : list BlockOverlayConfig) : M Run unit :=
  match configs with
  | [] => ret tt
  | config :: rest =>
      let* ctx := on_rnet (buildNetworkContext E config) in
      let* _ := generateExamples ctx in
      generateBlockExampleOverlays rest
  end.

End Generators.

(** ** Vocabulary of the further statements *)

(** Every logs query comes back with the entries [logsOf] gives for its
    filter (none when the query fails). *)
Definition logsAnswer (E : Env) (rpcUrl : string) (logsOf : json -> list json) : Prop :=
  forall (filter : json) (n : Net),
    fst (safeGetLogs E rpcUrl filter n) = Ok (logsOf filter).

(** The filter the logs walk asks with for a block, and the entries it
    gets: none for a block without a usable hash. *)
Definition hashFilter (block : json) : json :=
  JObj [("blockHash", nullish (jprop_opt block "hash") JNull)].

Definition blockLogs (logsOf : json -> list json) (block : json) : list json :=
  if truthy (jprop_opt block "hash") then logsOf (hashFilter block) else [].

(** The chain-scoped load of [applyExampleOverlays]: the directory of a
    chain id that is not empty, read recursively; nothing otherwise. *)
Definition scopedActions (E : Env) (fuel : nat) (chainId : option string)
  : M heap (list OverlayAction) :=
  match chainId with
  | Some id =>
      if is_empty id then ret []
      else loadOverlayActions E fuel (join E (OVERLAYS_ROOT_DIR E) id) true
  | None => ret []
  end.

(** The requests one step of the logs walk sends for the block at
    height [current]: the block query and, when the block it gets has a
    usable hash, the logs query by that hash. *)
Definition logsStep (rpcUrl : string) (feed : Z -> json) (current : Z) : list Request :=
  blockRequest rpcUrl current
  :: (if truthy (jprop_opt (feed current) "hash")
      then [logsRequest rpcUrl (hashFilter (feed current))]
      else []).

(** The requests of a logs walk from [start] down over [count] blocks. *)
Definition logsWalk (rpcUrl : string) (feed : Z -> json) (start : Z) (count : nat)
  : list Request :=
  flat_map (fun j : nat => logsStep rpcUrl feed (start - Z.of_nat j)) (seq 0 count).

(** The network state after the requests [requests]. *)
Definition sentAll (requests : list Request) (n : Net) : Net :=
  {| trace := trace n ++ requests; warnings := warnings n |}.

(** The entries of a listing a scan looks into: visible files with an
    overlay extension, and visible directories when it is recursive. *)
Definition scanned (recursive : bool) (entry : Dirent) : bool :=
  negb (startsWithDot (name entry))
  && match kind entry with
     | IsDirectory => recursive
     | IsFile => overlayExtension (toLowerCase (lastSegment (name entry)))
     | IsOther => false
     end.

Definition has_dot (s : string) : bool :=
  existsb (Ascii.eqb ".") (list_ascii_of_string s).

(** The methods a refresh writes an example for. *)
Definition methodNames : list string :=
  ["eth_getBlockByNumber"; "eth_getBlockByHash";
   "eth_getTransactionByBlockNumberAndIndex"; "eth_getTransactionByBlockHashAndIndex";
   "eth_getTransactionByHash"; "eth_getLogs"; "eth_getProof";
   "eth_getFilterChanges"; "eth_getFilterLogs"; "eth_estimateGas";
   "eth_createAccessList"].

(** An overlay file of a chain: [overlays/<chain id>/<method>.yaml]. *)
Definition overlayFile (E : Env) (path : string) : Prop :=
  exists id m : string,
    is_empty id = false
    /\ In m methodNames
    /\ path = join E (join E "overlays" id) (sanitizeMethodName m +:+ ".yaml").

(** Between two states of the network, requests were sent to the
    endpoints [urls] only. *)
Definition asked (urls : list string) (n n' : Net) : Prop :=
  exists requests : list Request,
    trace n' = trace n ++ requests
    /\ Forall (fun q => In (req_url q) urls) requests.

(** What a refresh did between two states of its world: it sent
    requests to the endpoints [urls] only, it made directories and wrote
    files for the paths [allowed] only, nothing that was there is gone,
    and it printed one line per file written. *)
Definition refreshed (D : Disk) (urls : list string) (allowed : string -> Prop)
    (r r' : Run) : Prop :=
  asked urls (rnet r) (rnet r')
  /\ (exists made : list string,
         dirs r' = dirs r ++ made
         /\ Forall (fun d => exists path : string, allowed path /\ d = dirname D path) made)
  /\ (exists (written : list (string * string)) (lines : list string),
         files r' = files r ++ written
         /\ Forall (fun f => allowed (fst f)) written
         /\ logged r' = logged r ++ lines
         /\ length lines = length written).

(** No line of [console.warn] was added. *)
Definition unwarned (r r' : Run) : Prop := skipped r' = skipped r.

(** Whatever its outcome, the computation [c] relates the state it
    starts from to the state it leaves. *)
Definition preserves {St A : Type} (R : St -> St -> Prop) (c : M St A) : Prop :=
  forall (s : St) (a : result A) (s' : St), c s = (a, s') -> R s s'.

(** ** A concrete refresh run *)

Module Harvest.

(** An endpoint that sends [error: null] beside a [null] result. *)
Definition nullErrorResponse : Response :=
  {| resp_ok := true; resp_status := 200; resp_statusText := "OK";
     resp_body := Some (JObj [("error", JNull); ("result", JNull)]) |}.

Definition nullError : Env := Demo.online (fun _ _ => Responded nullErrorResponse).

(** The six blocks again, but the query for block 3 times out. *)
Definition timeoutAt3 : Env :=
  Demo.online
    (Demo.endpoint (success (JStr "0xaa36a7"))
       (fun n => if n =? 3 then Rejected "timeout" else success (Demo.sixBlocks n))
       (fun _ => Rejected "logs are pruned")).

(** The six blocks, with two log entries on block 3 only. *)
Definition logsOf3 (filter : json) : list json :=
  match filter with
  | JObj [("blockHash", JStr "0xb10c3")] =>
      [JObj [("address", JStr "0xc0ffee"); ("topics", JArr [JStr "0xddf2"; JStr "0x01"])];
       JObj [("address", JStr "0xdecaf"); ("topics", JArr [])]]
  | _ => []
  end.

Definition logsAt3 : Env :=
  Demo.online
    (Demo.endpoint (success (JStr "0xaa36a7"))
       (fun n => success (Demo.sixBlocks n))
       (fun filter => success (JArr (logsOf3 filter)))).

(** An overlay directory that lists two files, the second of which is
    gone by the time it is read. *)
Definition vanished : Env :=
  Demo.env Demo.offline
    (fun dir =>
       if String.eqb dir "overlays" then
         Ok [{| name := "title.json"; kind := IsFile |};
             {| name := "gone.yaml"; kind := IsFile |}]
       else Err (ErrnoException "ENOENT"))
    (fun path =>
       if String.eqb path "overlays/title.json" then Ok "{ set title }"
       else Err (ErrnoException "ENOENT"))
    (fun contents =>
       if String.eqb contents "{ set title }" then
         Ok (ParsedOne (TextSet "$.title" (JStr "v2")))
       else Err (SyntaxError "unexpected token")).

(** An endpoint that answers every method: the six blocks with the logs
    of block 3, a sample transaction, and ["0x1"] for the rest. *)
Definition sampleTx : json :=
  JObj [("from", JStr "0xf00"); ("to", JStr "0xba5");
        ("gasPrice", JStr "0x3b9aca00"); ("maxFeePerGas", JStr "0x77359400");
        ("value", JStr "0x0"); ("input", JStr "0x")].

Definition archive : Env :=
  Demo.online
    (fun past req =>
       if String.eqb (req_method req) "eth_getTransactionByHash" then success sampleTx
       else if String.eqb (req_method req) "eth_chainId"
               || String.eqb (req_method req) "eth_getBlockByNumber"
               || String.eqb (req_method req) "eth_getLogs"
       then Demo.endpoint (success (JStr "0xaa36a7"))
              (fun n => success (Demo.sixBlocks n))
              (fun filter => success (JArr (logsOf3 filter))) past req
       else success (JStr "0x1")).

(** [dirname] on paths with [/]: the text before the last [/]. *)
Fixpoint beforeLastSlash (s : string) : string :=
  match s with
  | EmptyString => EmptyString
  | String a r =>
      if existsb (Ascii.eqb "/") (list_ascii_of_string r)
      then String a (beforeLastSlash r)
      else EmptyString
  end.

(** A disk that takes every directory and file; of an action its dump
    keeps the target. *)
Definition disk : Disk :=
  {| dirname := beforeLastSlash;
     mkdir := fun _ => Ok tt;
     writeFile := fun _ _ => Ok tt;
     yaml_dump := fun action => join_item (nullish (jprop_opt action "target") JNull) |}.

Definition run0 : Run :=
  {| rnet := Demo.net0; dirs := []; files := []; logged := []; skipped := [] |}.

Definition sepolia : BlockOverlayConfig :=
  {| cfg_rpcUrl := "https://rpc.example";
     cfg_blockNumber := Some "0x5";
     cfg_label := Some "Sepolia" |}.

(** The context [buildNetworkContext] makes of [sepolia] on [archive]. *)
Definition sepoliaContext : NetworkContext :=
  {| ctx_rpcUrl := "https://rpc.example";
     ctx_label := "Sepolia";
     ctx_chainId := "11155111";
     ctx_chainDir := "overlays/11155111";
     ctx_blockNumber := JStr "0x2";
     ctx_blockHash := "0xb10c2";
     ctx_block := Demo.sixBlocks 2;
     ctx_txHash := "0xaaa";
     ctx_txIndex := "0x0";
     ctx_sampleTx := sampleTx;
     ctx_logs := None |}.

(** An endpoint on chain 11155111 and an overlay directory whose only
    file, [title.json], lies in the directory of that chain. *)
Definition chainOnly : Env :=
  Demo.env
    (Demo.endpoint (success (JStr "0xaa36a7")) (fun _ => Rejected "no blocks")
       (fun _ => Rejected "no logs"))
    (fun dir =>
       if String.eqb dir "overlays" then Ok [{| name := "11155111"; kind := IsDirectory |}]
       else if String.eqb dir "overlays/11155111"
            then Ok [{| name := "title.json"; kind := IsFile |}]
            else Err (ErrnoException "ENOENT"))
    (fun path =>
       if String.eqb path "overlays/11155111/title.json" then Ok "{ set title }"
       else Err (ErrnoException "ENOENT"))
    (fun contents =>
       if String.eqb contents "{ set title }" then
         Ok (ParsedOne (TextSet "$.title" (JStr "v2")))
       else Err (SyntaxError "unexpected token")).

End Harvest.

(** ** A resolver with a wildcard *)

Module Wildcard.

(** The matches of [$.key[*]] as jsonpath-plus reports them: one for
    each element of the array under [key], in order, with the array as
    parent and the index of the element, a number, as property. *)
Definition elements (h : heap) (doc : value) (key : string) : list JsonPathMatch :=
  match doc with
  | VRef l =>
      match h !! l with
      | Some (Obj fields) =>
          match fields !! key with
          | Some (VRef la) =>
              match h !! la with
              | Some (Arr elems _) =>
                  imap (fun i v => {| parent := Some la;
                                      parentProperty := Some (PKNum (Z.of_nat i));
                                      matched := v |}) elems
              | _ => []
              end
          | _ => []
          end
      | _ => []
      end
  | _ => []
  end.

(** [$.a[*]], and the child paths of [Demo.childPath]. *)
Definition starPath (h : heap) (doc : value) (path : string)
  : result (list JsonPathMatch) :=
  if String.eqb path "$.a[*]" then Ok (elements h doc "a")
  else Demo.childPath h doc path.

Definition env : Env :=
  {| fetch := Demo.offline;
     readdir := Demo.noDirectory;
     readFile := Demo.noFile;
     JSON_parse := Demo.noParser;
     yaml_load := Demo.noParser;
     JSONPath := starPath;
     join := fun a b => a +:+ "/" +:+ b;
     OVERLAYS_ROOT_DIR := "overlays" |}.


End Wildcard.

(** * Properties *)

Lemma trimEnd_all_white (s : string) :
  all_white s = true -> trimEnd s = EmptyString.
Proof.
  induction s as [|a r IH]; simpl; [reflexivity|].
  intros H. apply andb_prop in H as [Ha Hr].
  rewrite (IH Hr), Ha. reflexivity.
Qed.

Lemma trimStart_all_white (s : string) :
  all_white s = true -> trimStart s = EmptyString.
Proof.
  induction s as [|a r IH]; simpl; [reflexivity|].
  intros H. apply andb_prop in H as [Ha Hr].
  rewrite Ha. exact (IH Hr).
Qed.

Lemma trim_all_white (s : string) :
  all_white s = true -> trim s = EmptyString.
Proof.
  intros H. unfold trim. rewrite (trimStart_all_white s H). reflexivity.
Qed.

Lemma trimEnd_empty_all_white (s : string) :
  trimEnd s = EmptyString -> all_white s = true.
Proof.
  induction s as [|a r IH]; simpl; [reflexivity|].
  destruct (is_white a) eqn:Ha; simpl; [|discriminate].
  destruct (trimEnd r) eqn:Hr; simpl; [|discriminate].
  intros _. apply IH. reflexivity.
Qed.

Lemma trimStart_white_suffix (s : string) :
  all_white (trimStart s) = true -> all_white s = true.
Proof.
  induction s as [|a r IH]; simpl; [reflexivity|].
  destruct (is_white a) eqn:Ha; simpl.
  - exact IH.
  - rewrite Ha. discriminate.
Qed.

Lemma trim_empty_iff (s : string) :
  trim s = EmptyString <-> all_white s = true.
Proof.
  split; [|apply trim_all_white].
  unfold trim. intros H.
  apply trimStart_white_suffix, trimEnd_empty_all_white, H.
Qed.

(** C9: chain-id normalisation maps "1" to "1" and "0xaa36a7" to
    "11155111"; an input that [BigInt] cannot convert comes back as its
    trimmed text; an empty or all-white-space input is the error
    "Chain ID string cannot be empty". *)
Theorem normalizeChainId_spec :
  normalizeChainId "1" = Ok "1" /\
  normalizeChainId "0xaa36a7" = Ok "11155111" /\
  (forall value : string,
      all_white value = false ->
      StringToBigInt (trim value) = None ->
      normalizeChainId value = Ok (trim value)) /\
  (forall value : string,
      all_white value = true -> normalizeChainId value = Err EmptyChainId).
Proof.
  split; [reflexivity|]. split; [reflexivity|]. split.
  - intros value Hw Hn. unfold normalizeChainId.
    destruct (trim value) eqn:Ht.
    + apply trim_empty_iff in Ht. congruence.
    + simpl. rewrite <- Ht in *. rewrite Hn. reflexivity.
  - intros value Hw. unfold normalizeChainId.
    rewrite (trim_all_white value Hw). reflexivity.
Qed.

Lemma normalizeChainId_spec_witness :
  normalizeChainId " sepolia " = Ok "sepolia" /\
  normalizeChainId "   " = Err EmptyChainId.
Proof.
  split.
  - apply (proj1 (proj2 (proj2 normalizeChainId_spec)) " sepolia "); reflexivity.
  - apply (proj2 (proj2 (proj2 normalizeChainId_spec)) "   "); reflexivity.
Defined.

(** ** The monad *)

Lemma bind_ok {S A B : Type} (m : M S A) (k : A -> M S B) (s s' : S) (a : A) :
  m s = (Ok a, s') -> bind m k s = k a s'.
Proof. intros H. unfold bind. rewrite H. reflexivity. Qed.

Lemma bind_err {S A B : Type} (m : M S A) (k : A -> M S B) (s s' : S) (e : exn) :
  m s = (Err e, s') -> bind m k s = (Err e, s').
Proof. intros H. unfold bind. rewrite H. reflexivity. Qed.

(** ** The JSON-RPC client *)

Section RpcFacts.

Variable E : Env.

(** Every call sends exactly one request, whatever comes back. *)
Lemma jsonRpcRequest_sent (rpcUrl method : string) (params : list json) (n : Net) :
  snd (jsonRpcRequest E rpcUrl method params n)
  = sent {| req_url := rpcUrl; req_method := method; req_params := params |} n.
Proof.
  unfold jsonRpcRequest, bind, post, throw, lift, ret.
  destruct (fetch E (trace n) _) as [reason|response]; [reflexivity|].
  destruct (resp_ok response); simpl; [|reflexivity].
  destruct (resp_body response) as [payload|]; simpl; [|reflexivity].
  destruct (jprop payload "error") as [error|e]; simpl; [|reflexivity].
  destruct (truthy error); simpl; [reflexivity|].
  destruct (jprop payload "result") as [[r|]|e]; reflexivity.
Qed.

Lemma jsonRpcRequest_eq (rpcUrl method : string) (params : list json) (n : Net) r :
  fst (jsonRpcRequest E rpcUrl method params n) = r ->
  jsonRpcRequest E rpcUrl method params n
  = (r, sent {| req_url := rpcUrl; req_method := method; req_params := params |} n).
Proof.
  intros H. rewrite <- H, <- jsonRpcRequest_sent. apply surjective_pairing.
Qed.

End RpcFacts.

(** C10: a 2xx response whose body has neither an [error] nor a [result]
    property makes [jsonRpcRequest] throw: "missing result" for a body
    that is not [null], the [TypeError] of reading a property of [null]
    otherwise. *)
Theorem jsonRpcRequest_requires_result
    (E : Env) (rpcUrl method : string) (params : list json) (n : Net)
    (response : Response) (payload : json) :
  fetch E (trace n) {| req_url := rpcUrl; req_method := method; req_params := params |}
    = Responded response ->
  resp_ok response = true ->
  resp_body response = Some payload ->
  jprop_opt payload "error" = None ->
  jprop_opt payload "result" = None ->
  fst (jsonRpcRequest E rpcUrl method params n)
  = Err (match payload with
         | JNull => TypeError "Cannot read properties of null"
         | _ => RpcMissingResult rpcUrl method
         end).
Proof.
  intros Hf Hok Hb He Hr.
  unfold jsonRpcRequest, bind, post. rewrite Hf, Hok. simpl. rewrite Hb.
  destruct payload; simpl in *; try reflexivity.
  rewrite He. simpl. rewrite Hr. reflexivity.
Qed.

Lemma jsonRpcRequest_requires_result_witness :
  fst (jsonRpcRequest Demo.hollow "https://rpc.example" "eth_chainId" [] Demo.net0)
  = Err (RpcMissingResult "https://rpc.example" "eth_chainId").
Proof.
  apply (jsonRpcRequest_requires_result Demo.hollow "https://rpc.example" "eth_chainId" []
           Demo.net0
           {| resp_ok := true; resp_status := 200; resp_statusText := "OK";
              resp_body := Some (JObj [("jsonrpc", JStr "2.0"); ("id", JNum 1)]) |}
           (JObj [("jsonrpc", JStr "2.0"); ("id", JNum 1)]));
    reflexivity.
Defined.

(** ** The block-with-transactions search *)

Lemma hasTransactions_object (b : json) :
  hasTransactions b = true ->
  truthy (Some b) = true /\ jprop b "number" = Ok (jprop_opt b "number").
Proof.
  unfold hasTransactions. destruct b; simpl; try discriminate. auto.
Qed.

Lemma walkRequests_S (rpcUrl : string) (start : Z) (count : nat) :
  walkRequests rpcUrl start (S count)
  = blockRequest rpcUrl start :: walkRequests rpcUrl (start - 1) count.
Proof.
  unfold walkRequests. rewrite <- cons_seq, <- seq_shift. simpl.
  rewrite map_map. f_equal.
  - f_equal. lia.
  - apply map_ext. intros j. f_equal. lia.
Qed.

Section BlockSearch.

Variables (E : Env) (rpcUrl : string) (feed : Z -> json).

Lemma getBlock_answer (lo hi current : Z) (n : Net) :
  blocksAnswer E rpcUrl feed lo hi -> lo <= current <= hi ->
  jsonRpcRequest E rpcUrl "eth_getBlockByNumber"
    [JStr ("0x" +:+ toString16 current); JBool false] n
  = (Ok (feed current), sent (blockRequest rpcUrl current) n).
Proof.
  intros H Hc. apply jsonRpcRequest_eq, H, Hc.
Qed.

Lemma findBlockLoop_found (k : nat) :
  forall (attempts : nat) (current : Z) (n : Net),
    (k < attempts)%nat ->
    Z.of_nat k <= current ->
    blocksAnswer E rpcUrl feed (current - Z.of_nat k) current ->
    (forall j : nat, (j < k)%nat -> hasTransactions (feed (current - Z.of_nat j)) = false) ->
    hasTransactions (feed (current - Z.of_nat k)) = true ->
    findBlockLoop E rpcUrl attempts current n
    = (Ok (Some {| number := nullish (jprop_opt (feed (current - Z.of_nat k)) "number")
                               (JStr ("0x" +:+ toString16 (current - Z.of_nat k)));
                   block := feed (current - Z.of_nat k) |}),
       {| trace := trace n ++ walkRequests rpcUrl current (S k);
          warnings := warnings n |}).
Proof.
  induction k as [|k IH]; intros attempts current n Hlt Hk Hans Hempty Hhit.
  - destruct attempts as [|attempts]; [lia|].
    replace (current - Z.of_nat 0) with current in * by lia.
    cbn [findBlockLoop].
    destruct (Z.ltb_spec current 0) as [?|_]; [lia|].
    erewrite bind_ok by (eapply getBlock_answer; [exact Hans|lia]).
    destruct (hasTransactions_object _ Hhit) as [Ht Hn].
    fold (hasTransactions (feed current)). rewrite Ht, Hhit. cbn [andb].
    unfold bind, lift, ret. rewrite Hn, walkRequests_S. reflexivity.
  - destruct attempts as [|attempts]; [lia|].
    cbn [findBlockLoop].
    destruct (Z.ltb_spec current 0) as [?|_]; [lia|].
    erewrite bind_ok by (eapply getBlock_answer; [exact Hans|lia]).
    fold (hasTransactions (feed current)).
    specialize (Hempty 0%nat ltac:(lia)) as H0.
    replace (current - Z.of_nat 0) with current in H0 by lia.
    rewrite H0, andb_false_r.
    replace (current - Z.of_nat (S k)) with (current - 1 - Z.of_nat k) in * by lia.
    rewrite (IH attempts (current - 1)); try lia; try assumption.
    + unfold sent. cbn [trace warnings]. rewrite <- app_assoc.
      rewrite (walkRequests_S rpcUrl current (S k)). reflexivity.
    + intros m c Hc. apply Hans. lia.
    + intros j Hj. specialize (Hempty (S j) ltac:(lia)).
      replace (current - 1 - Z.of_nat j) with (current - Z.of_nat (S j)) by lia.
      exact Hempty.
Qed.

Lemma findBlockLoop_exhausted (attempts : nat) :
  forall (current : Z) (n : Net),
    blocksAnswer E rpcUrl feed (Z.max 0 (current - Z.of_nat attempts + 1)) current ->
    (forall j : nat, (j < attempts)%nat -> Z.of_nat j <= current ->
                     hasTransactions (feed (current - Z.of_nat j)) = false) ->
    fst (findBlockLoop E rpcUrl attempts current n) = Ok None.
Proof.
  induction attempts as [|attempts IH]; intros current n Hans Hempty; [reflexivity|].
  cbn [findBlockLoop].
  destruct (Z.ltb_spec current 0) as [?|Hc]; [reflexivity|].
  erewrite bind_ok by (eapply getBlock_answer; [exact Hans|lia]).
  fold (hasTransactions (feed current)).
  specialize (Hempty 0%nat ltac:(lia) ltac:(lia)) as H0.
  replace (current - Z.of_nat 0) with current in H0 by lia.
  rewrite H0, andb_false_r.
  apply IH.
  - intros m c Hm. apply Hans. lia.
  - intros j Hj Hle. specialize (Hempty (S j) ltac:(lia) ltac:(lia)).
    replace (current - 1 - Z.of_nat j) with (current - Z.of_nat (S j)) by lia.
    exact Hempty.
Qed.

(** The loop sends at most one request per attempt, whatever the
    endpoint answers. *)
Lemma findBlockLoop_bound (attempts : nat) :
  forall (current : Z) (n : Net),
    (length (trace (snd (findBlockLoop E rpcUrl attempts current n)))
     <= length (trace n) + attempts)%nat.
Proof.
  induction attempts as [|attempts IH]; intros current n; [simpl; lia|].
  cbn [findBlockLoop].
  destruct (current <? 0); [simpl; lia|].
  unfold bind at 1.
  rewrite (jsonRpcRequest_eq E _ _ _ n _ eq_refl).
  destruct (fst (jsonRpcRequest E rpcUrl "eth_getBlockByNumber" _ n)) as [b|e].
  - destruct (truthy (Some b) && _).
    + unfold bind, lift, ret. destruct (jprop b "number");
        cbn [snd sent trace]; rewrite length_app; simpl; lia.
    + etransitivity; [apply IH|]. cbn [sent trace]. rewrite length_app. simpl. lia.
  - cbn [snd sent trace]. rewrite length_app. simpl. lia.
Qed.

End BlockSearch.

Lemma extractTransactionHash_first (block : json) (skipped rest : list json) (hash : string) :
  jprop_opt block "transactions" = Some (JArr (skipped ++ JStr hash :: rest)) ->
  forallb (fun tx => negb (is_string tx)) skipped = true ->
  extractTransactionHash block = Ok hash.
Proof.
  intros Ht Hs. unfold extractTransactionHash.
  destruct block; simpl in Ht; try discriminate.
  simpl. rewrite Ht. simpl. clear Ht.
  induction skipped as [|x skipped IH]; simpl in *; [reflexivity|].
  apply andb_prop in Hs as [Hx Hs].
  destruct (is_string x); [discriminate|]. apply IH; assumption.
Qed.

(** The sample transaction of a network context is the first hash of
    the block the search returned. *)
Lemma buildNetworkContext_sample
    (E : Env) (config : BlockOverlayConfig) (n0 n1 : Net) (ctx : NetworkContext) :
  buildNetworkContext E config n0 = (Ok ctx, n1) ->
  extractTransactionHash (ctx_block ctx) = Ok (ctx_txHash ctx)
  /\ exists (headBlock : json) (n n' : Net),
       findBlockWithTransactions E (cfg_rpcUrl config) headBlock n
       = (Ok {| number := ctx_blockNumber ctx; block := ctx_block ctx |}, n').
Proof.
  unfold buildNetworkContext. cbv zeta. intros Hrun.
  unfold bind at 1 in Hrun.
  destruct (jsonRpcRequest E (cfg_rpcUrl config) "eth_chainId" [] n0)
    as [[rawChainId|e] n2]; [|discriminate].
  unfold bind at 1 in Hrun. unfold lift at 1 in Hrun.
  destruct (normalizeChainIdOf rawChainId) as [chainId|e]; [|discriminate].
  unfold bind at 1 in Hrun.
  match type of Hrun with
  | (let (_, _) := ?head n2 in _) = _ => destruct (head n2) as [[headBlock|e] n3]
  end; [|discriminate].
  unfold bind at 1 in Hrun.
  destruct (findBlockWithTransactions E (cfg_rpcUrl config) headBlock n3)
    as [[[num blk]|e] n4] eqn:Hfind; [|discriminate].
  cbn [block number] in Hrun.
  unfold bind at 1 in Hrun. unfold lift at 1 in Hrun.
  destruct (jprop blk "hash") as [[[| | |blockHash| |]|]|e]; try discriminate.
  unfold bind at 1 in Hrun. unfold lift at 1 in Hrun.
  destruct (extractTransactionHash blk) as [txHash|e] eqn:Htx; [|discriminate].
  unfold bind at 1 in Hrun.
  destruct (jsonRpcRequest E (cfg_rpcUrl config) "eth_getTransactionByHash" _ n4)
    as [[sampleTx|e] n5]; [|discriminate].
  unfold bind at 1 in Hrun.
  destruct (findLogsCandidate E (cfg_rpcUrl config) blk num n5) as [[found|e] n6];
    [|discriminate].
  inversion Hrun; subst. cbn [ctx_block ctx_txHash ctx_blockNumber].
  split; [exact Htx|]. exists headBlock, n3, n4. exact Hfind.
Qed.

(** C7: from every starting height the search asks for one block after
    the other, walking down by one, at most 64 times; it returns the
    first block met whose transaction list is non-empty, and the first
    hash listed in that block is what [extractTransactionHash] designates
    and what a network context carries as its sample transaction; when
    none of the blocks of the walk has transactions the search throws
    "Failed to find block with transactions". *)
Theorem findBlockWithTransactions_spec
    (E : Env) (rpcUrl : string) (feed : Z -> json)
    (startBlock : json) (start : Z) (n : Net) :
  hexToBigInt startBlock = Ok start ->
  blocksAnswer E rpcUrl feed (Z.max 0 (start - 63)) start ->
  (forall k : nat,
      (k < 64)%nat -> Z.of_nat k <= start ->
      (forall j : nat, (j < k)%nat -> hasTransactions (feed (start - Z.of_nat j)) = false) ->
      hasTransactions (feed (start - Z.of_nat k)) = true ->
      findBlockWithTransactions E rpcUrl startBlock n
      = (Ok {| number := nullish (jprop_opt (feed (start - Z.of_nat k)) "number")
                           (JStr ("0x" +:+ toString16 (start - Z.of_nat k)));
               block := feed (start - Z.of_nat k) |},
         {| trace := trace n ++ walkRequests rpcUrl start (S k);
            warnings := warnings n |})
      /\ (forall (skipped rest : list json) (hash : string),
             jprop_opt (feed (start - Z.of_nat k)) "transactions"
               = Some (JArr (skipped ++ JStr hash :: rest)) ->
             forallb (fun tx => negb (is_string tx)) skipped = true ->
             extractTransactionHash (feed (start - Z.of_nat k)) = Ok hash))
  /\ ((forall j : nat,
          (j < 64)%nat -> Z.of_nat j <= start ->
          hasTransactions (feed (start - Z.of_nat j)) = false) ->
      fst (findBlockWithTransactions E rpcUrl startBlock n)
      = Err (NoBlockWithTransactions startBlock rpcUrl))
  /\ (length (trace (snd (findBlockWithTransactions E rpcUrl startBlock n)))
      <= length (trace n) + 64)%nat
  /\ (forall (config : BlockOverlayConfig) (n0 n1 : Net) (ctx : NetworkContext),
         buildNetworkContext E config n0 = (Ok ctx, n1) ->
         extractTransactionHash (ctx_block ctx) = Ok (ctx_txHash ctx)).
Proof.
  intros Hstart Hans.
  split; [|split; [|split]];
    [| | |intros config n0 n1 ctx Hctx;
          exact (proj1 (buildNetworkContext_sample E config n0 n1 ctx Hctx))];
    unfold findBlockWithTransactions;
    rewrite (bind_ok _ _ n n start) by (unfold lift; rewrite Hstart; reflexivity).
  - intros k Hk Hle Hempty Hhit. split.
    + rewrite (bind_ok _ _ _ _ _
                 (findBlockLoop_found E rpcUrl feed k 64 start n Hk Hle
                    ltac:(intros m c Hc; apply Hans; lia) Hempty Hhit)).
      reflexivity.
    + intros skipped rest hash. apply extractTransactionHash_first.
  - intros Hempty.
    pose proof (findBlockLoop_exhausted E rpcUrl feed 64 start n) as Hx.
    unfold bind. destruct (findBlockLoop E rpcUrl 64 start n) as [r n'].
    simpl in Hx. rewrite Hx; [reflexivity| |assumption].
    intros m c Hc. apply Hans. lia.
  - pose proof (findBlockLoop_bound E rpcUrl 64 start n) as Hb.
    unfold bind. destruct (findBlockLoop E rpcUrl 64 start n) as [[[c|]|e] n'];
      simpl in *; exact Hb.
Qed.

Lemma sixBlocks_answer (lo : Z) :
  0 <= lo -> blocksAnswer Demo.sixBlockChain "https://rpc.example" Demo.sixBlocks lo 5.
Proof.
  intros Hlo n current Hc.
  assert (H : current = 0 \/ current = 1 \/ current = 2 \/ current = 3
              \/ current = 4 \/ current = 5) by lia.
  destruct H as [->|[->|[->|[->|[->| ->]]]]]; reflexivity.
Defined.

Lemma findBlockWithTransactions_spec_witness :
  findBlockWithTransactions Demo.sixBlockChain "https://rpc.example" (JStr "0x5") Demo.net0
  = (Ok {| number := JStr "0x2"; block := Demo.sixBlocks 2 |},
     {| trace := walkRequests "https://rpc.example" 5 4; warnings := [] |})
  /\ extractTransactionHash (Demo.sixBlocks 2) = Ok "0xaaa".
Proof.
  destruct (findBlockWithTransactions_spec Demo.sixBlockChain "https://rpc.example"
              Demo.sixBlocks (JStr "0x5") 5 Demo.net0 eq_refl
              (sixBlocks_answer (Z.max 0 (5 - 63)) ltac:(lia))) as [Hfound _].
  destruct (Hfound 3%nat ltac:(lia) ltac:(lia)) as [Hrun Hhash].
  - intros j Hj.
    assert (H : j = 0%nat \/ j = 1%nat \/ j = 2%nat) by lia.
    destruct H as [->|[->| ->]]; reflexivity.
  - reflexivity.
  - split; [exact Hrun|].
    apply (Hhash [] [JStr "0xbbb"] "0xaaa"); reflexivity.
Defined.

(** ** The logs search *)

Section LogsSearch.

Variables (E : Env) (rpcUrl : string).

(** [safeGetLogs] in one equation: it always returns, with the entries
    of an array answer and with no entry for anything else, a thrown
    error included. *)
Lemma safeGetLogs_eq (filter : json) (n : Net) :
  safeGetLogs E rpcUrl filter n
  = (Ok match fst (jsonRpcRequest E rpcUrl "eth_getLogs" [filter] n) with
        | Ok (JArr items) => items
        | _ => []
        end,
     sent (logsRequest rpcUrl filter) n).
Proof.
  unfold safeGetLogs, try_catch, bind, ret.
  rewrite (jsonRpcRequest_eq E _ _ _ n _ eq_refl).
  destruct (fst (jsonRpcRequest E rpcUrl "eth_getLogs" [filter] n)) as [[]|e];
    reflexivity.
Qed.

Lemma blockRequests_logs (filter : json) (n : Net) :
  blockRequests (sent (logsRequest rpcUrl filter) n) = blockRequests n.
Proof.
  unfold blockRequests, sent. cbn [trace]. rewrite List.filter_app, length_app.
  simpl. lia.
Qed.

Lemma blockRequests_block (current : Z) (n : Net) :
  blockRequests (sent (blockRequest rpcUrl current) n) = S (blockRequests n).
Proof.
  unfold blockRequests, sent. cbn [trace]. rewrite List.filter_app, length_app.
  simpl. lia.
Qed.

Lemma truthy_property (b : json) (k k' : string) :
  truthy (jprop_opt b k) = true -> jprop b k' = Ok (jprop_opt b k').
Proof. destruct b; simpl; try discriminate. reflexivity. Qed.

Lemma findLogsLoop_blockRequests (attempts : nat) :
  forall (current : Z) (n : Net),
    (blockRequests (snd (findLogsLoop E rpcUrl attempts current n))
     <= blockRequests n + attempts)%nat.
Proof.
  induction attempts as [|attempts IH]; intros current n; [simpl; lia|].
  cbn [findLogsLoop].
  destruct (current <? 0); [simpl; lia|].
  unfold bind at 1.
  rewrite (jsonRpcRequest_eq E _ _ _ n _ eq_refl).
  fold (blockRequest rpcUrl current).
  destruct (fst (jsonRpcRequest E rpcUrl "eth_getBlockByNumber" _ n)) as [b|e].
  - destruct (truthy (jprop_opt b "hash")) eqn:Hh; cbn [negb].
    + unfold bind at 1. rewrite safeGetLogs_eq.
      match goal with |- context [is_nil ?l] => destruct (is_nil l) end; cbn [negb].
      * etransitivity; [apply IH|].
        rewrite blockRequests_logs, blockRequests_block. lia.
      * unfold bind, lift, ret. rewrite (truthy_property b "hash" "number" Hh).
        cbn [snd]. rewrite blockRequests_logs, blockRequests_block. lia.
    + etransitivity; [apply IH|]. rewrite blockRequests_block. lia.
  - cbn [snd]. rewrite blockRequests_block. lia.
Qed.

(** The loop only adds requests to those already sent. *)
Lemma findLogsLoop_extends (attempts : nat) :
  forall (current : Z) (n : Net),
    exists rest,
      trace (snd (findLogsLoop E rpcUrl attempts current n)) = trace n ++ rest.
Proof.
  induction attempts as [|attempts IH]; intros current n.
  { exists []. simpl. rewrite app_nil_r. reflexivity. }
  cbn [findLogsLoop]. destruct (current <? 0).
  { exists []. simpl. rewrite app_nil_r. reflexivity. }
  unfold bind at 1. rewrite (jsonRpcRequest_eq E _ _ _ n _ eq_refl).
  fold (blockRequest rpcUrl current).
  destruct (fst (jsonRpcRequest E rpcUrl "eth_getBlockByNumber" _ n)) as [b|e];
    [|cbn [snd sent trace]; eexists; reflexivity].
  destruct (truthy (jprop_opt b "hash")) eqn:Hh; cbn [negb].
  - unfold bind at 1. rewrite safeGetLogs_eq.
    match goal with |- context [is_nil ?l] => destruct (is_nil l) end; cbn [negb].
    + match goal with |- context [findLogsLoop E rpcUrl attempts _ ?m] =>
        destruct (IH (current - 1) m) as [rest Hrest] end.
      rewrite Hrest. cbn [sent trace]. rewrite <- !app_assoc. eexists; reflexivity.
    + unfold bind, lift, ret. rewrite (truthy_property b "hash" "number" Hh).
      cbn [snd sent trace]. rewrite <- !app_assoc. eexists; reflexivity.
  - match goal with |- context [findLogsLoop E rpcUrl attempts _ ?m] =>
      destruct (IH (current - 1) m) as [rest Hrest] end.
    rewrite Hrest. cbn [sent trace]. rewrite <- !app_assoc. eexists; reflexivity.
Qed.

Lemma safeGetLogs_answer (logsOf : json -> list json) (filter : json) (n : Net) :
  logsAnswer E rpcUrl logsOf ->
  safeGetLogs E rpcUrl filter n = (Ok (logsOf filter), sent (logsRequest rpcUrl filter) n).
Proof.
  intros H. specialize (H filter n). rewrite safeGetLogs_eq in *. cbn [fst] in H.
  inversion H as [H1]. rewrite H1. reflexivity.
Qed.

Variable feed : Z -> json.

Lemma findLogsLoop_returns (attempts : nat) :
  forall (current : Z) (n : Net),
    blocksAnswer E rpcUrl feed (Z.max 0 (current - Z.of_nat attempts + 1)) current ->
    exists ctx, fst (findLogsLoop E rpcUrl attempts current n) = Ok ctx.
Proof.
  induction attempts as [|attempts IH]; intros current n Hans; [eexists; reflexivity|].
  cbn [findLogsLoop].
  destruct (Z.ltb_spec current 0) as [?|Hc]; [eexists; reflexivity|].
  erewrite bind_ok by (eapply getBlock_answer; [exact Hans|lia]).
  assert (Hnext : forall m, exists ctx,
             fst (findLogsLoop E rpcUrl attempts (current - 1) m) = Ok ctx).
  { intros m. apply IH. intros m' c Hm. apply Hans. lia. }
  destruct (truthy (jprop_opt (feed current) "hash")) eqn:Hh; cbn [negb]; [|apply Hnext].
  erewrite bind_ok by apply safeGetLogs_eq.
  match goal with |- context [is_nil ?l] => destruct (is_nil l) end; cbn [negb];
    [apply Hnext|].
  unfold bind, lift, ret. rewrite (truthy_property _ "hash" "number" Hh).
  eexists; reflexivity.
Qed.

Lemma noLogs_empty (filter : json) (n : Net) :
  noLogs E rpcUrl ->
  match fst (jsonRpcRequest E rpcUrl "eth_getLogs" [filter] n) with
  | Ok (JArr items) => items
  | _ => []
  end = [].
Proof.
  intros H. specialize (H filter n).
  destruct (fst (jsonRpcRequest E rpcUrl "eth_getLogs" [filter] n)) as [[| | | |[|x l]|]|e];
    try reflexivity. contradiction.
Qed.

Lemma findLogsLoop_nothing (attempts : nat) :
  forall (current : Z) (n : Net),
    blocksAnswer E rpcUrl feed (Z.max 0 (current - Z.of_nat attempts + 1)) current ->
    noLogs E rpcUrl ->
    fst (findLogsLoop E rpcUrl attempts current n) = Ok None.
Proof.
  induction attempts as [|attempts IH]; intros current n Hans Hno; [reflexivity|].
  cbn [findLogsLoop].
  destruct (Z.ltb_spec current 0) as [?|Hc]; [reflexivity|].
  erewrite bind_ok by (eapply getBlock_answer; [exact Hans|lia]).
  assert (Hnext : forall m, fst (findLogsLoop E rpcUrl attempts (current - 1) m) = Ok None).
  { intros m. apply IH; [|exact Hno]. intros m' c Hm. apply Hans. lia. }
  destruct (truthy (jprop_opt (feed current) "hash")); cbn [negb]; [|apply Hnext].
  erewrite bind_ok by apply safeGetLogs_eq.
  rewrite noLogs_empty by exact Hno. cbn [is_nil negb]. apply Hnext.
Qed.

Variable logsOf : json -> list json.

Lemma logsWalk_S (current : Z) (count : nat) :
  logsWalk rpcUrl feed current (S count)
  = logsStep rpcUrl feed current ++ logsWalk rpcUrl feed (current - 1) count.
Proof.
  unfold logsWalk. rewrite <- cons_seq, <- seq_shift. cbn [flat_map].
  replace (current - Z.of_nat 0) with current by lia. f_equal.
  rewrite flat_map_concat_map, map_map, <- flat_map_concat_map.
  apply flat_map_ext. intros j. f_equal. lia.
Qed.

Lemma sentAll_nil (n : Net) : sentAll [] n = n.
Proof. destruct n. unfold sentAll. cbn [trace warnings]. rewrite app_nil_r. reflexivity. Qed.

Lemma sentAll_app (first second : list Request) (n : Net) :
  sentAll second (sentAll first n) = sentAll (first ++ second) n.
Proof. unfold sentAll. cbn [trace warnings]. rewrite app_assoc. reflexivity. Qed.

(** One turn of the loop on an answered block: the walk goes on when
    the block yields no logs, and ends with its context otherwise. *)
Lemma findLogsLoop_step (attempts : nat) (current lo hi : Z) (n : Net) :
  0 <= current ->
  blocksAnswer E rpcUrl feed lo hi -> lo <= current <= hi ->
  logsAnswer E rpcUrl logsOf ->
  findLogsLoop E rpcUrl (S attempts) current n
  = match blockLogs logsOf (feed current) with
    | [] =>
        findLogsLoop E rpcUrl attempts (current - 1)
          (sentAll (logsStep rpcUrl feed current) n)
    | _ :: _ =>
        (Ok (Some {| blockNumber :=
                       nullish (jprop_opt (feed current) "number")
                         (JStr ("0x" +:+ toString16 current));
                     request := hashFilter (feed current);
                     logs := blockLogs logsOf (feed current) |}),
         sentAll (logsStep rpcUrl feed current) n)
    end.
Proof.
  intros Hc Hans Hin Hlogs. cbn [findLogsLoop].
  destruct (Z.ltb_spec current 0) as [?|_]; [lia|].
  erewrite bind_ok by (eapply getBlock_answer; [exact Hans|exact Hin]).
  unfold blockLogs, logsStep.
  destruct (truthy (jprop_opt (feed current) "hash")) eqn:Hh; cbn [negb];
    [|reflexivity].
  fold (hashFilter (feed current)).
  erewrite bind_ok by (apply safeGetLogs_answer, Hlogs).
  assert (Hstate : sent (logsRequest rpcUrl (hashFilter (feed current)))
                     (sent (blockRequest rpcUrl current) n)
                   = sentAll [blockRequest rpcUrl current;
                              logsRequest rpcUrl (hashFilter (feed current))] n).
  { unfold sent, sentAll. cbn [trace warnings]. rewrite <- app_assoc. reflexivity. }
  rewrite Hstate.
  destruct (logsOf (hashFilter (feed current))) as [|entry entries];
    cbn [is_nil negb]; [reflexivity|].
  unfold bind, lift, ret. rewrite (truthy_property _ "hash" "number" Hh). reflexivity.
Qed.

(** The walk that finds logs, with every request it sends. *)
Lemma findLogsLoop_walk_found (k : nat) :
  forall (attempts : nat) (current : Z) (n : Net),
    (k < attempts)%nat ->
    Z.of_nat k <= current ->
    blocksAnswer E rpcUrl feed (current - Z.of_nat k) current ->
    logsAnswer E rpcUrl logsOf ->
    (forall j : nat, (j < k)%nat -> blockLogs logsOf (feed (current - Z.of_nat j)) = []) ->
    blockLogs logsOf (feed (current - Z.of_nat k)) <> [] ->
    findLogsLoop E rpcUrl attempts current n
    = (Ok (Some {| blockNumber :=
                     nullish (jprop_opt (feed (current - Z.of_nat k)) "number")
                       (JStr ("0x" +:+ toString16 (current - Z.of_nat k)));
                   request := hashFilter (feed (current - Z.of_nat k));
                   logs := blockLogs logsOf (feed (current - Z.of_nat k)) |}),
       sentAll (logsWalk rpcUrl feed current (S k)) n).
Proof.
  induction k as [|k IH]; intros attempts current n Hlt Hk Hans Hlogs Hempty Hhit.
  - destruct attempts as [|attempts]; [lia|].
    replace (current - Z.of_nat 0) with current in * by lia.
    rewrite (findLogsLoop_step attempts current current current n)
      by (try assumption; lia).
    rewrite logsWalk_S. unfold logsWalk at 1. cbn [seq flat_map]. rewrite app_nil_r.
    destruct (blockLogs logsOf (feed current)); [contradiction|reflexivity].
  - destruct attempts as [|attempts]; [lia|].
    rewrite (findLogsLoop_step attempts current (current - Z.of_nat (S k)) current n)
      by (try assumption; lia).
    specialize (Hempty 0%nat ltac:(lia)) as H0.
    replace (current - Z.of_nat 0) with current in H0 by lia. rewrite H0.
    replace (current - Z.of_nat (S k)) with (current - 1 - Z.of_nat k) in * by lia.
    rewrite (IH attempts (current - 1)); try lia; try assumption.
    + rewrite sentAll_app, <- logsWalk_S. reflexivity.
    + intros m c Hc. apply Hans. lia.
    + intros j Hj. specialize (Hempty (S j) ltac:(lia)).
      replace (current - 1 - Z.of_nat j) with (current - Z.of_nat (S j)) by lia.
      exact Hempty.
Qed.

(** The walk that finds nothing, with every request it sends: it asks
    for [attempts] blocks, or for the blocks down to height 0 when there
    are fewer. *)
Lemma findLogsLoop_walk_nothing (attempts : nat) :
  forall (current : Z) (n : Net),
    blocksAnswer E rpcUrl feed (Z.max 0 (current - Z.of_nat attempts + 1)) current ->
    logsAnswer E rpcUrl logsOf ->
    (forall j : nat,
        (j < attempts)%nat -> Z.of_nat j <= current ->
        blockLogs logsOf (feed (current - Z.of_nat j)) = []) ->
    findLogsLoop E rpcUrl attempts current n
    = (Ok None,
       sentAll (logsWalk rpcUrl feed current (Nat.min attempts (Z.to_nat (current + 1)))) n).
Proof.
  induction attempts as [|attempts IH]; intros current n Hans Hlogs Hempty.
  - cbn [findLogsLoop Nat.min]. unfold logsWalk. cbn [seq flat_map].
    rewrite sentAll_nil. reflexivity.
  - destruct (Z.ltb_spec current 0) as [Hneg|Hc].
    + cbn [findLogsLoop]. destruct (Z.ltb_spec current 0) as [_|?]; [|lia].
      replace (Z.to_nat (current + 1)) with 0%nat by lia.
      rewrite Nat.min_0_r. unfold logsWalk. cbn [seq flat_map].
      rewrite sentAll_nil. reflexivity.
    + rewrite (findLogsLoop_step attempts current
                 (Z.max 0 (current - Z.of_nat (S attempts) + 1)) current n)
        by (try assumption; lia).
      specialize (Hempty 0%nat ltac:(lia) ltac:(lia)) as H0.
      replace (current - Z.of_nat 0) with current in H0 by lia. rewrite H0.
      rewrite IH; try assumption.
      * rewrite sentAll_app.
        replace (Z.to_nat (current + 1)) with (S (Z.to_nat current)) by lia.
        replace (Z.to_nat (current - 1 + 1)) with (Z.to_nat current) by lia.
        cbn [Nat.min]. rewrite <- logsWalk_S. reflexivity.
      * intros m c Hcm. apply Hans. lia.
      * intros j Hj Hle. specialize (Hempty (S j) ltac:(lia) ltac:(lia)).
        replace (current - 1 - Z.of_nat j) with (current - Z.of_nat (S j)) by lia.
        exact Hempty.
Qed.

End LogsSearch.

Lemma findLogsCandidate_bounds
    (E : Env) (rpcUrl : string) (feed : Z -> json)
    (block fallbackNumber : json) (hash : string) (start : Z) (n : Net) :
  jprop_opt block "hash" = Some (JStr hash) ->
  is_empty hash = false ->
  hexToBigInt fallbackNumber = Ok start ->
  blocksAnswer E rpcUrl feed (Z.max 0 (start - 64)) (start - 1) ->
  (exists rest,
      trace (snd (findLogsCandidate E rpcUrl block fallbackNumber n))
      = trace n ++ logsRequest rpcUrl (JObj [("blockHash", JStr hash)]) :: rest)
  /\ (blockRequests (snd (findLogsCandidate E rpcUrl block fallbackNumber n))
      <= blockRequests n + 64)%nat
  /\ (exists ctx, fst (findLogsCandidate E rpcUrl block fallbackNumber n) = Ok ctx)
  /\ (noLogs E rpcUrl ->
      fst (findLogsCandidate E rpcUrl block fallbackNumber n) = Ok None)
  /\ (forall (filter : json) (m : Net) (e : exn),
         fst (jsonRpcRequest E rpcUrl "eth_getLogs" [filter] m) = Err e ->
         safeGetLogs E rpcUrl filter m = (Ok [], sent (logsRequest rpcUrl filter) m)).
Proof.
  intros Hh Hne Hstart Hans.
  assert (Hb : jprop block "hash" = Ok (Some (JStr hash))
               /\ jprop block "number" = Ok (jprop_opt block "number")).
  { destruct block; simpl in Hh; try discriminate. simpl. rewrite Hh. auto. }
  destruct Hb as [Hb Hnum].
  unfold findLogsCandidate.
  rewrite (bind_ok _ _ n n (Some (JStr hash))) by (unfold lift; rewrite Hb; reflexivity).
  rewrite Hne.
  rewrite (bind_ok _ _ _ _ _ (safeGetLogs_eq E rpcUrl _ n)).
  set (first := match fst (jsonRpcRequest E rpcUrl "eth_getLogs" _ n) with
                | Ok (JArr items) => items
                | _ => []
                end).
  set (n1 := sent (logsRequest rpcUrl (JObj [("blockHash", JStr hash)])) n).
  assert (Hfirst : noLogs E rpcUrl -> first = []).
  { intros Hno. apply noLogs_empty, Hno. }
  assert (Hwin : blocksAnswer E rpcUrl feed
                   (Z.max 0 (start - 1 - Z.of_nat 64 + 1)) (start - 1)).
  { intros m c Hc. apply Hans. lia. }
  repeat split.
  - destruct (is_nil first); cbn [negb].
    + rewrite (bind_ok _ _ n1 n1 start) by (unfold lift; rewrite Hstart; reflexivity).
      destruct (findLogsLoop_extends E rpcUrl 64 (start - 1) n1) as [rest Hrest].
      rewrite Hrest. subst n1. cbn [sent trace]. rewrite <- app_assoc.
      eexists; reflexivity.
    + unfold bind, lift, ret. rewrite Hnum. cbn [snd]. subst n1. cbn [sent trace].
      exists []. reflexivity.
  - destruct (is_nil first); cbn [negb].
    + rewrite (bind_ok _ _ n1 n1 start) by (unfold lift; rewrite Hstart; reflexivity).
      etransitivity; [apply findLogsLoop_blockRequests|].
      subst n1. rewrite blockRequests_logs. lia.
    + unfold bind, lift, ret. rewrite Hnum. cbn [snd]. subst n1.
      rewrite blockRequests_logs. lia.
  - destruct (is_nil first); cbn [negb].
    + rewrite (bind_ok _ _ n1 n1 start) by (unfold lift; rewrite Hstart; reflexivity).
      apply findLogsLoop_returns with (feed := feed). exact Hwin.
    + unfold bind, lift, ret. rewrite Hnum. eexists; reflexivity.
  - intros Hno. rewrite (Hfirst Hno). cbn [is_nil negb].
    rewrite (bind_ok _ _ n1 n1 start) by (unfold lift; rewrite Hstart; reflexivity).
    apply findLogsLoop_nothing with (feed := feed); assumption.
  - intros filter m e He. rewrite safeGetLogs_eq, He. reflexivity.
Qed.

(** The search with every request it sends, when the logs queries come
    back with the entries [logsOf] gives (none for a query that fails). *)
Lemma findLogsCandidate_walk
    (E : Env) (rpcUrl : string) (feed : Z -> json) (logsOf : json -> list json)
    (block fallbackNumber : json) (hash : string) (start : Z) (n : Net) :
  jprop_opt block "hash" = Some (JStr hash) ->
  is_empty hash = false ->
  hexToBigInt fallbackNumber = Ok start ->
  blocksAnswer E rpcUrl feed (Z.max 0 (start - 64)) (start - 1) ->
  logsAnswer E rpcUrl logsOf ->
  (forall (filter : json) (m : Net) (e : exn),
      fst (jsonRpcRequest E rpcUrl "eth_getLogs" [filter] m) = Err e ->
      logsOf filter = [])
  /\ (logsOf (JObj [("blockHash", JStr hash)]) <> [] ->
      findLogsCandidate E rpcUrl block fallbackNumber n
      = (Ok (Some {| blockNumber := nullish (jprop_opt block "number") fallbackNumber;
                     request := JObj [("blockHash", JStr hash)];
                     logs := logsOf (JObj [("blockHash", JStr hash)]) |}),
         sent (logsRequest rpcUrl (JObj [("blockHash", JStr hash)])) n))
  /\ (logsOf (JObj [("blockHash", JStr hash)]) = [] ->
      forall k : nat,
        (k < 64)%nat -> Z.of_nat k <= start - 1 ->
        (forall j : nat,
            (j < k)%nat -> blockLogs logsOf (feed (start - 1 - Z.of_nat j)) = []) ->
        blockLogs logsOf (feed (start - 1 - Z.of_nat k)) <> [] ->
        findLogsCandidate E rpcUrl block fallbackNumber n
        = (Ok (Some {| blockNumber :=
                         nullish (jprop_opt (feed (start - 1 - Z.of_nat k)) "number")
                           (JStr ("0x" +:+ toString16 (start - 1 - Z.of_nat k)));
                       request := hashFilter (feed (start - 1 - Z.of_nat k));
                       logs := blockLogs logsOf (feed (start - 1 - Z.of_nat k)) |}),
           {| trace := trace n
                       ++ logsRequest rpcUrl (JObj [("blockHash", JStr hash)])
                          :: logsWalk rpcUrl feed (start - 1) (S k);
              warnings := warnings n |}))
  /\ (logsOf (JObj [("blockHash", JStr hash)]) = [] ->
      (forall j : nat,
          (j < 64)%nat -> Z.of_nat j <= start - 1 ->
          blockLogs logsOf (feed (start - 1 - Z.of_nat j)) = []) ->
      findLogsCandidate E rpcUrl block fallbackNumber n
      = (Ok None,
         {| trace := trace n
                     ++ logsRequest rpcUrl (JObj [("blockHash", JStr hash)])
                        :: logsWalk rpcUrl feed (start - 1) (Nat.min 64 (Z.to_nat start));
            warnings := warnings n |})).
Proof.
  intros Hh Hne Hstart Hans Hlogs.
  assert (Hb : jprop block "hash" = Ok (Some (JStr hash))
               /\ jprop block "number" = Ok (jprop_opt block "number")).
  { destruct block; simpl in Hh; try discriminate. simpl. rewrite Hh. auto. }
  destruct Hb as [Hb Hnum].
  assert (Hhead : logsOf (JObj [("blockHash", JStr hash)]) = [] ->
                  findLogsCandidate E rpcUrl block fallbackNumber n
                  = findLogsLoop E rpcUrl 64 (start - 1)
                      (sent (logsRequest rpcUrl (JObj [("blockHash", JStr hash)])) n)).
  { intros Hfirst. unfold findLogsCandidate.
    rewrite (bind_ok _ _ n n (Some (JStr hash))) by (unfold lift; rewrite Hb; reflexivity).
    rewrite Hne. erewrite bind_ok by (apply safeGetLogs_answer, Hlogs).
    rewrite Hfirst. cbn [is_nil negb].
    erewrite bind_ok by (unfold lift; rewrite Hstart; reflexivity). reflexivity. }
  assert (Hstate : forall requests : list Request,
             sentAll requests (sent (logsRequest rpcUrl (JObj [("blockHash", JStr hash)])) n)
             = {| trace := trace n
                           ++ logsRequest rpcUrl (JObj [("blockHash", JStr hash)])
                              :: requests;
                  warnings := warnings n |}).
  { intros requests. unfold sentAll, sent. cbn [trace warnings].
    rewrite <- app_assoc. reflexivity. }
  split; [|split; [|split]].
  - intros filter m e He. specialize (Hlogs filter m).
    rewrite safeGetLogs_eq, He in Hlogs. cbn [fst] in Hlogs.
    inversion Hlogs. reflexivity.
  - intros Hfirst. unfold findLogsCandidate.
    rewrite (bind_ok _ _ n n (Some (JStr hash))) by (unfold lift; rewrite Hb; reflexivity).
    rewrite Hne. erewrite bind_ok by (apply safeGetLogs_answer, Hlogs).
    destruct (logsOf (JObj [("blockHash", JStr hash)])) as [|entry entries];
      [contradiction|].
    cbn [is_nil negb]. unfold bind, lift, ret. rewrite Hnum. reflexivity.
  - intros Hfirst k Hk Hle Hempty Hhit. rewrite (Hhead Hfirst).
    rewrite (findLogsLoop_walk_found E rpcUrl feed logsOf k); try assumption.
    + rewrite Hstate. reflexivity.
    + intros m c Hc. apply Hans. lia.
  - intros Hfirst Hempty. rewrite (Hhead Hfirst).
    rewrite (findLogsLoop_walk_nothing E rpcUrl feed logsOf 64); try assumption.
    + replace (Z.to_nat (start - 1 + 1)) with (Z.to_nat start) by (f_equal; lia).
      rewrite Hstate. reflexivity.
    + intros m c Hc. apply Hans. lia.
Qed.

(** C8: for a chosen block with a hash, the logs search first asks for
    the logs of that very hash and, when they are not empty, returns
    them after that one request.  On an empty answer it walks down from
    the block below, one block after the other: for each it asks for the
    block and, when the block has a usable hash, for the logs of that
    hash; it returns the first block whose logs are not empty, with that
    block's filter and number.  It asks for at most 64 blocks; when none
    of them yields logs it ends without a logs context instead of an
    error.  A logs query that fails counts as one without entries and
    never ends the search. *)
Theorem findLogsCandidate_spec
    (E : Env) (rpcUrl : string) (feed : Z -> json)
    (block fallbackNumber : json) (hash : string) (start : Z) (n : Net) :
  jprop_opt block "hash" = Some (JStr hash) ->
  is_empty hash = false ->
  hexToBigInt fallbackNumber = Ok start ->
  blocksAnswer E rpcUrl feed (Z.max 0 (start - 64)) (start - 1) ->
  (exists rest,
      trace (snd (findLogsCandidate E rpcUrl block fallbackNumber n))
      = trace n ++ logsRequest rpcUrl (JObj [("blockHash", JStr hash)]) :: rest)
  /\ (blockRequests (snd (findLogsCandidate E rpcUrl block fallbackNumber n))
      <= blockRequests n + 64)%nat
  /\ (exists ctx, fst (findLogsCandidate E rpcUrl block fallbackNumber n) = Ok ctx)
  /\ (noLogs E rpcUrl ->
      fst (findLogsCandidate E rpcUrl block fallbackNumber n) = Ok None)
  /\ (forall (filter : json) (m : Net) (e : exn),
         fst (jsonRpcRequest E rpcUrl "eth_getLogs" [filter] m) = Err e ->
         safeGetLogs E rpcUrl filter m = (Ok [], sent (logsRequest rpcUrl filter) m))
  /\ (forall logsOf : json -> list json,
         logsAnswer E rpcUrl logsOf ->
         (forall (filter : json) (m : Net) (e : exn),
             fst (jsonRpcRequest E rpcUrl "eth_getLogs" [filter] m) = Err e ->
             logsOf filter = [])
         /\ (logsOf (JObj [("blockHash", JStr hash)]) <> [] ->
             findLogsCandidate E rpcUrl block fallbackNumber n
             = (Ok (Some {| blockNumber :=
                              nullish (jprop_opt block "number") fallbackNumber;
                            request := JObj [("blockHash", JStr hash)];
                            logs := logsOf (JObj [("blockHash", JStr hash)]) |}),
                sent (logsRequest rpcUrl (JObj [("blockHash", JStr hash)])) n))
         /\ (logsOf (JObj [("blockHash", JStr hash)]) = [] ->
             forall k : nat,
               (k < 64)%nat -> Z.of_nat k <= start - 1 ->
               (forall j : nat,
                   (j < k)%nat ->
                   blockLogs logsOf (feed (start - 1 - Z.of_nat j)) = []) ->
               blockLogs logsOf (feed (start - 1 - Z.of_nat k)) <> [] ->
               findLogsCandidate E rpcUrl block fallbackNumber n
               = (Ok (Some {| blockNumber :=
                                nullish
                                  (jprop_opt (feed (start - 1 - Z.of_nat k)) "number")
                                  (JStr ("0x" +:+ toString16 (start - 1 - Z.of_nat k)));
                              request := hashFilter (feed (start - 1 - Z.of_nat k));
                              logs := blockLogs logsOf (feed (start - 1 - Z.of_nat k)) |}),
                  {| trace := trace n
                              ++ logsRequest rpcUrl (JObj [("blockHash", JStr hash)])
                                 :: logsWalk rpcUrl feed (start - 1) (S k);
                     warnings := warnings n |}))
         /\ (logsOf (JObj [("blockHash", JStr hash)]) = [] ->
             (forall j : nat,
                 (j < 64)%nat -> Z.of_nat j <= start - 1 ->
                 blockLogs logsOf (feed (start - 1 - Z.of_nat j)) = []) ->
             findLogsCandidate E rpcUrl block fallbackNumber n
             = (Ok None,
                {| trace := trace n
                            ++ logsRequest rpcUrl (JObj [("blockHash", JStr hash)])
                               :: logsWalk rpcUrl feed (start - 1)
                                    (Nat.min 64 (Z.to_nat start));
                   warnings := warnings n |}))).
Proof.
  intros Hh Hne Hstart Hans.
  destruct (findLogsCandidate_bounds E rpcUrl feed block fallbackNumber hash start n
              Hh Hne Hstart Hans) as (Hfirst & Hbound & Hreturns & Hnone & Hsafe).
  split; [exact Hfirst|]. split; [exact Hbound|]. split; [exact Hreturns|].
  split; [exact Hnone|]. split; [exact Hsafe|].
  intros logsOf Hlogs.
  exact (findLogsCandidate_walk E rpcUrl feed logsOf block fallbackNumber hash start n
           Hh Hne Hstart Hans Hlogs).
Qed.

Lemma sixBlocks_logsAt3 : logsAnswer Harvest.logsAt3 "https://rpc.example" Harvest.logsOf3.
Proof. intros filter n. reflexivity. Defined.

Lemma sixBlocks_answer_logsAt3 (lo : Z) :
  0 <= lo -> blocksAnswer Harvest.logsAt3 "https://rpc.example" Demo.sixBlocks lo 5.
Proof.
  intros Hlo n current Hc.
  assert (H : current = 0 \/ current = 1 \/ current = 2 \/ current = 3
              \/ current = 4 \/ current = 5) by lia.
  destruct H as [->|[->|[->|[->|[->| ->]]]]]; reflexivity.
Defined.

Lemma findLogsCandidate_spec_witness :
  findLogsCandidate Harvest.logsAt3 "https://rpc.example"
    (Demo.sixBlocks 5) (JStr "0x5") Demo.net0
  = (Ok (Some {| blockNumber := JStr "0x3";
                 request := JObj [("blockHash", JStr "0xb10c3")];
                 logs := Harvest.logsOf3 (JObj [("blockHash", JStr "0xb10c3")]) |}),
     {| trace := [logsRequest "https://rpc.example" (JObj [("blockHash", JStr "0xb10c5")]);
                  blockRequest "https://rpc.example" 4;
                  logsRequest "https://rpc.example" (JObj [("blockHash", JStr "0xb10c4")]);
                  blockRequest "https://rpc.example" 3;
                  logsRequest "https://rpc.example" (JObj [("blockHash", JStr "0xb10c3")])];
        warnings := [] |}).
Proof.
  assert (Hwindow : blocksAnswer Harvest.logsAt3 "https://rpc.example" Demo.sixBlocks
                      (Z.max 0 (5 - 64)) (5 - 1)).
  { intros n current Hc. apply (sixBlocks_answer_logsAt3 0); lia. }
  destruct (findLogsCandidate_spec Harvest.logsAt3 "https://rpc.example"
              Demo.sixBlocks (Demo.sixBlocks 5) (JStr "0x5") "0xb10c5" 5 Demo.net0
              eq_refl eq_refl eq_refl Hwindow)
    as (_ & _ & _ & _ & _ & Hwalk).
  destruct (Hwalk Harvest.logsOf3 sixBlocks_logsAt3) as (_ & _ & Hhit & _).
  apply (Hhit eq_refl 1%nat); try lia.
  - intros j Hj. assert (j = 0%nat) as -> by lia. reflexivity.
  - discriminate.
Defined.

(** ** The mutation engine *)








(** C3, as the script has it: a [merge] whose match sits in an array
    throws "Cannot merge object into array"; a [merge] whose match is a
    key of an object stores under that key a newly allocated object that
    holds every property of the payload and, for the keys the payload
    does not name, the properties of the object found there before
    (nested values are shared, not merged).  A slot that holds no object
    (it is absent, [null] or a scalar) is not rejected: it counts as an
    empty object, so the new object has the properties of the payload
    only. *)
Theorem merge_spec
    (m : JsonPathMatch) (t : string) (payload : gmap string value)
    (l : loc) (property : PropKey) (h : heap) :
  parent m = Some l ->
  parentProperty m = Some property ->
  (forall (elems : list value) (props : gmap string value),
      h !! l = Some (Arr elems props) ->
      applyAction m (ActionMerge t payload) h = (Err (CannotMergeIntoArray t), h))
  /\ (forall fields : gmap string value,
         h !! l = Some (Obj fields) ->
         (forall (c : loc) (o : object),
             fields !! ToPropertyKey property = Some (VRef c) ->
             h !! c = Some o ->
             exists merged : gmap string value,
               applyAction m (ActionMerge t payload) h
               = (Ok tt,
                  <[l := Obj (<[ToPropertyKey property := VRef (length h)]> fields)]>
                    (h ++ [Obj merged]))
               /\ (forall (k : string) (v : value),
                      payload !! k = Some v -> merged !! k = Some v)
               /\ (forall k : string,
                      payload !! k = None -> merged !! k = own_fields o !! k))
         /\ ((forall c : loc, fields !! ToPropertyKey property <> Some (VRef c)) ->
             applyAction m (ActionMerge t payload) h
             = (Ok tt,
                <[l := Obj (<[ToPropertyKey property := VRef (length h)]> fields)]>
                  (h ++ [Obj payload])))).
Proof.
  intros Hp Hk. split.
  - intros elems props Hl. unfold applyAction. rewrite Hp, Hk.
    rewrite (bind_ok _ _ h h (Arr elems props)) by (unfold read; rewrite Hl; reflexivity).
    reflexivity.
  - intros fields Hl. split.
    + intros c o Hc Ho. exists (payload ∪ own_fields o). split; [|split].
      * unfold applyAction. rewrite Hp, Hk.
        rewrite (bind_ok _ _ h h (Obj fields)) by (unfold read; rewrite Hl; reflexivity).
        rewrite Hc. cbn [default from_option id spread_current].
        rewrite (bind_ok _ _ h h (own_fields o)).
        { reflexivity. }
        unfold bind, read, ret. rewrite Ho. reflexivity.
      * intros k v Hv. apply lookup_union_Some_l, Hv.
      * intros k Hn. apply lookup_union_r, Hn.
    + intros Hnot. unfold applyAction. rewrite Hp, Hk.
      rewrite (bind_ok _ _ h h (Obj fields)) by (unfold read; rewrite Hl; reflexivity).
      rewrite (bind_ok _ _ h h ∅).
      { unfold bind, alloc, write. rewrite (right_id_L ∅ (∪)). reflexivity. }
      destruct (fields !! ToPropertyKey property) as [[]|]; try reflexivity.
      exfalso. eapply Hnot. reflexivity.
Qed.

Lemma merge_spec_witness :
  exists merged : gmap string value,
    applyAction Demo.infoMatch (ActionMerge "$.info" Demo.versionPatch) Demo.infoHeap
    = (Ok tt,
       [Obj {["info" := VRef 2%nat]}; Obj Demo.infoFields; Obj merged])
    /\ merged !! "version" = Some (VStr "2")
    /\ merged !! "title" = Some (VStr "API").
Proof.
  assert (Hslot : ({["info" := VRef 1%nat]} : gmap string value)
                    !! ToPropertyKey (PKStr "info") = Some (VRef 1%nat))
    by (vm_compute; reflexivity).
  destruct (proj1 (proj2 (merge_spec Demo.infoMatch "$.info" Demo.versionPatch
                            0%nat (PKStr "info") Demo.infoHeap eq_refl eq_refl)
                     {["info" := VRef 1%nat]} eq_refl)
              1%nat (Obj Demo.infoFields) Hslot eq_refl)
    as (merged & Hrun & Hnew & Hold).
  exists merged. split; [exact Hrun|]. split.
  - apply Hnew. vm_compute. reflexivity.
  - rewrite Hold by (vm_compute; reflexivity). vm_compute. reflexivity.
Defined.

(** C3 as the specification words it asks that the slot hold an object or
    be absent.  Here the slot holds the text "draft" and the action goes
    through all the same. *)
Lemma merge_scalar_slot_counterexample :
  [Obj {["info" := VStr "draft"]}] !! 0%nat = Some (Obj {["info" := VStr "draft"]})
  /\ applyAction {| parent := Some 0%nat; parentProperty := Some (PKStr "info");
                    matched := VStr "draft" |}
       (ActionMerge "$.info" {["version" := VStr "2"]})
       [Obj {["info" := VStr "draft"]}]
     = (Ok tt, [Obj {["info" := VRef 1%nat]}; Obj {["version" := VStr "2"]}]).
Proof. split; vm_compute; reflexivity. Qed.

Section Engine.

Variable E : Env.

(** Applying a list of actions is applying its front part, then its
    back part on the heap the front part left. *)
Lemma applyJsonPathOverlay_app (doc : value) (front back : list OverlayAction) (h : heap) :
  applyJsonPathOverlay E doc (front ++ back) h
  = bind (applyJsonPathOverlay E doc front)
      (fun _ => applyJsonPathOverlay E doc back) h.
Proof.
  revert h. induction front as [|action front IH]; intros h; [reflexivity|].
  cbn [app applyJsonPathOverlay]. unfold bind.
  destruct (selectNodes E doc (target action) h) as [[matches|e] h1]; [|reflexivity].
  destruct (applyMatches matches action h1) as [[[]|e] h2]; [|reflexivity].
  rewrite IH. reflexivity.
Qed.

(** The engine hands back the very value it was given. *)
Lemma applyJsonPathOverlay_returns_doc (doc : value) (actions : list OverlayAction) :
  forall (h h' : heap) (r : value),
    applyJsonPathOverlay E doc actions h = (Ok r, h') -> r = doc.
Proof.
  induction actions as [|action actions IH]; intros h h' r H.
  - inversion H. reflexivity.
  - cbn [applyJsonPathOverlay] in H. unfold bind in H.
    destruct (selectNodes E doc (target action) h) as [[matches|e] h1]; [|discriminate].
    destruct (applyMatches matches action h1) as [[[]|e] h2]; [|discriminate].
    eapply IH, H.
Qed.

End Engine.

(** C4: when the target of an action matches nothing, the call fails
    with the unmatched-path error; the heap it leaves is the one the
    earlier actions produced, nothing is rolled back, and the actions
    behind the failing one play no part. *)
Theorem unmatched_target_fails_fast
    (E : Env) (doc : value) (earlier later : list OverlayAction)
    (action : OverlayAction) (h h1 : heap) :
  applyJsonPathOverlay E doc earlier h = (Ok doc, h1) ->
  JSONPath E h1 doc (target action) = Ok [] ->
  applyJsonPathOverlay E doc (earlier ++ action :: later) h
  = (Err (NoMatch (target action)), h1).
Proof.
  intros Hearlier Hnone.
  rewrite applyJsonPathOverlay_app, (bind_ok _ _ _ _ _ Hearlier).
  cbn [applyJsonPathOverlay]. apply bind_err.
  unfold selectNodes. rewrite Hnone. reflexivity.
Qed.

Lemma unmatched_target_fails_fast_witness :
  applyJsonPathOverlay Demo.bare (VRef 0%nat)
    ([ActionSet "$.title" (VStr "v2")]
       ++ ActionRemove "$.servers" :: [ActionSet "$.title" (VStr "v3")])
    Demo.titleHeap
  = (Err (NoMatch "$.servers"), [Obj {["title" := VStr "v2"]}]).
Proof.
  apply (unmatched_target_fails_fast Demo.bare (VRef 0%nat)
           [ActionSet "$.title" (VStr "v2")] [ActionSet "$.title" (VStr "v3")]
           (ActionRemove "$.servers") Demo.titleHeap [Obj {["title" := VStr "v2"]}]);
    vm_compute; reflexivity.
Defined.

(** ** The loader *)




(** ** Chain resolution *)






(** ** Isolation of the caller's document *)

Section Isolation.

(** The heap at the start of the call; [base] is its size. *)
Variable h0 : heap.
Let base : nat := length h0.

Local Abbreviation isolated := (isolated h0).

Lemma isolated_start : isolated h0.
Proof.
  split; [split; [lia|reflexivity]|].
  intros l o Hl Hlook. apply lookup_lt_Some in Hlook. lia.
Qed.

Lemma isolated_write (h : heap) (l : loc) (o : object) :
  isolated h -> (base <= l)%nat -> object_above base o -> isolated (<[l := o]> h).
Proof.
  intros [[Hlen Hold] Hclosed] Hl Ho. split; [split|].
  - rewrite length_insert. exact Hlen.
  - intros l' Hl'. rewrite list_lookup_insert_ne by (subst base; lia). apply Hold, Hl'.
  - intros l' o' Hl' Hlook.
    destruct (decide (l = l')) as [->|Hne].
    + destruct (decide (l' < length h)%nat) as [Hin|Hout].
      * rewrite list_lookup_insert_eq in Hlook by exact Hin.
        inversion Hlook; subst. exact Ho.
      * rewrite list_insert_ge in Hlook by lia. eapply Hclosed; eassumption.
    + rewrite list_lookup_insert_ne in Hlook by exact Hne.
      eapply Hclosed; eassumption.
Qed.

Lemma isolated_alloc (h : heap) (o : object) :
  isolated h -> object_above base o -> isolated (h ++ [o]).
Proof.
  intros [[Hlen Hold] Hclosed] Ho. split; [split|].
  - rewrite length_app. simpl. lia.
  - intros l' Hl'. rewrite lookup_app_l by lia. apply Hold, Hl'.
  - intros l' o' Hl' Hlook.
    apply lookup_app_Some in Hlook as [Hlook|[_ Hlook]].
    + eapply Hclosed; eassumption.
    + destruct (l' - length h)%nat; simpl in Hlook; [|discriminate].
      inversion Hlook; subst. exact Ho.
Qed.

Lemma isolated_length (h : heap) : isolated h -> (base <= length h)%nat.
Proof. intros [[Hlen _] _]. exact Hlen. Qed.

Lemma holds_above (o : object) (v : value) :
  object_above base o -> holds o v -> value_above base v.
Proof.
  destruct o as [fields|elems props]; simpl.
  - intros Hf [k Hk]. exact (Hf k v Hk).
  - intros [He Hp] [Hin|[k Hk]].
    + rewrite Forall_forall in He. apply He, Hin.
    + exact (Hp k v Hk).
Qed.

Lemma reach_above (h : heap) (v : value) (l : loc) :
  closed_above base h -> value_above base v -> reach h v l -> (base <= l)%nat.
Proof.
  intros Hclosed Hv Hreach. induction Hreach as [l|l o v l' Hl Hholds _ IH].
  - exact Hv.
  - apply IH. eapply holds_above; [|exact Hholds]. eapply Hclosed; eassumption.
Qed.

Lemma index_fields_above (elems : list value) :
  Forall (value_above base) elems -> fields_above base (index_fields elems).
Proof.
  intros He k v Hk. unfold index_fields in Hk.
  apply elem_of_list_to_map_2 in Hk.
  apply elem_of_lookup_imap_1 in Hk as (i & x & Heq & Hx).
  inversion Heq; subst. eapply Forall_lookup_1; eassumption.
Qed.

Lemma own_fields_above (o : object) :
  object_above base o -> fields_above base (own_fields o).
Proof.
  destruct o as [fields|elems props]; simpl; [auto|].
  intros [He Hp]. apply map_Forall_union_2; [exact Hp|].
  apply index_fields_above, He.
Qed.

Lemma splice1_above (start : num) (elems : list value) :
  Forall (value_above base) elems -> Forall (value_above base) (splice1 start elems).
Proof.
  intros He. unfold splice1. apply Forall_app_2.
  - apply Forall_take, He.
  - apply Forall_drop, He.
Qed.

Lemma array_assign_above (index : num) (v : value)
    (elems : list value) (props : gmap string value) :
  value_above base v -> object_above base (Arr elems props) ->
  object_above base (array_assign index v elems props).
Proof.
  intros Hv [He Hp]. unfold array_assign.
  destruct index as [n|].
  - destruct (n <? 0).
    + split; [exact He|]. apply map_Forall_insert_2; assumption.
    + destruct (Z.to_nat n <? length elems)%nat.
      * split; [|exact Hp]. apply Forall_insert; assumption.
      * split; [|exact Hp]. apply Forall_app_2; [exact He|].
        apply Forall_app_2; [apply Forall_replicate; exact I|].
        constructor; [exact Hv|constructor].
  - split; [exact He|]. apply map_Forall_insert_2; assumption.
Qed.

(** One mutation at a parent of the new region keeps the old one. *)
Lemma applyAction_isolated (m : JsonPathMatch) (action : OverlayAction)
    (h h' : heap) (r : result unit) :
  isolated h ->
  (forall l : loc, parent m = Some l -> (base <= l)%nat) ->
  action_above base action ->
  applyAction m action h = (r, h') ->
  isolated h'.
Proof.
  intros Hiso Hparent Haction Hrun. unfold applyAction in Hrun.
  destruct (parent m) as [l|]; [|inversion Hrun; subst; exact Hiso].
  destruct (parentProperty m) as [property|]; [|inversion Hrun; subst; exact Hiso].
  specialize (Hparent l eq_refl).
  unfold bind, read in Hrun.
  destruct (h !! l) as [o|] eqn:Hl; [|inversion Hrun; subst; exact Hiso].
  assert (Ho : object_above base o) by (eapply (proj2 Hiso); eassumption).
  destruct action as [t v|t payload|t]; simpl in Haction.
  - destruct o as [fields|elems props]; inversion Hrun; subst.
    + apply isolated_write; [assumption..|].
      apply map_Forall_insert_2; assumption.
    + apply isolated_write; [assumption..|]. apply array_assign_above; assumption.
  - destruct o as [fields|elems props]; [|inversion Hrun; subst; exact Hiso].
    unfold bind in Hrun.
    destruct (spread_current (default VUndefined (fields !! ToPropertyKey property)) h)
      as [[existing|e] h1] eqn:Hspread.
    + assert (Hex : h1 = h /\ fields_above base existing).
      { destruct (fields !! ToPropertyKey property) as [[]|] eqn:Hf;
          cbn [default from_option id spread_current] in Hspread;
          try (inversion Hspread; subst; split; [reflexivity|apply map_Forall_empty]).
        unfold bind, read, ret in Hspread.
        destruct (h !! l0) as [oc|] eqn:Hc; inversion Hspread; subst.
        split; [reflexivity|]. apply own_fields_above.
        eapply (proj2 Hiso); [|exact Hc]. exact (Ho _ _ Hf). }
      destruct Hex as [-> Hex]. unfold alloc, write in Hrun. inversion Hrun; subst.
      apply isolated_write; [|assumption|].
      * apply isolated_alloc; [exact Hiso|].
        apply map_Forall_union_2; assumption.
      * apply map_Forall_insert_2; [|exact Ho]. simpl.
        apply isolated_length, Hiso.
    + assert (h1 = h).
      { destruct (fields !! ToPropertyKey property) as [[]|];
          cbn [default from_option id spread_current] in Hspread;
          try (inversion Hspread; reflexivity).
        unfold bind, read, ret in Hspread.
        destruct (h !! l0); inversion Hspread; reflexivity. }
      inversion Hrun; subst. exact Hiso.
  - destruct o as [fields|elems props]; inversion Hrun; subst.
    + apply isolated_write; [assumption..|]. apply map_Forall_delete, Ho.
    + apply isolated_write; [assumption..|].
      destruct Ho as [He Hp]. split; [apply splice1_above, He|exact Hp].
Qed.

Lemma applyMatches_isolated (matches : list JsonPathMatch) (action : OverlayAction) :
  forall (h h' : heap) (r : result unit),
    isolated h ->
    (forall (m : JsonPathMatch) (l : loc),
        m ∈ matches -> parent m = Some l -> (base <= l)%nat) ->
    action_above base action ->
    applyMatches matches action h = (r, h') ->
    isolated h'.
Proof.
  induction matches as [|m matches IH]; intros h h' r Hiso Hparents Haction Hrun.
  - inversion Hrun; subst. exact Hiso.
  - cbn [applyMatches] in Hrun. unfold bind in Hrun.
    destruct (applyAction m action h) as [[[]|e] h1] eqn:Hone.
    + eapply IH; [| |exact Haction|exact Hrun].
      * eapply applyAction_isolated; [exact Hiso| |exact Haction|exact Hone].
        intros l. apply Hparents. left.
      * intros m' l Hin. apply Hparents. right. exact Hin.
    + inversion Hrun; subst.
      eapply applyAction_isolated; [exact Hiso| |exact Haction|exact Hone].
      intros l. apply Hparents. left.
Qed.

Lemma applyJsonPathOverlay_isolated (E : Env) (doc : value) (actions : list OverlayAction) :
  resolverSound E ->
  value_above base doc ->
  forall (h h' : heap) (r : result value),
    isolated h ->
    Forall (action_above base) actions ->
    applyJsonPathOverlay E doc actions h = (r, h') ->
    isolated h'.
Proof.
  intros Hsound Hdoc.
  induction actions as [|action actions IH]; intros h h' r Hiso Hactions Hrun.
  - inversion Hrun; subst. exact Hiso.
  - apply Forall_cons in Hactions as [Haction Hactions].
    cbn [applyJsonPathOverlay] in Hrun. unfold bind in Hrun.
    unfold selectNodes in Hrun at 1.
    destruct (JSONPath E h doc (target action)) as [matches|e] eqn:Hpath;
      [|inversion Hrun; subst; exact Hiso].
    destruct (is_nil matches); [inversion Hrun; subst; exact Hiso|].
    destruct (applyMatches matches action h) as [[[]|e] h1] eqn:Hm.
    + eapply IH; [|exact Hactions|exact Hrun].
      eapply applyMatches_isolated; [exact Hiso| |exact Haction|exact Hm].
      intros m l Hin Hp. eapply reach_above; [exact (proj2 Hiso)|exact Hdoc|].
      eapply Hsound; eassumption.
    + inversion Hrun; subst.
      eapply applyMatches_isolated; [exact Hiso| |exact Haction|exact Hm].
      intros m l Hin Hp. eapply reach_above; [exact (proj2 Hiso)|exact Hdoc|].
      eapply Hsound; eassumption.
Qed.

(** *** Parsing allocates in the new region only *)

Lemma reify_JArr (items : list json) (h : heap) :
  reify (JArr items) h
  = let '(vs, h1) := reify_items items h in (VRef (length h1), h1 ++ [Arr vs ∅]).
Proof. reflexivity. Qed.

Lemma reify_JObj (fields : list (string * json)) (h : heap) :
  reify (JObj fields) h
  = let '(fs, h1) := reify_fields fields h in (VRef (length h1), h1 ++ [Obj fs]).
Proof. reflexivity. Qed.

Local Abbreviation reify_ok := (reify_ok h0).

Lemma reify_items_isolated (items : list json) :
  Forall reify_ok items ->
  forall (h h' : heap) (vs : list value),
    isolated h -> reify_items items h = (vs, h') ->
    isolated h' /\ Forall (value_above base) vs /\ (length h <= length h')%nat.
Proof.
  induction 1 as [|x items Hx _ IH]; intros h h' vs Hiso Hrun.
  - inversion Hrun; subst. auto.
  - cbn [reify_items] in Hrun.
    destruct (reify x h) as [v h1] eqn:H1.
    destruct (reify_items items h1) as [vs' h2] eqn:H2.
    inversion Hrun; subst.
    destruct (Hx _ _ _ Hiso H1) as (Hiso1 & Hv & Hlen1 & _).
    destruct (IH _ _ _ Hiso1 H2) as (Hiso2 & Hvs & Hlen2).
    split; [exact Hiso2|]. split; [constructor; assumption|lia].
Qed.

Lemma reify_fields_isolated (fields : list (string * json)) :
  Forall (fun kx => reify_ok (snd kx)) fields ->
  forall (h h' : heap) (fs : gmap string value),
    isolated h -> reify_fields fields h = (fs, h') ->
    isolated h' /\ fields_above base fs /\ (length h <= length h')%nat.
Proof.
  induction 1 as [|[k x] fields Hx _ IH]; intros h h' fs Hiso Hrun.
  - inversion Hrun; subst. split; [exact Hiso|]. split; [apply map_Forall_empty|lia].
  - cbn [reify_fields] in Hrun.
    destruct (reify x h) as [v h1] eqn:H1.
    destruct (reify_fields fields h1) as [fs' h2] eqn:H2.
    inversion Hrun; subst.
    destruct (Hx _ _ _ Hiso H1) as (Hiso1 & Hv & Hlen1 & _).
    destruct (IH _ _ _ Hiso1 H2) as (Hiso2 & Hfs & Hlen2).
    split; [exact Hiso2|]. split; [|lia].
    destruct (fs' !! k); [exact Hfs|]. apply map_Forall_insert_2; assumption.
Qed.

Lemma json_nested_ind (P : json -> Prop) :
  P JNull ->
  (forall b, P (JBool b)) ->
  (forall n, P (JNum n)) ->
  (forall s, P (JStr s)) ->
  (forall items, Forall P items -> P (JArr items)) ->
  (forall fields, Forall (fun kx => P (snd kx)) fields -> P (JObj fields)) ->
  forall j, P j.
Proof.
  intros Hnull Hbool Hnum Hstr Harr Hobj.
  fix IH 1. intros [|b|n|s|items|fields].
  - exact Hnull.
  - apply Hbool.
  - apply Hnum.
  - apply Hstr.
  - apply Harr. induction items as [|x items IHitems]; constructor; [apply IH|exact IHitems].
  - apply Hobj. induction fields as [|[k x] fields IHfields]; constructor;
      [apply IH|exact IHfields].
Qed.

Lemma reify_isolated (j : json) : reify_ok j.
Proof.
  induction j as [|b|n|s|items Hitems|fields Hfields] using json_nested_ind;
    intros h h' v Hiso Hrun.
  1-4: inversion Hrun; subst;
       split; [exact Hiso|split; [exact I|split; [lia|discriminate]]].
  - rewrite reify_JArr in Hrun.
    destruct (reify_items items h) as [vs h1] eqn:H1. inversion Hrun; subst.
    destruct (reify_items_isolated items Hitems _ _ _ Hiso H1) as (Hiso1 & Hvs & Hlen).
    split; [|split; [|split]].
    + apply isolated_alloc; [exact Hiso1|]. split; [exact Hvs|apply map_Forall_empty].
    + simpl. pose proof (isolated_length _ Hiso). lia.
    + rewrite length_app. simpl. lia.
    + intros _. eexists. split; [reflexivity|exact Hlen].
  - rewrite reify_JObj in Hrun.
    destruct (reify_fields fields h) as [fs h1] eqn:H1. inversion Hrun; subst.
    destruct (reify_fields_isolated fields Hfields _ _ _ Hiso H1) as (Hiso1 & Hfs & Hlen).
    split; [|split; [|split]].
    + apply isolated_alloc; [exact Hiso1|]. exact Hfs.
    + simpl. pose proof (isolated_length _ Hiso). lia.
    + rewrite length_app. simpl. lia.
    + intros _. eexists. split; [reflexivity|exact Hlen].
Qed.

(** *** Loading allocates in the new region only *)

Lemma allocAction_isolated (a : ActionText) (h h' : heap) (r : result OverlayAction) :
  isolated h -> allocAction a h = (r, h') ->
  isolated h' /\ (forall action, r = Ok action -> action_above base action).
Proof.
  intros Hiso Hrun. destruct a as [t j|t fields|t]; unfold allocAction in Hrun.
  - destruct (reify j h) as [v h1] eqn:H1. inversion Hrun; subst.
    destruct (reify_isolated j _ _ _ Hiso H1) as (Hiso1 & Hv & _).
    split; [exact Hiso1|]. intros action Ha. inversion Ha; subst. exact Hv.
  - destruct (reify_fields fields h) as [fs h1] eqn:H1. inversion Hrun; subst.
    destruct (reify_fields_isolated fields
                ltac:(apply Forall_forall; intros; apply reify_isolated)
                _ _ _ Hiso H1) as (Hiso1 & Hfs & _).
    split; [exact Hiso1|]. intros action Ha. inversion Ha; subst. exact Hfs.
  - inversion Hrun; subst. split; [exact Hiso|].
    intros action Ha. inversion Ha; subst. exact I.
Qed.

Lemma mapM_allocAction_isolated (texts : list ActionText) :
  forall (h h' : heap) (r : result (list OverlayAction)),
    isolated h -> mapM allocAction texts h = (r, h') ->
    isolated h' /\ actions_above base r.
Proof.
  induction texts as [|a texts IH]; intros h h' r Hiso Hrun.
  - inversion Hrun; subst. split; [exact Hiso|constructor].
  - cbn [mapM] in Hrun. unfold bind in Hrun.
    destruct (allocAction a h) as [[action|e] h1] eqn:H1.
    + destruct (allocAction_isolated _ _ _ _ Hiso H1) as [Hiso1 Ha].
      destruct (mapM allocAction texts h1) as [[actions|e] h2] eqn:H2.
      * destruct (IH _ _ _ Hiso1 H2) as [Hiso2 Hactions].
        inversion Hrun; subst. split; [exact Hiso2|].
        constructor; [apply Ha; reflexivity|exact Hactions].
      * destruct (IH _ _ _ Hiso1 H2) as [Hiso2 _].
        inversion Hrun; subst. split; [exact Hiso2|exact I].
    + destruct (allocAction_isolated _ _ _ _ Hiso H1) as [Hiso1 _].
      inversion Hrun; subst. split; [exact Hiso1|exact I].
Qed.

Variable E : Env.

Lemma parseOverlayFile_isolated (contents ext : string)
    (h h' : heap) (r : result (list OverlayAction)) :
  isolated h -> parseOverlayFile E contents ext h = (r, h') ->
  isolated h' /\ actions_above base r.
Proof.
  intros Hiso Hrun. unfold parseOverlayFile, bind, lift in Hrun.
  destruct (if String.eqb ext "json" then JSON_parse E contents else yaml_load E contents)
    as [parsed|e].
  - eapply mapM_allocAction_isolated; eassumption.
  - inversion Hrun; subst. split; [exact Hiso|exact I].
Qed.

Lemma loadEntries_isolated (descend : string -> M heap (list OverlayAction))
    (dir : string) (recursive : bool) (entries : list Dirent) :
  (forall sub h h' r,
      isolated h -> descend sub h = (r, h') -> isolated h' /\ actions_above base r) ->
  forall (actions : list OverlayAction) (h h' : heap) (r : result (list OverlayAction)),
    isolated h ->
    Forall (action_above base) actions ->
    loadEntries E descend dir recursive entries actions h = (r, h') ->
    isolated h' /\ actions_above base r.
Proof.
  intros Hdescend.
  induction entries as [|entry entries IH]; intros actions h h' r Hiso Hacc Hrun.
  - inversion Hrun; subst. split; [exact Hiso|exact Hacc].
  - cbn [loadEntries] in Hrun.
    destruct (startsWithDot (name entry)); [eapply IH; eassumption|].
    destruct (kind entry).
    + destruct (is_empty _ || negb _); [eapply IH; eassumption|].
      unfold bind at 1 in Hrun. unfold lift at 1 in Hrun.
      destruct (readFile E (join E dir (name entry))) as [raw|e];
        [|inversion Hrun; subst; split; [exact Hiso|exact I]].
      unfold bind at 1 in Hrun.
      destruct (parseOverlayFile E raw _ h) as [[parsed|e] h1] eqn:H1.
      * destruct (parseOverlayFile_isolated _ _ _ _ _ Hiso H1) as [Hiso1 Hparsed].
        eapply IH; [exact Hiso1| |exact Hrun].
        apply Forall_app_2; assumption.
      * destruct (parseOverlayFile_isolated _ _ _ _ _ Hiso H1) as [Hiso1 _].
        inversion Hrun; subst. split; [exact Hiso1|exact I].
    + destruct recursive; [|eapply IH; eassumption].
      unfold bind at 1 in Hrun.
      destruct (descend (join E dir (name entry)) h) as [[sub|e] h1] eqn:H1.
      * destruct (Hdescend _ _ _ _ Hiso H1) as [Hiso1 Hsub].
        eapply IH; [exact Hiso1| |exact Hrun].
        apply Forall_app_2; assumption.
      * destruct (Hdescend _ _ _ _ Hiso H1) as [Hiso1 _].
        inversion Hrun; subst. split; [exact Hiso1|exact I].
    + eapply IH; eassumption.
Qed.

Lemma loadOverlayActions_isolated (fuel : nat) :
  forall (dir : string) (recursive : bool) (h h' : heap)
         (r : result (list OverlayAction)),
    isolated h -> loadOverlayActions E fuel dir recursive h = (r, h') ->
    isolated h' /\ actions_above base r.
Proof.
  induction fuel as [|fuel IH]; intros dir recursive h h' r Hiso Hrun.
  - inversion Hrun; subst. split; [exact Hiso|exact I].
  - cbn [loadOverlayActions] in Hrun. unfold try_catch in Hrun.
    match type of Hrun with
    | (let (_, _) := ?body h in _) = _ => destruct (body h) as [[actions|e] h1] eqn:Hbody
    end.
    + inversion Hrun; subst.
      unfold bind, lift in Hbody.
      destruct (readdir E dir) as [entries|e]; [|discriminate].
      eapply loadEntries_isolated; [|exact Hiso|constructor|exact Hbody].
      intros sub. apply IH.
    + assert (Hiso1 : isolated h1).
      { unfold bind, lift in Hbody.
        destruct (readdir E dir) as [entries|e']; [|inversion Hbody; subst; exact Hiso].
        eapply (loadEntries_isolated _ dir recursive entries); [|exact Hiso|constructor|exact Hbody].
        intros sub. apply IH. }
      destruct (isENOENT e); inversion Hrun; subst;
        (split; [exact Hiso1|]); [constructor|exact I].
Qed.

(** *** Cloning allocates in the new region only *)

Lemma JSON_stringify_container (fuel : nat) (h : heap) (d : loc) (j : json) :
  JSON_stringify fuel h (VRef d) = Some (Some j) -> is_container j = true.
Proof.
  destruct fuel as [|fuel]; [discriminate|]. cbn [JSON_stringify].
  destruct (h !! d) as [[fields|elems props]|]; [| |discriminate].
  - destruct (option_mapM _ _); [|discriminate]. intros H. inversion H. reflexivity.
  - destruct (option_mapM _ _); [|discriminate]. intros H. inversion H. reflexivity.
Qed.

Lemma deepClone_isolated (d : loc) (h h' : heap) (clone : value) :
  isolated h -> deepClone (VRef d) h = (Ok clone, h') ->
  isolated h' /\ exists l : loc, clone = VRef l /\ (length h <= l)%nat.
Proof.
  intros Hiso Hrun. unfold deepClone in Hrun.
  destruct (JSON_stringify (S (length h)) h (VRef d)) as [[j|]|] eqn:Hj;
    [|discriminate..].
  destruct (reify j h) as [v h1] eqn:H1. inversion Hrun; subst.
  destruct (reify_isolated j _ _ _ Hiso H1) as (Hiso1 & _ & _ & Hnew).
  split; [exact Hiso1|]. apply Hnew. eapply JSON_stringify_container, Hj.
Qed.

(** *** The tail of [applyExampleOverlays] *)

Lemma deepClone_valid (d : loc) (h h' : heap) (clone : value) :
  deepClone (VRef d) h = (Ok clone, h') -> (d < length h)%nat.
Proof.
  unfold deepClone. cbn [JSON_stringify].
  destruct (h !! d) as [o|] eqn:Hd; [|discriminate].
  intros _. eapply lookup_lt_Some, Hd.
Qed.

Lemma clone_and_apply_isolated (d : loc) (actions : list OverlayAction)
    (h : heap) (n : Net) (r : value) (w' : World) :
  resolverSound E ->
  isolated h ->
  Forall (action_above base) actions ->
  (if is_nil actions then ret (VRef d)
   else
     let* clone := on_heap (deepClone (VRef d)) in
     on_heap (applyJsonPathOverlay E clone actions)) {| wheap := h; wnet := n |}
  = (Ok r, w') ->
  isolated (wheap w')
  /\ (actions = [] /\ r = VRef d
      \/ actions <> [] /\ exists l : loc, r = VRef l /\ l <> d /\ (length h <= l)%nat).
Proof.
  intros Hsound Hiso Hactions Hrun.
  destruct actions as [|action actions]; cbn [is_nil] in Hrun.
  - inversion Hrun; subst. split; [exact Hiso|]. left. auto.
  - unfold bind, on_heap in Hrun. cbn [wheap wnet] in Hrun.
    destruct (deepClone (VRef d) h) as [[clone|e] h1] eqn:Hclone; [|discriminate].
    cbn [wheap wnet] in Hrun.
    destruct (applyJsonPathOverlay E clone (action :: actions) h1) as [[r'|e] h2] eqn:Happly;
      [|discriminate].
    inversion Hrun; subst. cbn [wheap].
    destruct (deepClone_isolated _ _ _ _ Hiso Hclone) as (Hiso1 & l & -> & Hl).
    pose proof (deepClone_valid _ _ _ _ Hclone) as Hd.
    pose proof (applyJsonPathOverlay_returns_doc E _ _ _ _ _ Happly) as ->.
    split.
    + eapply (applyJsonPathOverlay_isolated E (VRef l)); [exact Hsound| |exact Hiso1|exact Hactions|exact Happly].
      simpl. pose proof (isolated_length _ Hiso). lia.
    + right. split; [discriminate|]. exists l. split; [reflexivity|]. split; lia.
Qed.

End Isolation.

Lemma applyExampleOverlays_untouched
    (E : Env) (fuel : nat) (d : loc) (rpcUrl : option string)
    (w w' : World) (r : value) :
  resolverSound E ->
  applyExampleOverlays E fuel (VRef d) rpcUrl w = (Ok r, w') ->
  untouched (wheap w) (wheap w')
  /\ (r = VRef d
      \/ exists l : loc, r = VRef l /\ l <> d /\ (length (wheap w) <= l)%nat)
  /\ (forall (action : OverlayAction) (rest : list OverlayAction) (h1 : heap),
         loadOverlayActions E fuel (OVERLAYS_ROOT_DIR E) false (wheap w)
         = (Ok (action :: rest), h1) ->
         exists l : loc, r = VRef l /\ l <> d /\ (length (wheap w) <= l)%nat)
  /\ (forall h1 : heap,
         rpcUrl = None ->
         loadOverlayActions E fuel (OVERLAYS_ROOT_DIR E) false (wheap w) = (Ok [], h1) ->
         r = VRef d)
  /\ (forall (doc : value) (actions : list OverlayAction) (h h' : heap) (r' : value),
         applyJsonPathOverlay E doc actions h = (Ok r', h') -> r' = doc).
Proof.
  intros Hsound Hrun.
  assert (Hmain : exists (global scoped : list OverlayAction) (h1 h2 : heap),
             loadOverlayActions E fuel (OVERLAYS_ROOT_DIR E) false (wheap w) = (Ok global, h1)
             /\ (rpcUrl = None -> scoped = [])
             /\ (length (wheap w) <= length h2)%nat
             /\ isolated (wheap w) (wheap w')
             /\ (global ++ scoped = [] /\ r = VRef d
                 \/ global ++ scoped <> []
                    /\ exists l : loc, r = VRef l /\ l <> d /\ (length h2 <= l)%nat)).
  { unfold applyExampleOverlays in Hrun. unfold bind at 1 in Hrun.
    unfold on_heap at 1 in Hrun.
    destruct (loadOverlayActions E fuel (OVERLAYS_ROOT_DIR E) false (wheap w))
      as [[global|e] h1] eqn:Hglobal; [|discriminate].
    destruct (loadOverlayActions_isolated (wheap w) E fuel _ _ _ _ _
                (isolated_start (wheap w)) Hglobal) as [Hiso1 Hg].
    unfold bind at 1 in Hrun. unfold on_net at 1 in Hrun. cbn [wheap wnet] in Hrun.
    destruct (resolveOverlayChainId E rpcUrl (wnet w)) as [[chainId|e] n1] eqn:Hchain;
      [|discriminate].
    assert (Hnone : rpcUrl = None -> chainId = None).
    { intros ->. inversion Hchain. reflexivity. }
    unfold bind at 1 in Hrun.
    destruct chainId as [id|].
    - destruct (is_empty id).
      + cbn [ret] in Hrun. exists global, [], h1, h1.
        split; [reflexivity|]. split; [reflexivity|].
        split; [apply (isolated_length (wheap w)), Hiso1|].
        eapply clone_and_apply_isolated; [exact Hsound|exact Hiso1| |exact Hrun].
        rewrite app_nil_r. exact Hg.
      + unfold on_heap at 1 in Hrun. cbn [wheap wnet] in Hrun.
        destruct (loadOverlayActions E fuel (join E (OVERLAYS_ROOT_DIR E) id) true h1)
          as [[scoped|e] h2] eqn:Hscoped; [|discriminate].
        destruct (loadOverlayActions_isolated (wheap w) E fuel _ _ _ _ _ Hiso1 Hscoped)
          as [Hiso2 Hs].
        exists global, scoped, h1, h2.
        split; [reflexivity|]. split; [intros Hu; discriminate (Hnone Hu)|].
        split; [apply (isolated_length (wheap w)), Hiso2|].
        eapply clone_and_apply_isolated; [exact Hsound|exact Hiso2| |exact Hrun].
        apply Forall_app_2; assumption.
    - cbn [ret] in Hrun. exists global, [], h1, h1.
      split; [reflexivity|]. split; [reflexivity|].
      split; [apply (isolated_length (wheap w)), Hiso1|].
      eapply clone_and_apply_isolated; [exact Hsound|exact Hiso1| |exact Hrun].
      rewrite app_nil_r. exact Hg. }
  destruct Hmain as (global & scoped & h1 & h2 & Hglobal & Hnone & Hlen & Hiso & Hcases).
  split; [exact (proj1 Hiso)|]. split; [|split; [|split]].
  - destruct Hcases as [[_ ->]|[_ (l & -> & Hne & Hl)]]; [left; reflexivity|].
    right. exists l. split; [reflexivity|]. split; [exact Hne|lia].
  - intros action rest h1' Hload. rewrite Hload in Hglobal. inversion Hglobal; subst.
    destruct Hcases as [[Hnil _]|[_ (l & -> & Hne & Hl)]]; [discriminate|].
    exists l. split; [reflexivity|]. split; [exact Hne|lia].
  - intros h1' Hu Hload. rewrite Hload in Hglobal. inversion Hglobal; subst.
    rewrite (Hnone eq_refl) in Hcases.
    destruct Hcases as [[_ ->]|[Hnil _]]; [reflexivity|]. contradiction.
  - apply applyJsonPathOverlay_returns_doc.
Qed.

(** The steps of a run of [applyExampleOverlays] that returns. *)
Lemma applyExampleOverlays_run
    (E : Env) (fuel : nat) (document : value) (rpcUrl : option string)
    (w w' : World) (r : value) :
  applyExampleOverlays E fuel document rpcUrl w = (Ok r, w') ->
  exists (global scoped : list OverlayAction) (chainId : option string)
         (h1 h2 : heap) (n1 : Net),
    loadOverlayActions E fuel (OVERLAYS_ROOT_DIR E) false (wheap w) = (Ok global, h1)
    /\ resolveOverlayChainId E rpcUrl (wnet w) = (Ok chainId, n1)
    /\ scopedActions E fuel chainId h1 = (Ok scoped, h2)
    /\ if is_nil (global ++ scoped)
       then r = document /\ w' = {| wheap := h2; wnet := n1 |}
       else exists (clone : value) (h3 : heap),
              deepClone document h2 = (Ok clone, h3)
              /\ applyJsonPathOverlay E clone (global ++ scoped) h3 = (Ok r, wheap w')
              /\ wnet w' = n1.
Proof.
  intros Hrun. unfold applyExampleOverlays in Hrun.
  unfold bind at 1 in Hrun. unfold on_heap at 1 in Hrun.
  destruct (loadOverlayActions E fuel (OVERLAYS_ROOT_DIR E) false (wheap w))
    as [[global|e] h1] eqn:Hglobal; [|discriminate].
  unfold bind at 1 in Hrun. unfold on_net at 1 in Hrun. cbn [wheap wnet] in Hrun.
  destruct (resolveOverlayChainId E rpcUrl (wnet w)) as [[chainId|e] n1] eqn:Hchain;
    [|discriminate].
  unfold bind at 1 in Hrun.
  assert (Hscoped : exists (scoped : list OverlayAction) (h2 : heap),
             scopedActions E fuel chainId h1 = (Ok scoped, h2)
             /\ (if is_nil (global ++ scoped) then ret document
                 else
                   let* clone := on_heap (deepClone document) in
                   on_heap (applyJsonPathOverlay E clone (global ++ scoped)))
                  {| wheap := h2; wnet := n1 |} = (Ok r, w')).
  { unfold scopedActions. destruct chainId as [id|].
    - destruct (is_empty id).
      + exists [], h1. split; [reflexivity|exact Hrun].
      + unfold on_heap at 1 in Hrun. cbn [wheap wnet] in Hrun.
        destruct (loadOverlayActions E fuel (join E (OVERLAYS_ROOT_DIR E) id) true h1)
          as [[scoped|e] h2]; [|discriminate].
        exists scoped, h2. split; [reflexivity|exact Hrun].
    - exists [], h1. split; [reflexivity|exact Hrun]. }
  destruct Hscoped as (scoped & h2 & Hscoped & Htail).
  exists global, scoped, chainId, h1, h2, n1.
  split; [reflexivity|]. split; [reflexivity|]. split; [exact Hscoped|].
  destruct (is_nil (global ++ scoped)).
  - inversion Htail; subst. split; reflexivity.
  - unfold bind, on_heap in Htail. cbn [wheap wnet] in Htail.
    destruct (deepClone document h2) as [[clone|e] h3]; [|discriminate].
    cbn [wheap wnet] in Htail.
    destruct (applyJsonPathOverlay E clone (global ++ scoped) h3) as [[r'|e] h4]
      eqn:Happly; [|discriminate].
    inversion Htail; subst. exists clone, h3. cbn [wheap wnet].
    split; [reflexivity|]. split; [exact Happly|reflexivity].
Qed.

Lemma scopedActions_isolated
    (E : Env) (fuel : nat) (chainId : option string) (h0 h h' : heap)
    (r : result (list OverlayAction)) :
  isolated h0 h -> scopedActions E fuel chainId h = (r, h') -> isolated h0 h'.
Proof.
  intros Hiso Hrun. unfold scopedActions in Hrun. destruct chainId as [id|].
  - destruct (is_empty id).
    + inversion Hrun; subst. exact Hiso.
    + exact (proj1 (loadOverlayActions_isolated h0 E fuel _ _ _ _ _ Hiso Hrun)).
  - inversion Hrun; subst. exact Hiso.
Qed.

Lemma applyMatches_set_keeps (t : string) (v : value) (l : loc) (key : string)
    (matches : list JsonPathMatch) :
  forall (h h' : heap) (fields : gmap string value),
    applyMatches matches (ActionSet t v) h = (Ok tt, h') ->
    h !! l = Some (Obj fields) ->
    exists fields' : gmap string value,
      h' !! l = Some (Obj fields')
      /\ (fields !! key = Some v -> fields' !! key = Some v)
      /\ (forall (m : JsonPathMatch) (property : PropKey),
             m ∈ matches -> parent m = Some l -> parentProperty m = Some property ->
             ToPropertyKey property = key -> fields' !! key = Some v).
Proof.
  induction matches as [|m0 rest IH]; intros h h' fields Hrun Hl.
  - inversion Hrun; subst. exists fields. split; [exact Hl|]. split; [auto|].
    intros m property Hin. inversion Hin.
  - cbn [applyMatches] in Hrun. unfold bind in Hrun.
    destruct (applyAction m0 (ActionSet t v) h) as [[[]|e] h1] eqn:Hone; [|discriminate].
    unfold applyAction in Hone.
    destruct (parent m0) as [l0|] eqn:Hp0; [|discriminate].
    destruct (parentProperty m0) as [p0|] eqn:Hk0; [|discriminate].
    unfold bind, read in Hone.
    destruct (h !! l0) as [o|] eqn:Hl0; [|discriminate].
    pose proof (lookup_lt_Some _ _ _ Hl) as Hlt.
    assert (Hcases :
              (l0 = l /\ h1 !! l = Some (Obj (<[ToPropertyKey p0 := v]> fields)))
              \/ (l0 <> l /\ h1 !! l = Some (Obj fields))).
    { destruct (decide (l0 = l)) as [->|Hne].
      - left. split; [reflexivity|]. rewrite Hl in Hl0. inversion Hl0; subst o.
        unfold write in Hone. inversion Hone; subst h1.
        apply list_lookup_insert_eq, Hlt.
      - right. split; [exact Hne|].
        destruct o; unfold write in Hone; inversion Hone; subst h1;
          rewrite list_lookup_insert_ne by exact Hne; exact Hl. }
    destruct Hcases as [[-> Hl1]|[Hne Hl1]].
    + destruct (IH _ _ _ Hrun Hl1) as (fields' & Hl' & Hkeep & Hall).
      exists fields'. split; [exact Hl'|]. split.
      * intros Hv. apply Hkeep. destruct (decide (ToPropertyKey p0 = key)) as [->|Hk].
        -- apply lookup_insert_eq.
        -- rewrite lookup_insert_ne by exact Hk. exact Hv.
      * intros m property Hin Hp Hk Hkey. apply elem_of_cons in Hin as [->|Hin].
        -- apply Hkeep. rewrite Hk0 in Hk. inversion Hk; subst p0.
           rewrite Hkey. apply lookup_insert_eq.
        -- eapply Hall; eassumption.
    + destruct (IH _ _ _ Hrun Hl1) as (fields' & Hl' & Hkeep & Hall).
      exists fields'. split; [exact Hl'|]. split; [exact Hkeep|].
      intros m property Hin Hp Hk Hkey. apply elem_of_cons in Hin as [->|Hin].
      * rewrite Hp0 in Hp. inversion Hp. contradiction.
      * eapply Hall; eassumption.
Qed.

(** C1, as the script has it.  [applyExampleOverlays], when it returns,
    has left every object the heap held at the call as it was.  It loads
    the global actions, then those of the chain; when the two lists
    together hold at least one action the value it returns is the root
    of a clone made during the call, patched with the global actions
    followed by those of the chain, and never the caller's document;
    when both are empty it returns the caller's document itself and
    makes no clone.  [applyJsonPathOverlay] on its own returns the very
    value it was given, and a [set] it applies is written into the
    matched object of that document itself. *)
Theorem applyExampleOverlays_isolation
    (E : Env) (fuel : nat) (d : loc) (rpcUrl : option string)
    (w w' : World) (r : value) :
  resolverSound E ->
  applyExampleOverlays E fuel (VRef d) rpcUrl w = (Ok r, w') ->
  untouched (wheap w) (wheap w')
  /\ (r = VRef d
      \/ exists l : loc, r = VRef l /\ l <> d /\ (length (wheap w) <= l)%nat)
  /\ (forall (action : OverlayAction) (rest : list OverlayAction) (h1 : heap),
         loadOverlayActions E fuel (OVERLAYS_ROOT_DIR E) false (wheap w)
         = (Ok (action :: rest), h1) ->
         exists l : loc, r = VRef l /\ l <> d /\ (length (wheap w) <= l)%nat)
  /\ (forall h1 : heap,
         rpcUrl = None ->
         loadOverlayActions E fuel (OVERLAYS_ROOT_DIR E) false (wheap w) = (Ok [], h1) ->
         r = VRef d)
  /\ (forall (doc : value) (actions : list OverlayAction) (h h' : heap) (r' : value),
         applyJsonPathOverlay E doc actions h = (Ok r', h') -> r' = doc)
  /\ (exists (global scoped : list OverlayAction) (chainId : option string)
             (h1 h2 : heap) (n1 : Net),
         loadOverlayActions E fuel (OVERLAYS_ROOT_DIR E) false (wheap w) = (Ok global, h1)
         /\ resolveOverlayChainId E rpcUrl (wnet w) = (Ok chainId, n1)
         /\ scopedActions E fuel chainId h1 = (Ok scoped, h2)
         /\ (global ++ scoped = [] ->
             r = VRef d /\ w' = {| wheap := h2; wnet := n1 |})
         /\ (global ++ scoped <> [] ->
             exists (l : loc) (h3 : heap),
               r = VRef l /\ l <> d /\ (length (wheap w) <= l)%nat
               /\ (length h2 <= l)%nat
               /\ deepClone (VRef d) h2 = (Ok (VRef l), h3)
               /\ applyJsonPathOverlay E (VRef l) (global ++ scoped) h3
                  = (Ok (VRef l), wheap w')
               /\ wnet w' = n1))
  /\ (forall (doc : value) (t : string) (v : value) (h h' : heap) (r' : value)
             (matches : list JsonPathMatch) (m : JsonPathMatch)
             (l : loc) (property : PropKey) (fields : gmap string value),
         JSONPath E h doc t = Ok matches ->
         m ∈ matches ->
         parent m = Some l ->
         parentProperty m = Some property ->
         h !! l = Some (Obj fields) ->
         applyJsonPathOverlay E doc [ActionSet t v] h = (Ok r', h') ->
         r' = doc
         /\ exists fields' : gmap string value,
              h' !! l = Some (Obj fields')
              /\ fields' !! ToPropertyKey property = Some v).
Proof.
  intros Hsound Hrun.
  destruct (applyExampleOverlays_untouched E fuel d rpcUrl w w' r Hsound Hrun)
    as (Hsame & Hsplit & Hglobal & Hnone & Hdoc).
  split; [exact Hsame|]. split; [exact Hsplit|]. split; [exact Hglobal|].
  split; [exact Hnone|]. split; [exact Hdoc|]. split.
  - destruct (applyExampleOverlays_run E fuel (VRef d) rpcUrl w w' r Hrun)
      as (global & scoped & chainId & h1 & h2 & n1 & Hload & Hchain & Hscoped & Hcase).
    exists global, scoped, chainId, h1, h2, n1.
    split; [exact Hload|]. split; [exact Hchain|]. split; [exact Hscoped|].
    destruct (global ++ scoped) as [|action actions] eqn:Hactions; cbn [is_nil] in Hcase.
    + split; [intros _; exact Hcase|]. intros Hne. contradiction.
    + split; [discriminate|]. intros _.
      destruct Hcase as (clone & h3 & Hclone & Happly & Hnet).
      destruct (deepClone_isolated h2 d h2 h3 clone (isolated_start h2) Hclone)
        as (_ & l & -> & Hl).
      pose proof (deepClone_valid _ _ _ _ Hclone) as Hd.
      pose proof (applyJsonPathOverlay_returns_doc E _ _ _ _ _ Happly) as ->.
      assert (Hgrow : (length (wheap w) <= length h2)%nat).
      { destruct (loadOverlayActions_isolated (wheap w) E fuel _ _ _ _ _
                    (isolated_start (wheap w)) Hload) as [Hiso1 _].
        apply (isolated_length (wheap w)).
        exact (scopedActions_isolated E fuel chainId (wheap w) h1 h2 _ Hiso1 Hscoped). }
      exists l, h3. repeat split; try assumption; lia.
  - intros doc t v h h' r' matches m l property fields Hpath Hin Hp Hk Hl Hset.
    pose proof (applyJsonPathOverlay_returns_doc E _ _ _ _ _ Hset) as ->.
    split; [reflexivity|].
    cbn [applyJsonPathOverlay target] in Hset. unfold bind, selectNodes in Hset.
    rewrite Hpath in Hset. destruct (is_nil matches); [discriminate|].
    destruct (applyMatches matches (ActionSet t v) h) as [[[]|e] h2] eqn:Hm;
      [|discriminate].
    inversion Hset; subst.
    destruct (applyMatches_set_keeps t v l (ToPropertyKey property) _ _ _ _ Hm Hl)
      as (fields' & Hl' & _ & Hall).
    exists fields'. split; [exact Hl'|]. eapply Hall; eauto.
Qed.

(** *** The resolver of the demonstration is sound *)

Lemma reach_trans (h : heap) (v : value) (l l' : loc) :
  reach h v l -> reach h (VRef l) l' -> reach h v l'.
Proof.
  induction 1 as [l|l0 o v l Hl0 Hholds _ IH]; intros Hnext; [exact Hnext|].
  eapply reach_child; [exact Hl0|exact Hholds|]. apply IH, Hnext.
Qed.

Lemma child_holds (h : heap) (l : loc) (segment : string) (v : value) :
  Demo.child h l segment = Some v -> exists o : object, h !! l = Some o /\ holds o v.
Proof.
  unfold Demo.child. destruct (h !! l) as [[fields|elems props]|]; [| |discriminate].
  - intros Hf. eexists. split; [reflexivity|]. exists segment. exact Hf.
  - destruct (Demo.arrayIndex segment) as [i|]; [|discriminate].
    intros He. eexists. split; [reflexivity|]. left.
    eapply list_elem_of_lookup_2, He.
Qed.

Lemma walk_sound (h : heap) (doc : value) (segments : list string) :
  forall (par : option loc) (property : option PropKey) (v : value)
         (m : JsonPathMatch) (l : loc),
    (forall p : loc, par = Some p -> reach h doc p) ->
    (forall p : loc, v = VRef p -> reach h doc p) ->
    m ∈ Demo.walk h segments par property v ->
    parent m = Some l ->
    reach h doc l.
Proof.
  induction segments as [|segment segments IH]; intros par property v m l Hpar Hv Hin Hm.
  - cbn [Demo.walk] in Hin. apply list_elem_of_singleton in Hin. subst m.
    apply Hpar, Hm.
  - cbn [Demo.walk] in Hin.
    destruct v as [| | | | |p]; try (apply elem_of_nil in Hin; contradiction).
    destruct (Demo.child h p segment) as [v'|] eqn:Hchild;
      [|apply elem_of_nil in Hin; contradiction].
    destruct (child_holds _ _ _ _ Hchild) as (o & Hp & Hholds).
    eapply IH; [| |exact Hin|exact Hm].
    + intros q Hq. inversion Hq; subst. apply Hv. reflexivity.
    + intros q ->. eapply reach_trans; [apply Hv; reflexivity|].
      eapply reach_child; [exact Hp|exact Hholds|constructor].
Qed.

Lemma childPath_sound (E : Env) : JSONPath E = Demo.childPath -> resolverSound E.
Proof.
  intros HE h doc path matches m l Hpath Hin Hm. rewrite HE in Hpath.
  unfold Demo.childPath in Hpath.
  destruct (Demo.splitDots path) as [|first segments]; [discriminate|].
  destruct (String.eqb first "$"); [|discriminate].
  inversion Hpath; subst.
  eapply walk_sound; [| |exact Hin|exact Hm].
  - intros p Hp. discriminate.
  - intros p ->. constructor.
Qed.

Lemma applyExampleOverlays_isolation_witness :
  (applyExampleOverlays Demo.patched 1 (VRef 0%nat) None Demo.world0
   = (Ok (VRef 1%nat),
      {| wheap := [Obj {["title" := VStr "API"]}; Obj {["title" := VStr "v2"]}];
         wnet := Demo.net0 |})
   /\ untouched Demo.titleHeap
        [Obj {["title" := VStr "API"]}; Obj {["title" := VStr "v2"]}])
  /\ exists l : loc,
       fst (applyExampleOverlays Harvest.chainOnly 2 (VRef 0%nat)
              (Some "https://rpc.example") Demo.world0) = Ok (VRef l)
       /\ l <> 0%nat.
Proof.
  split.
  - assert (Hrun : applyExampleOverlays Demo.patched 1 (VRef 0%nat) None Demo.world0
                   = (Ok (VRef 1%nat),
                      {| wheap := [Obj {["title" := VStr "API"]};
                                   Obj {["title" := VStr "v2"]}];
                         wnet := Demo.net0 |}))
      by (vm_compute; reflexivity).
    split; [exact Hrun|].
    exact (proj1 (applyExampleOverlays_isolation Demo.patched 1 0%nat None Demo.world0 _ _
                    (childPath_sound Demo.patched eq_refl) Hrun)).
  - assert (Hrun : applyExampleOverlays Harvest.chainOnly 2 (VRef 0%nat)
                     (Some "https://rpc.example") Demo.world0
                   = (Ok (VRef 1%nat),
                      snd (applyExampleOverlays Harvest.chainOnly 2 (VRef 0%nat)
                             (Some "https://rpc.example") Demo.world0)))
      by (vm_compute; reflexivity).
    destruct (applyExampleOverlays_isolation Harvest.chainOnly 2 0%nat
                (Some "https://rpc.example") Demo.world0 _ _
                (childPath_sound Harvest.chainOnly eq_refl) Hrun)
      as (_ & _ & _ & _ & _ & Hsteps & _).
    destruct Hsteps
      as (global & scoped & chainId & h1 & h2 & n1 & Hload & Hchain & Hscoped & _ & Hclone).
    assert (Hg : loadOverlayActions Harvest.chainOnly 2
                   (OVERLAYS_ROOT_DIR Harvest.chainOnly) false (wheap Demo.world0)
                 = (Ok [], Demo.titleHeap)) by (vm_compute; reflexivity).
    rewrite Hg in Hload. inversion Hload; subst global h1.
    assert (Hc : resolveOverlayChainId Harvest.chainOnly (Some "https://rpc.example")
                   (wnet Demo.world0)
                 = (Ok (Some "11155111"),
                    sent (chainIdRequest "https://rpc.example") Demo.net0))
      by (vm_compute; reflexivity).
    rewrite Hc in Hchain. inversion Hchain; subst chainId n1.
    assert (Hs : scopedActions Harvest.chainOnly 2 (Some "11155111") Demo.titleHeap
                 = (Ok [ActionSet "$.title" (VStr "v2")], Demo.titleHeap))
      by (vm_compute; reflexivity).
    rewrite Hs in Hscoped. inversion Hscoped; subst scoped h2.
    destruct (Hclone ltac:(discriminate)) as (l & h3 & Hr & Hne & _).
    exists l. rewrite Hrun. cbn [fst]. split; [f_equal; exact Hr|exact Hne].
Defined.

(** C1 as the specification words it covers [applyJsonPathOverlay] too.
    Here that function changes the caller's object at location 0 and
    returns that same location. *)
Lemma applyJsonPathOverlay_in_place_counterexample :
  applyJsonPathOverlay Demo.bare (VRef 0%nat) [ActionSet "$.title" (VStr "v2")]
    Demo.titleHeap
  = (Ok (VRef 0%nat), [Obj {["title" := VStr "v2"]}])
  /\ Demo.titleHeap !! 0%nat <> ([Obj {["title" := VStr "v2"]}] : heap) !! 0%nat.
Proof. split; [vm_compute; reflexivity|vm_compute; discriminate]. Qed.

(** * Further properties *)

(** ** Numbers and their text *)

Ltac digit_step :=
  cbn [DecimalString.NilEmpty.string_of_uint HexadecimalString.NilEmpty.string_of_uint
       parse_digits_from];
  match goal with
  | |- context [digit_value ?c] =>
      let v := eval vm_compute in (digit_value c) in
      change (digit_value c) with v
  end;
  cbv iota beta;
  match goal with
  | |- context [?d <? ?b] =>
      let v := eval vm_compute in (d <? b) in
      change (d <? b) with v
  end;
  cbv iota.

Lemma parse_decimal_pos (d : Decimal.uint) :
  forall p : positive,
    parse_digits_from 10 (Z.pos p) (DecimalString.NilEmpty.string_of_uint d)
    = Some (Z.pos (Pos.of_uint_acc d p)).
Proof.
  induction d; intros p; try reflexivity; digit_step; cbn [Pos.of_uint_acc];
    match goal with
    | |- parse_digits_from 10 ?acc _ = Some (Z.pos (Pos.of_uint_acc _ ?q)) =>
        replace acc with (Z.pos q) by lia; apply IHd
    end.
Qed.

Lemma parse_decimal (d : Decimal.uint) :
  parse_digits_from 10 0 (DecimalString.NilEmpty.string_of_uint d)
  = Some (Z.of_uint d).
Proof.
  unfold Z.of_uint.
  induction d; try reflexivity; digit_step;
    cbn [Pos.of_uint Z.of_N]; try exact IHd;
    match goal with
    | |- parse_digits_from 10 ?acc _ = Some (Z.pos (Pos.of_uint_acc _ ?q)) =>
        change acc with (Z.pos q); apply parse_decimal_pos
    end.
Qed.

Lemma parse_hex_pos (d : Hexadecimal.uint) :
  forall p : positive,
    parse_digits_from 16 (Z.pos p) (HexadecimalString.NilEmpty.string_of_uint d)
    = Some (Z.pos (Pos.of_hex_uint_acc d p)).
Proof.
  induction d; intros p; try reflexivity; digit_step; cbn [Pos.of_hex_uint_acc];
    match goal with
    | |- parse_digits_from 16 ?acc _ = Some (Z.pos (Pos.of_hex_uint_acc _ ?q)) =>
        replace acc with (Z.pos q) by lia; apply IHd
    end.
Qed.

Lemma parse_hex (d : Hexadecimal.uint) :
  parse_digits_from 16 0 (HexadecimalString.NilEmpty.string_of_uint d)
  = Some (Z.of_hex_uint d).
Proof.
  unfold Z.of_hex_uint.
  induction d; try reflexivity; digit_step;
    cbn [Pos.of_hex_uint Z.of_N]; try exact IHd;
    match goal with
    | |- parse_digits_from 16 ?acc _ = Some (Z.pos (Pos.of_hex_uint_acc _ ?q)) =>
        change acc with (Z.pos q); apply parse_hex_pos
    end.
Qed.

Lemma trimEnd_decimal (d : Decimal.uint) :
  trimEnd (DecimalString.NilEmpty.string_of_uint d)
  = DecimalString.NilEmpty.string_of_uint d.
Proof.
  induction d; try reflexivity;
    cbn [DecimalString.NilEmpty.string_of_uint trimEnd]; rewrite IHd; reflexivity.
Qed.

Lemma trimEnd_hex (d : Hexadecimal.uint) :
  trimEnd (HexadecimalString.NilEmpty.string_of_uint d)
  = HexadecimalString.NilEmpty.string_of_uint d.
Proof.
  induction d; try reflexivity;
    cbn [HexadecimalString.NilEmpty.string_of_uint trimEnd]; rewrite IHd; reflexivity.
Qed.

Lemma trim_cons (a : ascii) (s : string) :
  is_white a = false -> trim (String a s) = String a (trimEnd s).
Proof.
  intros H. unfold trim. cbn [trimStart]. rewrite H. cbn [trimEnd]. rewrite H.
  reflexivity.
Qed.

Lemma trim_decimal (d : Decimal.uint) :
  trim (DecimalString.NilEmpty.string_of_uint d)
  = DecimalString.NilEmpty.string_of_uint d.
Proof.
  unfold trim.
  replace (trimStart (DecimalString.NilEmpty.string_of_uint d))
    with (DecimalString.NilEmpty.string_of_uint d) by (destruct d; reflexivity).
  apply trimEnd_decimal.
Qed.

Lemma StringToBigInt_decimal (d : Decimal.uint) :
  d <> Decimal.Nil ->
  StringToBigInt (DecimalString.NilEmpty.string_of_uint d) = Some (Z.of_uint d).
Proof.
  intros Hd. unfold StringToBigInt. rewrite trim_decimal.
  rewrite <- parse_decimal.
  destruct d as [|d|d|d|d|d|d|d|d|d|d]; try contradiction; try reflexivity.
  destruct d; reflexivity.
Qed.

Lemma StringToBigInt_toString10 (z : Z) : StringToBigInt (toString10 z) = Some z.
Proof.
  destruct z as [|p|p]; [reflexivity| |].
  - unfold toString10. cbn [Z.to_int DecimalString.NilZero.string_of_int].
    pose proof (DecimalPos.Unsigned.to_uint_nonnil p) as Hd.
    replace (DecimalString.NilZero.string_of_uint (Pos.to_uint p))
      with (DecimalString.NilEmpty.string_of_uint (Pos.to_uint p))
      by (destruct (Pos.to_uint p); try reflexivity; contradiction).
    rewrite (StringToBigInt_decimal _ Hd). unfold Z.of_uint.
    rewrite DecimalPos.Unsigned.of_to. reflexivity.
  - unfold toString10. cbn [Z.to_int DecimalString.NilZero.string_of_int].
    pose proof (DecimalPos.Unsigned.to_uint_nonnil p) as Hd.
    replace (DecimalString.NilZero.string_of_uint (Pos.to_uint p))
      with (DecimalString.NilEmpty.string_of_uint (Pos.to_uint p))
      by (destruct (Pos.to_uint p); try reflexivity; contradiction).
    unfold StringToBigInt. rewrite trim_cons by reflexivity.
    rewrite trimEnd_decimal. cbv iota beta.
    unfold parse_digits.
    replace (is_empty (DecimalString.NilEmpty.string_of_uint (Pos.to_uint p))) with false
      by (destruct (Pos.to_uint p); try reflexivity; contradiction).
    rewrite parse_decimal. unfold Z.of_uint.
    rewrite DecimalPos.Unsigned.of_to. reflexivity.
Qed.

Lemma StringToBigInt_hex (n : Z) :
  0 <= n -> StringToBigInt ("0x" +:+ toString16 n) = Some n.
Proof.
  intros Hn. destruct n as [|p|p]; [reflexivity| |lia].
  unfold toString16. cbn [Z.to_hex_int HexadecimalString.NilZero.string_of_int].
  pose proof (HexadecimalPos.Unsigned.to_uint_nonnil p) as Hd.
  replace (HexadecimalString.NilZero.string_of_uint (Pos.to_hex_uint p))
    with (HexadecimalString.NilEmpty.string_of_uint (Pos.to_hex_uint p))
    by (destruct (Pos.to_hex_uint p); try reflexivity; contradiction).
  unfold StringToBigInt.
  match goal with
  | |- context [String.append "0x" ?s] =>
      change (String.append "0x" s) with (String "0" (String "x" s))
  end.
  rewrite trim_cons by reflexivity. cbn [trimEnd].
  change (is_white "x") with false. cbn [andb].
  rewrite trimEnd_hex. cbv iota beta. unfold parse_digits.
  replace (is_empty (HexadecimalString.NilEmpty.string_of_uint (Pos.to_hex_uint p)))
    with false by (destruct (Pos.to_hex_uint p); try reflexivity; contradiction).
  rewrite parse_hex. unfold Z.of_hex_uint.
  rewrite HexadecimalPos.Unsigned.of_to. reflexivity.
Qed.

Lemma trimEnd_idempotent (s : string) : trimEnd (trimEnd s) = trimEnd s.
Proof.
  induction s as [|a r IH]; [reflexivity|]. cbn [trimEnd].
  destruct (is_white a && is_empty (trimEnd r)) eqn:Hc; [reflexivity|].
  cbn [trimEnd]. rewrite IH, Hc. reflexivity.
Qed.

Lemma trim_idempotent (s : string) : trim (trim s) = trim s.
Proof.
  unfold trim.
  assert (Hstart : forall t, trimStart (trimEnd (trimStart t)) = trimEnd (trimStart t)).
  { intros t. induction t as [|a r IH]; [reflexivity|]. cbn [trimStart].
    destruct (is_white a) eqn:Ha; [exact IH|].
    cbn [trimEnd]. rewrite Ha. cbn [andb trimStart]. rewrite Ha. reflexivity. }
  rewrite Hstart. apply trimEnd_idempotent.
Qed.

Lemma toString10_not_empty (z : Z) : is_empty (toString10 z) = false.
Proof.
  destruct z as [|p|p]; [reflexivity| |reflexivity].
  unfold toString10. cbn [Z.to_int DecimalString.NilZero.string_of_int].
  destruct (Pos.to_uint p); reflexivity.
Qed.

Lemma normalizeChainId_decimal (z : Z) : normalizeChainId (toString10 z) = Ok (toString10 z).
Proof.
  pose proof (StringToBigInt_toString10 z) as Hparse.
  assert (Htrim : trim (toString10 z) = toString10 z).
  { destruct z as [|p|p]; [reflexivity| |].
    - unfold toString10. cbn [Z.to_int DecimalString.NilZero.string_of_int].
      destruct (Pos.to_uint p) eqn:Hd; try reflexivity;
        rewrite <- Hd; cbn [DecimalString.NilZero.string_of_uint];
        rewrite Hd; apply trim_decimal.
    - unfold toString10. cbn [Z.to_int DecimalString.NilZero.string_of_int].
      rewrite trim_cons by reflexivity. f_equal.
      destruct (Pos.to_uint p) eqn:Hd; try reflexivity; apply trimEnd_decimal. }
  unfold normalizeChainId. rewrite Htrim, toString10_not_empty, Hparse. reflexivity.
Qed.

Lemma normalizeChainId_hex (n : Z) :
  0 <= n -> normalizeChainId ("0x" +:+ toString16 n) = Ok (toString10 n).
Proof.
  intros Hn.
  pose proof (StringToBigInt_hex n Hn) as Hparse.
  unfold normalizeChainId.
  assert (Htrim : StringToBigInt (trim ("0x" +:+ toString16 n)) = Some n).
  { unfold StringToBigInt in *. rewrite trim_idempotent. exact Hparse. }
  rewrite Htrim.
  replace (is_empty (trim ("0x" +:+ toString16 n))) with false; [reflexivity|].
  match goal with
  | |- context [String.append "0x" ?s] =>
      change (String.append "0x" s) with (String "0" (String "x" s))
  end.
  rewrite trim_cons by reflexivity. reflexivity.
Qed.

(** X1: the hexadecimal and the decimal spelling of one chain id
    normalise to the same text, the decimal one, which is therefore the
    one name of the chain's overlay directory. *)
Theorem normalizeChainId_canonical (n : Z) :
  0 <= n ->
  normalizeChainId ("0x" +:+ toString16 n) = Ok (toString10 n)
  /\ normalizeChainId (toString10 n) = Ok (toString10 n).
Proof.
  intros Hn. split; [apply normalizeChainId_hex, Hn|apply normalizeChainId_decimal].
Qed.

Lemma normalizeChainId_canonical_witness :
  normalizeChainId ("0x" +:+ toString16 11155111) = Ok (toString10 11155111)
  /\ normalizeChainId (toString10 11155111) = Ok (toString10 11155111).
Proof. apply (normalizeChainId_canonical 11155111). lia. Defined.

Lemma normalizeChainId_not_empty (value id : string) :
  normalizeChainId value = Ok id -> is_empty id = false.
Proof.
  unfold normalizeChainId.
  destruct (is_empty (trim value)) eqn:He; [discriminate|].
  destruct (StringToBigInt (trim value)); intros H; inversion H; subst;
    [apply toString10_not_empty|exact He].
Qed.

(** X2: what [normalizeChainId] returns is never the empty text and is
    left as it is by a second normalisation. *)
Theorem normalizeChainId_fixed_point (value id : string) :
  normalizeChainId value = Ok id ->
  is_empty id = false /\ normalizeChainId id = Ok id.
Proof.
  unfold normalizeChainId at 1.
  destruct (is_empty (trim value)) eqn:He; [discriminate|].
  destruct (StringToBigInt (trim value)) as [n|] eqn:Hn; intros H; inversion H; subst.
  - split; [apply toString10_not_empty|apply normalizeChainId_decimal].
  - split; [exact He|]. unfold normalizeChainId.
    rewrite trim_idempotent, He, Hn. reflexivity.
Qed.

Lemma normalizeChainId_fixed_point_witness :
  is_empty "11155111" = false /\ normalizeChainId "11155111" = Ok "11155111".
Proof. apply (normalizeChainId_fixed_point " 0xAA36A7 " "11155111"). reflexivity. Defined.

(** X3: the height text the searches send, [0x] and the hexadecimal
    digits of the height, is read back by [hexToBigInt] as that height. *)
Theorem hexToBigInt_candidate (current : Z) :
  0 <= current -> hexToBigInt (JStr ("0x" +:+ toString16 current)) = Ok current.
Proof.
  intros Hc. unfold hexToBigInt, BigInt. rewrite (StringToBigInt_hex current Hc).
  reflexivity.
Qed.

Lemma hexToBigInt_candidate_witness :
  hexToBigInt (JStr ("0x" +:+ toString16 4660)) = Ok 4660.
Proof. apply (hexToBigInt_candidate 4660). lia. Defined.

(** ** The JSON-RPC client, further *)

(** X4: what [jsonRpcRequest] makes of a response.  A status outside 2xx
    is an error whatever the body says; in a 2xx object body a truthy
    [error] is an error even beside a [result]; an [error] that is absent
    or falsy ([null], [false], [0], the empty text) is no error, and the
    [result] beside it is returned, [null] included.  In every case one
    request has been sent. *)
Theorem jsonRpcRequest_outcomes
    (E : Env) (rpcUrl method : string) (params : list json) (n : Net)
    (response : Response) :
  fetch E (trace n) {| req_url := rpcUrl; req_method := method; req_params := params |}
    = Responded response ->
  (resp_ok response = false ->
   fst (jsonRpcRequest E rpcUrl method params n)
   = Err (RpcHttpError rpcUrl (resp_status response) (resp_statusText response)))
  /\ (forall (fields : list (string * json)) (error : json),
         resp_ok response = true ->
         resp_body response = Some (JObj fields) ->
         jfield "error" fields = Some error ->
         truthy (Some error) = true ->
         fst (jsonRpcRequest E rpcUrl method params n) = Err (RpcError error))
  /\ (forall (fields : list (string * json)) (r : json),
         resp_ok response = true ->
         resp_body response = Some (JObj fields) ->
         truthy (jfield "error" fields) = false ->
         jfield "result" fields = Some r ->
         fst (jsonRpcRequest E rpcUrl method params n) = Ok r)
  /\ snd (jsonRpcRequest E rpcUrl method params n)
     = sent {| req_url := rpcUrl; req_method := method; req_params := params |} n.
Proof.
  intros Hf. split; [|split; [|split]].
  - intros Hok. unfold jsonRpcRequest, bind, post. rewrite Hf, Hok. reflexivity.
  - intros fields error Hok Hb He Ht.
    unfold jsonRpcRequest, bind, post. rewrite Hf, Hok. cbn [negb]. rewrite Hb.
    cbn [lift jprop]. rewrite He, Ht.
    destruct error; try discriminate; reflexivity.
  - intros fields r Hok Hb He Hr.
    unfold jsonRpcRequest, bind, post. rewrite Hf, Hok. cbn [negb]. rewrite Hb.
    cbn [lift jprop]. rewrite He, Hr. reflexivity.
  - apply jsonRpcRequest_sent.
Qed.

Lemma jsonRpcRequest_outcomes_witness :
  fst (jsonRpcRequest Harvest.nullError "https://rpc.example" "eth_getCode" [] Demo.net0)
  = Ok JNull.
Proof.
  apply (proj1 (proj2 (proj2
           (jsonRpcRequest_outcomes Harvest.nullError "https://rpc.example" "eth_getCode" []
              Demo.net0 Harvest.nullErrorResponse eq_refl)))
           [("error", JNull); ("result", JNull)] JNull); reflexivity.
Defined.

(** X5: when the endpoint answers the chain-id query with the
    hexadecimal text of a chain id, [resolveOverlayChainId] returns its
    decimal text, after one request and without a warning. *)
Theorem resolveOverlayChainId_success
    (E : Env) (rpcUrl : string) (n : Net) (chain : Z) :
  is_empty rpcUrl = false ->
  0 <= chain ->
  fst (jsonRpcRequest E rpcUrl "eth_chainId" [] n) = Ok (JStr ("0x" +:+ toString16 chain)) ->
  resolveOverlayChainId E (Some rpcUrl) n
  = (Ok (Some (toString10 chain)), sent (chainIdRequest rpcUrl) n).
Proof.
  intros Hurl Hchain Hanswer.
  destruct rpcUrl as [|a url]; [discriminate|].
  unfold resolveOverlayChainId, try_catch, bind.
  rewrite (jsonRpcRequest_eq E _ _ _ n _ Hanswer).
  unfold lift, normalizeChainIdOf.
  rewrite (normalizeChainId_hex chain Hchain). reflexivity.
Qed.

Lemma resolveOverlayChainId_success_witness :
  resolveOverlayChainId Demo.sixBlockChain (Some "https://rpc.example") Demo.net0
  = (Ok (Some (toString10 11155111)), sent (chainIdRequest "https://rpc.example") Demo.net0).
Proof.
  apply (resolveOverlayChainId_success Demo.sixBlockChain "https://rpc.example"
           Demo.net0 11155111); [reflexivity|lia|reflexivity].
Defined.

(** ** The block search, further *)

Lemma nullish_not_null (a : option json) (b : json) : b <> JNull -> nullish a b <> JNull.
Proof. intros Hb. destruct a as [[]|]; simpl; try discriminate; exact Hb. Qed.

Lemma findBlockLoop_hit (E : Env) (rpcUrl : string) (attempts : nat) :
  forall (current : Z) (n n' : Net) (c : BlockCandidate),
    findBlockLoop E rpcUrl attempts current n = (Ok (Some c), n') ->
    hasTransactions (block c) = true /\ number c <> JNull.
Proof.
  induction attempts as [|attempts IH]; intros current n n' c Hrun; [discriminate|].
  cbn [findBlockLoop] in Hrun.
  destruct (current <? 0); [discriminate|].
  unfold bind at 1 in Hrun.
  destruct (jsonRpcRequest E rpcUrl "eth_getBlockByNumber" _ n) as [[b|e] n1];
    [|discriminate].
  fold (hasTransactions b) in Hrun.
  destruct (truthy (Some b) && hasTransactions b) eqn:Hb.
  - apply andb_prop in Hb as [_ Hb]. unfold bind, lift, ret in Hrun.
    destruct (jprop b "number") as [num|e]; [|discriminate].
    inversion Hrun; subst. cbn [block number].
    split; [exact Hb|]. apply nullish_not_null. discriminate.
  - eapply IH, Hrun.
Qed.

Lemma findBlockWithTransactions_hit
    (E : Env) (rpcUrl : string) (startBlock : json) (n n' : Net) (c : BlockCandidate) :
  findBlockWithTransactions E rpcUrl startBlock n = (Ok c, n') ->
  hasTransactions (block c) = true /\ number c <> JNull.
Proof.
  unfold findBlockWithTransactions, bind, lift. intros Hrun.
  destruct (hexToBigInt startBlock) as [start|e]; [|discriminate].
  destruct (findBlockLoop E rpcUrl 64 start n) as [[[found|]|e] n1] eqn:Hloop;
    try discriminate.
  inversion Hrun; subst. eapply findBlockLoop_hit, Hloop.
Qed.

(** X6: a block that [findBlockWithTransactions] returns always has a
    non-empty transaction list, and the number returned with it is never
    [null], whatever the endpoint answered on the way. *)
Theorem findBlockWithTransactions_returns_transactions
    (E : Env) (rpcUrl : string) (startBlock : json) (n n' : Net) (c : BlockCandidate) :
  findBlockWithTransactions E rpcUrl startBlock n = (Ok c, n') ->
  hasTransactions (block c) = true /\ number c <> JNull.
Proof. apply findBlockWithTransactions_hit. Qed.

Lemma findBlockWithTransactions_returns_transactions_witness :
  hasTransactions (Demo.sixBlocks 2) = true /\ JStr "0x2" <> JNull.
Proof.
  exact (findBlockWithTransactions_returns_transactions Demo.sixBlockChain
           "https://rpc.example" (JStr "0x5") Demo.net0
           {| trace := walkRequests "https://rpc.example" 5 4; warnings := [] |}
           {| number := JStr "0x2"; block := Demo.sixBlocks 2 |} eq_refl).
Defined.

(** X7: a start that is no number, or a negative one, ends the search
    before any request is sent: with "Invalid hex value" in the first
    case, with "Failed to find block with transactions" in the second. *)
Theorem findBlockWithTransactions_bad_start
    (E : Env) (rpcUrl : string) (startBlock : json) (n : Net) :
  (BigInt startBlock = None ->
   findBlockWithTransactions E rpcUrl startBlock n = (Err (InvalidHex startBlock), n))
  /\ (forall start : Z,
         BigInt startBlock = Some start -> start < 0 ->
         findBlockWithTransactions E rpcUrl startBlock n
         = (Err (NoBlockWithTransactions startBlock rpcUrl), n)).
Proof.
  split.
  - intros H. unfold findBlockWithTransactions, bind, lift, hexToBigInt.
    rewrite H. reflexivity.
  - intros start H Hneg. unfold findBlockWithTransactions, bind, lift, hexToBigInt.
    rewrite H. cbn [findBlockLoop].
    destruct (Z.ltb_spec start 0) as [_|?]; [reflexivity|lia].
Qed.

Lemma findBlockWithTransactions_bad_start_witness :
  findBlockWithTransactions Demo.sixBlockChain "https://rpc.example" (JStr "latest")
    Demo.net0
  = (Err (InvalidHex (JStr "latest")), Demo.net0)
  /\ findBlockWithTransactions Demo.sixBlockChain "https://rpc.example" (JStr "-1")
       Demo.net0
     = (Err (NoBlockWithTransactions (JStr "-1") "https://rpc.example"), Demo.net0).
Proof.
  split.
  - apply (proj1 (findBlockWithTransactions_bad_start Demo.sixBlockChain
                    "https://rpc.example" (JStr "latest") Demo.net0)).
    reflexivity.
  - apply (proj2 (findBlockWithTransactions_bad_start Demo.sixBlockChain
                    "https://rpc.example" (JStr "-1") Demo.net0) (-1));
      [reflexivity|lia].
Defined.

Lemma findBlockLoop_aborts (E : Env) (rpcUrl : string) (feed : Z -> json) (e : exn)
    (k : nat) :
  forall (attempts : nat) (current : Z) (n : Net),
    (k < attempts)%nat ->
    Z.of_nat k <= current ->
    blocksAnswer E rpcUrl feed (current - Z.of_nat k + 1) current ->
    (forall j : nat, (j < k)%nat -> hasTransactions (feed (current - Z.of_nat j)) = false) ->
    (forall m : Net,
        fst (jsonRpcRequest E rpcUrl "eth_getBlockByNumber"
               [JStr ("0x" +:+ toString16 (current - Z.of_nat k)); JBool false] m)
        = Err e) ->
    findBlockLoop E rpcUrl attempts current n
    = (Err e, {| trace := trace n ++ walkRequests rpcUrl current (S k);
                 warnings := warnings n |}).
Proof.
  induction k as [|k IH]; intros attempts current n Hlt Hk Hans Hempty Hfail.
  - destruct attempts as [|attempts]; [lia|].
    replace (current - Z.of_nat 0) with current in * by lia.
    cbn [findBlockLoop].
    destruct (Z.ltb_spec current 0) as [?|_]; [lia|].
    erewrite bind_err by (apply jsonRpcRequest_eq, Hfail).
    rewrite walkRequests_S. reflexivity.
  - destruct attempts as [|attempts]; [lia|].
    cbn [findBlockLoop].
    destruct (Z.ltb_spec current 0) as [?|_]; [lia|].
    erewrite bind_ok by (eapply getBlock_answer; [exact Hans|lia]).
    fold (hasTransactions (feed current)).
    specialize (Hempty 0%nat ltac:(lia)) as H0.
    replace (current - Z.of_nat 0) with current in H0 by lia.
    rewrite H0, andb_false_r.
    replace (current - Z.of_nat (S k)) with (current - 1 - Z.of_nat k) in * by lia.
    rewrite (IH attempts (current - 1)); try lia; try assumption.
    + unfold sent. cbn [trace warnings]. rewrite <- app_assoc.
      rewrite (walkRequests_S rpcUrl current (S k)). reflexivity.
    + intros m c Hc. apply Hans. lia.
    + intros j Hj. specialize (Hempty (S j) ltac:(lia)).
      replace (current - 1 - Z.of_nat j) with (current - Z.of_nat (S j)) by lia.
      exact Hempty.
Qed.

(** X8: a block query that fails is not skipped.  When the blocks above
    it had no transactions and the query for the next block fails, the
    search ends with that error right after that request; the blocks
    below are never asked for. *)
Theorem findBlockWithTransactions_query_failure
    (E : Env) (rpcUrl : string) (feed : Z -> json)
    (startBlock : json) (start : Z) (k : nat) (e : exn) (n : Net) :
  hexToBigInt startBlock = Ok start ->
  (k < 64)%nat ->
  Z.of_nat k <= start ->
  blocksAnswer E rpcUrl feed (start - Z.of_nat k + 1) start ->
  (forall j : nat, (j < k)%nat -> hasTransactions (feed (start - Z.of_nat j)) = false) ->
  (forall m : Net,
      fst (jsonRpcRequest E rpcUrl "eth_getBlockByNumber"
             [JStr ("0x" +:+ toString16 (start - Z.of_nat k)); JBool false] m)
      = Err e) ->
  findBlockWithTransactions E rpcUrl startBlock n
  = (Err e, {| trace := trace n ++ walkRequests rpcUrl start (S k);
               warnings := warnings n |}).
Proof.
  intros Hstart Hk Hle Hans Hempty Hfail. unfold findBlockWithTransactions.
  rewrite (bind_ok _ _ n n start) by (unfold lift; rewrite Hstart; reflexivity).
  apply bind_err. apply findBlockLoop_aborts with (feed := feed); assumption.
Qed.

Lemma findBlockWithTransactions_query_failure_witness :
  findBlockWithTransactions Harvest.timeoutAt3 "https://rpc.example" (JStr "0x5") Demo.net0
  = (Err (FetchFailed "timeout"),
     {| trace := walkRequests "https://rpc.example" 5 3; warnings := [] |}).
Proof.
  apply (findBlockWithTransactions_query_failure Harvest.timeoutAt3 "https://rpc.example"
           Demo.sixBlocks (JStr "0x5") 5 2 (FetchFailed "timeout") Demo.net0).
  - reflexivity.
  - lia.
  - lia.
  - intros n current Hc.
    assert (H : current = 4 \/ current = 5) by lia.
    destruct H as [->| ->]; reflexivity.
  - intros j Hj.
    assert (H : j = 0%nat \/ j = 1%nat) by lia.
    destruct H as [->| ->]; reflexivity.
  - intros m. reflexivity.
Defined.

(** ** The logs search, further *)

Section LogsSearchFurther.

Variables (E : Env) (rpcUrl : string).

Lemma findLogsLoop_context (attempts : nat) :
  forall (current : Z) (n n' : Net) (found : LogsContext),
    findLogsLoop E rpcUrl attempts current n = (Ok (Some found), n') ->
    logs found <> []
    /\ exists h : json, request found = JObj [("blockHash", h)] /\ truthy (Some h) = true.
Proof.
  induction attempts as [|attempts IH]; intros current n n' found Hrun; [discriminate|].
  cbn [findLogsLoop] in Hrun.
  destruct (current <? 0); [discriminate|].
  unfold bind at 1 in Hrun.
  destruct (jsonRpcRequest E rpcUrl "eth_getBlockByNumber" _ n) as [[b|e] n1];
    [|discriminate].
  destruct (truthy (jprop_opt b "hash")) eqn:Hh; cbn [negb] in Hrun;
    [|eapply IH, Hrun].
  unfold bind at 1 in Hrun. rewrite safeGetLogs_eq in Hrun.
  match type of Hrun with
  | context [is_nil ?l] => destruct l as [|entry entries] eqn:Hl
  end; cbn [is_nil negb] in Hrun; [eapply IH, Hrun|].
  unfold bind, lift, ret in Hrun. rewrite (truthy_property b "hash" "number" Hh) in Hrun.
  inversion Hrun; subst. cbn [logs request].
  split; [discriminate|].
  exists (nullish (jprop_opt b "hash") JNull). split; [reflexivity|].
  destruct (jprop_opt b "hash") as [[]|]; try discriminate; exact Hh.
Qed.

Variables (feed : Z -> json) (logsOf : json -> list json).

Lemma findLogsLoop_found (k : nat) :
  forall (attempts : nat) (current : Z) (n : Net),
    (k < attempts)%nat ->
    Z.of_nat k <= current ->
    blocksAnswer E rpcUrl feed (current - Z.of_nat k) current ->
    logsAnswer E rpcUrl logsOf ->
    (forall j : nat, (j < k)%nat -> blockLogs logsOf (feed (current - Z.of_nat j)) = []) ->
    blockLogs logsOf (feed (current - Z.of_nat k)) <> [] ->
    fst (findLogsLoop E rpcUrl attempts current n)
    = Ok (Some {| blockNumber :=
                    nullish (jprop_opt (feed (current - Z.of_nat k)) "number")
                      (JStr ("0x" +:+ toString16 (current - Z.of_nat k)));
                  request := hashFilter (feed (current - Z.of_nat k));
                  logs := blockLogs logsOf (feed (current - Z.of_nat k)) |}).
Proof.
  induction k as [|k IH]; intros attempts current n Hlt Hk Hans Hlogs Hempty Hhit.
  - destruct attempts as [|attempts]; [lia|].
    replace (current - Z.of_nat 0) with current in * by lia.
    cbn [findLogsLoop].
    destruct (Z.ltb_spec current 0) as [?|_]; [lia|].
    erewrite bind_ok by (eapply getBlock_answer; [exact Hans|lia]).
    unfold blockLogs in Hhit |- *.
    destruct (truthy (jprop_opt (feed current) "hash")) eqn:Hh; [|contradiction].
    cbn [negb]. fold (hashFilter (feed current)).
    erewrite bind_ok by (apply safeGetLogs_answer, Hlogs).
    destruct (logsOf (hashFilter (feed current))) as [|entry entries] eqn:Hl;
      [contradiction|].
    cbn [is_nil negb]. unfold bind, lift, ret.
    rewrite (truthy_property _ "hash" "number" Hh). reflexivity.
  - destruct attempts as [|attempts]; [lia|].
    cbn [findLogsLoop].
    destruct (Z.ltb_spec current 0) as [?|_]; [lia|].
    erewrite bind_ok by (eapply getBlock_answer; [exact Hans|lia]).
    specialize (Hempty 0%nat ltac:(lia)) as H0.
    replace (current - Z.of_nat 0) with current in H0 by lia.
    replace (current - Z.of_nat (S k)) with (current - 1 - Z.of_nat k) in * by lia.
    assert (Hnext : forall m,
               fst (findLogsLoop E rpcUrl attempts (current - 1) m)
               = Ok (Some {| blockNumber :=
                               nullish (jprop_opt (feed (current - 1 - Z.of_nat k)) "number")
                                 (JStr ("0x" +:+ toString16 (current - 1 - Z.of_nat k)));
                             request := hashFilter (feed (current - 1 - Z.of_nat k));
                             logs := blockLogs logsOf (feed (current - 1 - Z.of_nat k)) |})).
    { intros m. apply IH; try lia; try assumption.
      - intros m' c Hc. apply Hans. lia.
      - intros j Hj. specialize (Hempty (S j) ltac:(lia)).
        replace (current - 1 - Z.of_nat j) with (current - Z.of_nat (S j)) by lia.
        exact Hempty. }
    unfold blockLogs in H0.
    destruct (truthy (jprop_opt (feed current) "hash")) eqn:Hh; cbn [negb];
      [|apply Hnext].
    fold (hashFilter (feed current)).
    erewrite bind_ok by (apply safeGetLogs_answer, Hlogs).
    rewrite H0. cbn [is_nil negb]. apply Hnext.
Qed.

Lemma findLogsLoop_aborts (e : exn) (k : nat) :
  forall (attempts : nat) (current : Z) (n : Net),
    (k < attempts)%nat ->
    Z.of_nat k <= current ->
    blocksAnswer E rpcUrl feed (current - Z.of_nat k + 1) current ->
    noLogs E rpcUrl ->
    (forall m : Net,
        fst (jsonRpcRequest E rpcUrl "eth_getBlockByNumber"
               [JStr ("0x" +:+ toString16 (current - Z.of_nat k)); JBool false] m)
        = Err e) ->
    fst (findLogsLoop E rpcUrl attempts current n) = Err e.
Proof.
  induction k as [|k IH]; intros attempts current n Hlt Hk Hans Hno Hfail.
  - destruct attempts as [|attempts]; [lia|].
    replace (current - Z.of_nat 0) with current in * by lia.
    cbn [findLogsLoop].
    destruct (Z.ltb_spec current 0) as [?|_]; [lia|].
    erewrite bind_err by (apply jsonRpcRequest_eq, Hfail). reflexivity.
  - destruct attempts as [|attempts]; [lia|].
    cbn [findLogsLoop].
    destruct (Z.ltb_spec current 0) as [?|_]; [lia|].
    erewrite bind_ok by (eapply getBlock_answer; [exact Hans|lia]).
    replace (current - Z.of_nat (S k)) with (current - 1 - Z.of_nat k) in * by lia.
    assert (Hnext : forall m, fst (findLogsLoop E rpcUrl attempts (current - 1) m) = Err e).
    { intros m. apply IH; try lia; try assumption.
      intros m' c Hc. apply Hans. lia. }
    destruct (truthy (jprop_opt (feed current) "hash")); cbn [negb]; [|apply Hnext].
    erewrite bind_ok by apply safeGetLogs_eq.
    rewrite noLogs_empty by exact Hno. cbn [is_nil negb]. apply Hnext.
Qed.

End LogsSearchFurther.

(** X9: when the chosen block has no logs, the walk below it returns the
    first block that has a usable hash and a non-empty logs answer: its
    entries, the filter by its hash, and its number (or the height text
    it was asked by, when the block carries no number).  With the block
    right below the chosen one this is the case "the preceding block's
    logs and filter, not the starting block's". *)
Theorem findLogsCandidate_walk_hit
    (E : Env) (rpcUrl : string) (feed : Z -> json) (logsOf : json -> list json)
    (block fallbackNumber : json) (hash : string) (start : Z) (k : nat) (n : Net) :
  jprop_opt block "hash" = Some (JStr hash) ->
  is_empty hash = false ->
  hexToBigInt fallbackNumber = Ok start ->
  logsAnswer E rpcUrl logsOf ->
  logsOf (JObj [("blockHash", JStr hash)]) = [] ->
  (k < 64)%nat ->
  Z.of_nat k <= start - 1 ->
  blocksAnswer E rpcUrl feed (start - 1 - Z.of_nat k) (start - 1) ->
  (forall j : nat, (j < k)%nat -> blockLogs logsOf (feed (start - 1 - Z.of_nat j)) = []) ->
  blockLogs logsOf (feed (start - 1 - Z.of_nat k)) <> [] ->
  fst (findLogsCandidate E rpcUrl block fallbackNumber n)
  = Ok (Some {| blockNumber :=
                  nullish (jprop_opt (feed (start - 1 - Z.of_nat k)) "number")
                    (JStr ("0x" +:+ toString16 (start - 1 - Z.of_nat k)));
                request := hashFilter (feed (start - 1 - Z.of_nat k));
                logs := blockLogs logsOf (feed (start - 1 - Z.of_nat k)) |}).
Proof.
  intros Hh Hne Hstart Hlogs Hfirst Hk Hle Hans Hempty Hhit.
  assert (Hb : jprop block "hash" = Ok (Some (JStr hash))).
  { destruct block; simpl in Hh; try discriminate. simpl. rewrite Hh. reflexivity. }
  unfold findLogsCandidate.
  rewrite (bind_ok _ _ n n (Some (JStr hash))) by (unfold lift; rewrite Hb; reflexivity).
  rewrite Hne.
  erewrite bind_ok by (apply safeGetLogs_answer, Hlogs).
  rewrite Hfirst. cbn [is_nil negb].
  erewrite bind_ok by (unfold lift; rewrite Hstart; reflexivity).
  apply findLogsLoop_found; assumption.
Qed.

Lemma findLogsCandidate_walk_hit_witness :
  fst (findLogsCandidate Harvest.logsAt3 "https://rpc.example"
         (Demo.sixBlocks 5) (JStr "0x5") Demo.net0)
  = Ok (Some {| blockNumber := JStr "0x3";
                request := JObj [("blockHash", JStr "0xb10c3")];
                logs := Harvest.logsOf3 (JObj [("blockHash", JStr "0xb10c3")]) |}).
Proof.
  apply (findLogsCandidate_walk_hit Harvest.logsAt3 "https://rpc.example"
           Demo.sixBlocks Harvest.logsOf3 (Demo.sixBlocks 5) (JStr "0x5") "0xb10c5" 5 1
           Demo.net0); try reflexivity; try lia.
  - exact sixBlocks_logsAt3.
  - intros n current Hc. apply (sixBlocks_answer_logsAt3 0); lia.
  - intros j Hj. assert (j = 0%nat) as -> by lia. reflexivity.
  - discriminate.
Defined.

Lemma findLogsCandidate_hit
    (E : Env) (rpcUrl : string) (block fallbackNumber : json)
    (n n' : Net) (found : LogsContext) :
  findLogsCandidate E rpcUrl block fallbackNumber n = (Ok (Some found), n') ->
  logs found <> []
  /\ exists h : json, request found = JObj [("blockHash", h)] /\ truthy (Some h) = true.
Proof.
  unfold findLogsCandidate. intros Hrun.
  unfold bind at 1 in Hrun. unfold lift at 1 in Hrun.
  destruct (jprop block "hash") as [[[| | |hash| |]|]|e]; try discriminate.
  destruct (is_empty hash) eqn:Hne; [discriminate|].
  unfold bind at 1 in Hrun. rewrite safeGetLogs_eq in Hrun.
  match type of Hrun with
  | context [is_nil ?l] => destruct l as [|entry entries] eqn:Hl
  end; cbn [is_nil negb] in Hrun.
  - unfold bind at 1 in Hrun. unfold lift at 1 in Hrun.
    destruct (hexToBigInt fallbackNumber) as [start|e]; [|discriminate].
    eapply findLogsLoop_context, Hrun.
  - unfold bind, lift, ret in Hrun.
    destruct (jprop block "number") as [num|e]; [|discriminate].
    inversion Hrun; subst. cbn [logs request].
    split; [discriminate|]. exists (JStr hash). split; [reflexivity|].
    simpl. rewrite Hne. reflexivity.
Qed.

(** X10: a logs context that [findLogsCandidate] returns always holds at
    least one log entry, and its filter is exactly [{ blockHash }] with a
    truthy hash. *)
Theorem findLogsCandidate_context
    (E : Env) (rpcUrl : string) (block fallbackNumber : json)
    (n n' : Net) (found : LogsContext) :
  findLogsCandidate E rpcUrl block fallbackNumber n = (Ok (Some found), n') ->
  logs found <> []
  /\ exists h : json, request found = JObj [("blockHash", h)] /\ truthy (Some h) = true.
Proof. apply findLogsCandidate_hit. Qed.

Lemma findLogsCandidate_context_witness :
  Harvest.logsOf3 (JObj [("blockHash", JStr "0xb10c3")]) <> []
  /\ exists h : json,
       JObj [("blockHash", JStr "0xb10c3")] = JObj [("blockHash", h)]
       /\ truthy (Some h) = true.
Proof.
  exact (findLogsCandidate_context Harvest.logsAt3 "https://rpc.example"
           (Demo.sixBlocks 3) (JStr "0x3") Demo.net0
           (sent (logsRequest "https://rpc.example" (JObj [("blockHash", JStr "0xb10c3")]))
              Demo.net0)
           {| blockNumber := JStr "0x3";
              request := JObj [("blockHash", JStr "0xb10c3")];
              logs := Harvest.logsOf3 (JObj [("blockHash", JStr "0xb10c3")]) |}
           eq_refl).
Defined.

(** X11: a block whose [hash] is missing, not a text, or the empty text
    gets no logs context and costs no request; and when the chosen
    block's own logs are not empty they are returned after that single
    request, numbered by the block's number or else by the fallback,
    which is then not even parsed. *)
Theorem findLogsCandidate_immediate
    (E : Env) (rpcUrl : string) (block fallbackNumber : json) (n : Net) :
  (forall h : option json,
      jprop block "hash" = Ok h ->
      (forall hash : string, h = Some (JStr hash) -> is_empty hash = true) ->
      findLogsCandidate E rpcUrl block fallbackNumber n = (Ok None, n))
  /\ (forall (hash : string) (entry : json) (entries : list json),
         jprop_opt block "hash" = Some (JStr hash) ->
         is_empty hash = false ->
         fst (safeGetLogs E rpcUrl (JObj [("blockHash", JStr hash)]) n)
           = Ok (entry :: entries) ->
         findLogsCandidate E rpcUrl block fallbackNumber n
         = (Ok (Some {| blockNumber := nullish (jprop_opt block "number") fallbackNumber;
                        request := JObj [("blockHash", JStr hash)];
                        logs := entry :: entries |}),
            sent (logsRequest rpcUrl (JObj [("blockHash", JStr hash)])) n)).
Proof.
  split.
  - intros h Hh Hbad. unfold findLogsCandidate, bind, lift. rewrite Hh.
    destruct h as [[| | |hash| |]|]; try reflexivity.
    rewrite (Hbad hash eq_refl). reflexivity.
  - intros hash entry entries Hh Hne Hlogs.
    assert (Hb : jprop block "hash" = Ok (Some (JStr hash))
                 /\ jprop block "number" = Ok (jprop_opt block "number")).
    { destruct block; simpl in Hh; try discriminate. simpl. rewrite Hh. auto. }
    destruct Hb as [Hb Hnum].
    unfold findLogsCandidate.
    rewrite (bind_ok _ _ n n (Some (JStr hash))) by (unfold lift; rewrite Hb; reflexivity).
    rewrite Hne.
    assert (Hs : safeGetLogs E rpcUrl (JObj [("blockHash", JStr hash)]) n
                 = (Ok (entry :: entries),
                    sent (logsRequest rpcUrl (JObj [("blockHash", JStr hash)])) n)).
    { rewrite safeGetLogs_eq in *. cbn [fst] in Hlogs. inversion Hlogs as [H1].
      rewrite H1. reflexivity. }
    rewrite (bind_ok _ _ _ _ _ Hs). cbn [is_nil negb].
    unfold bind, lift, ret. rewrite Hnum. reflexivity.
Qed.

Lemma findLogsCandidate_immediate_witness :
  findLogsCandidate Harvest.logsAt3 "https://rpc.example"
    (JObj [("number", JStr "0x5")]) (JStr "0x5") Demo.net0 = (Ok None, Demo.net0)
  /\ fst (findLogsCandidate Harvest.logsAt3 "https://rpc.example"
            (Demo.sixBlocks 3) (JStr "not a number") Demo.net0)
     = Ok (Some {| blockNumber := JStr "0x3";
                   request := JObj [("blockHash", JStr "0xb10c3")];
                   logs := Harvest.logsOf3 (JObj [("blockHash", JStr "0xb10c3")]) |}).
Proof.
  split.
  - apply (proj1 (findLogsCandidate_immediate Harvest.logsAt3 "https://rpc.example"
                    (JObj [("number", JStr "0x5")]) (JStr "0x5") Demo.net0) None);
      [reflexivity|discriminate].
  - rewrite (proj2 (findLogsCandidate_immediate Harvest.logsAt3 "https://rpc.example"
                      (Demo.sixBlocks 3) (JStr "not a number") Demo.net0)
               "0xb10c3"
               (JObj [("address", JStr "0xc0ffee");
                      ("topics", JArr [JStr "0xddf2"; JStr "0x01"])])
               [JObj [("address", JStr "0xdecaf"); ("topics", JArr [])]]
               eq_refl eq_refl eq_refl).
    reflexivity.
Defined.

(** X12: unlike a failing logs query, a failing block query of the logs
    walk is not swallowed: with no logs found so far, the first block
    query that fails ends [findLogsCandidate] with its error. *)
Theorem findLogsCandidate_block_failure
    (E : Env) (rpcUrl : string) (feed : Z -> json)
    (block fallbackNumber : json) (hash : string) (start : Z) (k : nat)
    (e : exn) (n : Net) :
  jprop_opt block "hash" = Some (JStr hash) ->
  is_empty hash = false ->
  hexToBigInt fallbackNumber = Ok start ->
  noLogs E rpcUrl ->
  (k < 64)%nat ->
  Z.of_nat k <= start - 1 ->
  blocksAnswer E rpcUrl feed (start - 1 - Z.of_nat k + 1) (start - 1) ->
  (forall m : Net,
      fst (jsonRpcRequest E rpcUrl "eth_getBlockByNumber"
             [JStr ("0x" +:+ toString16 (start - 1 - Z.of_nat k)); JBool false] m)
      = Err e) ->
  fst (findLogsCandidate E rpcUrl block fallbackNumber n) = Err e.
Proof.
  intros Hh Hne Hstart Hno Hk Hle Hans Hfail.
  assert (Hb : jprop block "hash" = Ok (Some (JStr hash))).
  { destruct block; simpl in Hh; try discriminate. simpl. rewrite Hh. reflexivity. }
  unfold findLogsCandidate.
  rewrite (bind_ok _ _ n n (Some (JStr hash))) by (unfold lift; rewrite Hb; reflexivity).
  rewrite Hne.
  erewrite bind_ok by apply safeGetLogs_eq.
  rewrite noLogs_empty by exact Hno. cbn [is_nil negb].
  erewrite bind_ok by (unfold lift; rewrite Hstart; reflexivity).
  apply (findLogsLoop_aborts E rpcUrl feed e k); assumption.
Qed.

Lemma findLogsCandidate_block_failure_witness :
  fst (findLogsCandidate Harvest.timeoutAt3 "https://rpc.example"
         (Demo.sixBlocks 5) (JStr "0x5") Demo.net0)
  = Err (FetchFailed "timeout").
Proof.
  apply (findLogsCandidate_block_failure Harvest.timeoutAt3 "https://rpc.example"
           Demo.sixBlocks (Demo.sixBlocks 5) (JStr "0x5") "0xb10c5" 5 1
           (FetchFailed "timeout") Demo.net0); try reflexivity; try lia.
  - intros filter n. exact I.
  - intros n current Hc. assert (current = 4) as -> by lia. reflexivity.
Defined.

(** ** The sample transaction and the context, further *)





Lemma buildNetworkContext_built
    (E : Env) (config : BlockOverlayConfig) (n0 n1 : Net) (ctx : NetworkContext) :
  buildNetworkContext E config n0 = (Ok ctx, n1) ->
  ctx_rpcUrl ctx = cfg_rpcUrl config
  /\ is_empty (ctx_chainId ctx) = false
  /\ ctx_chainDir ctx = join E "overlays" (ctx_chainId ctx)
  /\ ctx_txIndex ctx = "0x0"
  /\ hasTransactions (ctx_block ctx) = true
  /\ jprop_opt (ctx_block ctx) "hash" = Some (JStr (ctx_blockHash ctx))
  /\ ctx_blockNumber ctx <> JNull
  /\ extractTransactionHash (ctx_block ctx) = Ok (ctx_txHash ctx)
  /\ (forall found : LogsContext, ctx_logs ctx = Some found -> logs found <> []).
Proof.
  unfold buildNetworkContext. cbv zeta. intros Hrun.
  unfold bind at 1 in Hrun.
  destruct (jsonRpcRequest E (cfg_rpcUrl config) "eth_chainId" [] n0)
    as [[rawChainId|e] n2]; [|discriminate].
  unfold bind at 1 in Hrun. unfold lift at 1 in Hrun.
  destruct (normalizeChainIdOf rawChainId) as [chainId|e] eqn:Hchain; [|discriminate].
  unfold bind at 1 in Hrun.
  match type of Hrun with
  | (let (_, _) := ?head n2 in _) = _ => destruct (head n2) as [[headBlock|e] n3]
  end; [|discriminate].
  unfold bind at 1 in Hrun.
  destruct (findBlockWithTransactions E (cfg_rpcUrl config) headBlock n3)
    as [[[num blk]|e] n4] eqn:Hfind; [|discriminate].
  cbn [block number] in Hrun.
  unfold bind at 1 in Hrun. unfold lift at 1 in Hrun.
  destruct (jprop blk "hash") as [[[| | |blockHash| |]|]|e] eqn:Hhash; try discriminate.
  unfold bind at 1 in Hrun. unfold lift at 1 in Hrun.
  destruct (extractTransactionHash blk) as [txHash|e] eqn:Htx; [|discriminate].
  unfold bind at 1 in Hrun.
  destruct (jsonRpcRequest E (cfg_rpcUrl config) "eth_getTransactionByHash" _ n4)
    as [[sampleTx|e] n5]; [|discriminate].
  unfold bind at 1 in Hrun.
  destruct (findLogsCandidate E (cfg_rpcUrl config) blk num n5) as [[found|e] n6] eqn:Hlogs;
    [|discriminate].
  inversion Hrun; subst.
  cbn [ctx_rpcUrl ctx_chainId ctx_chainDir ctx_txIndex ctx_block ctx_blockHash
       ctx_blockNumber ctx_txHash ctx_logs].
  destruct (findBlockWithTransactions_hit _ _ _ _ _ _ Hfind) as [Htxs Hnum].
  cbn [block number] in Htxs, Hnum.
  repeat split; try assumption.
  - destruct rawChainId; try discriminate.
    eapply normalizeChainId_not_empty, Hchain.
  - destruct blk; simpl in Hhash; try discriminate. simpl. inversion Hhash. reflexivity.
  - intros lc Hlc. subst found. eapply (proj1 (findLogsCandidate_hit _ _ _ _ _ _ _ Hlogs)).
Qed.

(** X14: what holds of every network context [buildNetworkContext]
    returns: it is for the endpoint of the configuration; its chain id is
    not empty and names its directory under [overlays]; its block has
    transactions, carries the hash of the context and yields the sample
    transaction; the transaction index is "0x0"; and a logs context, when
    there is one, is not empty. *)
Theorem buildNetworkContext_invariants
    (E : Env) (config : BlockOverlayConfig) (n0 n1 : Net) (ctx : NetworkContext) :
  buildNetworkContext E config n0 = (Ok ctx, n1) ->
  ctx_rpcUrl ctx = cfg_rpcUrl config
  /\ is_empty (ctx_chainId ctx) = false
  /\ ctx_chainDir ctx = join E "overlays" (ctx_chainId ctx)
  /\ ctx_txIndex ctx = "0x0"
  /\ hasTransactions (ctx_block ctx) = true
  /\ jprop_opt (ctx_block ctx) "hash" = Some (JStr (ctx_blockHash ctx))
  /\ ctx_blockNumber ctx <> JNull
  /\ extractTransactionHash (ctx_block ctx) = Ok (ctx_txHash ctx)
  /\ (forall found : LogsContext, ctx_logs ctx = Some found -> logs found <> []).
Proof. apply buildNetworkContext_built. Qed.

Lemma buildNetworkContext_invariants_witness :
  ctx_rpcUrl Harvest.sepoliaContext = cfg_rpcUrl Harvest.sepolia
  /\ is_empty (ctx_chainId Harvest.sepoliaContext) = false
  /\ ctx_chainDir Harvest.sepoliaContext
     = join Harvest.archive "overlays" (ctx_chainId Harvest.sepoliaContext)
  /\ ctx_txIndex Harvest.sepoliaContext = "0x0"
  /\ hasTransactions (ctx_block Harvest.sepoliaContext) = true
  /\ jprop_opt (ctx_block Harvest.sepoliaContext) "hash"
     = Some (JStr (ctx_blockHash Harvest.sepoliaContext))
  /\ ctx_blockNumber Harvest.sepoliaContext <> JNull
  /\ extractTransactionHash (ctx_block Harvest.sepoliaContext)
     = Ok (ctx_txHash Harvest.sepoliaContext)
  /\ (forall found : LogsContext,
         ctx_logs Harvest.sepoliaContext = Some found -> logs found <> []).
Proof.
  apply (buildNetworkContext_invariants Harvest.archive Harvest.sepolia Demo.net0
           (snd (buildNetworkContext Harvest.archive Harvest.sepolia Demo.net0))
           Harvest.sepoliaContext).
  vm_compute. reflexivity.
Defined.

(** ** The mutation engine, further *)

(** X15: a [set] whose match is a key of an object stores the payload
    under that key and leaves the other keys alone; a [set] whose match
    is index [i] of an array stores the payload at [i] and leaves the
    other elements alone, and when [i] lies past the end the array grows
    to length [i+1], the slots in between reading [undefined]. *)
Theorem set_spec
    (m : JsonPathMatch) (t : string) (v : value)
    (l : loc) (property : PropKey) (h : heap) :
  parent m = Some l ->
  parentProperty m = Some property ->
  (forall fields : gmap string value,
      h !! l = Some (Obj fields) ->
      exists fields' : gmap string value,
        applyAction m (ActionSet t v) h = (Ok tt, <[l := Obj fields']> h)
        /\ fields' !! ToPropertyKey property = Some v
        /\ (forall k : string, k <> ToPropertyKey property -> fields' !! k = fields !! k))
  /\ (forall (elems : list value) (props : gmap string value) (i : nat),
         h !! l = Some (Arr elems props) ->
         Number property = Finite (Z.of_nat i) ->
         exists elems' : list value,
           applyAction m (ActionSet t v) h = (Ok tt, <[l := Arr elems' props]> h)
           /\ elems' !! i = Some v
           /\ length elems' = Nat.max (length elems) (S i)
           /\ (forall j : nat, (j < length elems)%nat -> j <> i -> elems' !! j = elems !! j)
           /\ (forall j : nat,
                  (length elems <= j)%nat -> (j < i)%nat -> elems' !! j = Some VUndefined)).
Proof.
  intros Hp Hk. split.
  - intros fields Hl. exists (<[ToPropertyKey property := v]> fields).
    split; [|split].
    + unfold applyAction. rewrite Hp, Hk.
      rewrite (bind_ok _ _ h h (Obj fields)) by (unfold read; rewrite Hl; reflexivity).
      reflexivity.
    + apply lookup_insert_eq.
    + intros k Hne. apply lookup_insert_ne. congruence.
  - intros elems props i Hl Hn.
    assert (Hrun : applyAction m (ActionSet t v) h
                   = (Ok tt, <[l := array_assign (Finite (Z.of_nat i)) v elems props]> h)).
    { unfold applyAction. rewrite Hp, Hk.
      rewrite (bind_ok _ _ h h (Arr elems props)) by (unfold read; rewrite Hl; reflexivity).
      rewrite Hn. reflexivity. }
    unfold array_assign in Hrun.
    destruct (Z.ltb_spec (Z.of_nat i) 0) as [?|_]; [lia|].
    rewrite Nat2Z.id in Hrun.
    destruct (Nat.ltb_spec i (length elems)) as [Hin|Hout].
    + exists (<[i := v]> elems). split; [exact Hrun|]. split; [|split; [|split]].
      * apply list_lookup_insert_eq, Hin.
      * rewrite length_insert. lia.
      * intros j _ Hne. apply list_lookup_insert_ne. congruence.
      * intros j Hj Hji. lia.
    + exists (elems ++ replicate (i - length elems) VUndefined ++ [v]).
      split; [exact Hrun|]. split; [|split; [|split]].
      * rewrite lookup_app_r by lia.
        rewrite lookup_app_r by (rewrite length_replicate; lia).
        rewrite length_replicate.
        replace (i - length elems - (i - length elems))%nat with 0%nat by lia.
        reflexivity.
      * rewrite !length_app, length_replicate. simpl. lia.
      * intros j Hj _. apply lookup_app_l, Hj.
      * intros j Hj Hji. rewrite lookup_app_r by lia.
        rewrite lookup_app_l by (rewrite length_replicate; lia).
        apply lookup_replicate_2. lia.
Qed.

Lemma set_spec_witness :
  exists elems' : list value,
    applyAction {| parent := Some 0%nat; parentProperty := Some (PKStr "3");
                   matched := VUndefined |}
      (ActionSet "$.3" (VStr "d")) [Arr [VStr "a"; VStr "b"] ∅]
    = (Ok tt, [Arr elems' ∅])
    /\ elems' !! 3%nat = Some (VStr "d")
    /\ length elems' = 4%nat
    /\ elems' !! 2%nat = Some VUndefined.
Proof.
  destruct (proj2 (set_spec
                     {| parent := Some 0%nat; parentProperty := Some (PKStr "3");
                        matched := VUndefined |}
                     "$.3" (VStr "d") 0%nat (PKStr "3") [Arr [VStr "a"; VStr "b"] ∅]
                     eq_refl eq_refl)
              [VStr "a"; VStr "b"] ∅ 3%nat eq_refl eq_refl)
    as (elems' & Hrun & Hat & Hlen & _ & Hholes).
  exists elems'. split; [exact Hrun|]. split; [exact Hat|]. split; [exact Hlen|].
  apply Hholes; simpl; lia.
Defined.

Lemma applyAction_root (m : JsonPathMatch) (action : OverlayAction) (h : heap) :
  parent m = None \/ parentProperty m = None ->
  applyAction m action h = (Err (CannotMutateRoot (target action)), h).
Proof.
  intros [Hp|Hk]; unfold applyAction.
  - rewrite Hp. reflexivity.
  - rewrite Hk. destruct (parent m); reflexivity.
Qed.

(** X16: an action whose target resolves to the root of the document
    (a first match without a parent or without a property) is refused,
    whatever its kind, with "Cannot mutate root node".  The run ends
    there: the actions after it are not applied, and what the actions
    before it did to the document stays done. *)
Theorem root_match_rejected
    (E : Env) (doc : value) (front back : list OverlayAction) (action : OverlayAction)
    (h h1 : heap) (d : value) (m : JsonPathMatch) (others : list JsonPathMatch) :
  applyJsonPathOverlay E doc front h = (Ok d, h1) ->
  JSONPath E h1 doc (target action) = Ok (m :: others) ->
  parent m = None \/ parentProperty m = None ->
  applyJsonPathOverlay E doc (front ++ action :: back) h
  = (Err (CannotMutateRoot (target action)), h1).
Proof.
  intros Hfront Hpath Hroot.
  rewrite applyJsonPathOverlay_app. unfold bind at 1. rewrite Hfront.
  cbn [applyJsonPathOverlay]. unfold bind at 1, selectNodes. rewrite Hpath.
  cbn [is_nil]. unfold bind at 1. cbn [applyMatches]. unfold bind at 1.
  rewrite (applyAction_root m action h1 Hroot). reflexivity.
Qed.

Lemma root_match_rejected_witness :
  applyJsonPathOverlay Demo.bare (VRef 0%nat)
    ([ActionSet "$.title" (VStr "v2")] ++ ActionRemove "$" :: [ActionRemove "$.title"])
    Demo.titleHeap
  = (Err (CannotMutateRoot "$"), [Obj ({["title" := VStr "v2"]} : gmap string value)]).
Proof.
  apply (root_match_rejected Demo.bare (VRef 0%nat)
           [ActionSet "$.title" (VStr "v2")] [ActionRemove "$.title"] (ActionRemove "$")
           Demo.titleHeap [Obj {["title" := VStr "v2"]}] (VRef 0%nat)
           {| parent := None; parentProperty := None; matched := VRef 0%nat |} []).
  - vm_compute. reflexivity.
  - vm_compute. reflexivity.
  - left. reflexivity.
Defined.

(** X17: applying a list of actions is applying its front part and then,
    on the heap that leaves, its back part; a failure in the front part
    is the failure of the whole. *)
Theorem applyJsonPathOverlay_compose
    (E : Env) (doc : value) (front back : list OverlayAction) (h : heap) :
  applyJsonPathOverlay E doc (front ++ back) h
  = match applyJsonPathOverlay E doc front h with
    | (Ok _, h1) => applyJsonPathOverlay E doc back h1
    | (Err e, h1) => (Err e, h1)
    end.
Proof. apply applyJsonPathOverlay_app. Qed.

(** X18: merging the same payload a second time changes nothing that can
    be read: after either application the slot holds an object with the
    same properties, the payload over what the slot's object had. *)
Theorem merge_twice
    (m : JsonPathMatch) (t : string) (payload existing fields : gmap string value)
    (l c : loc) (property : PropKey) (h : heap) :
  parent m = Some l ->
  parentProperty m = Some property ->
  h !! l = Some (Obj fields) ->
  fields !! ToPropertyKey property = Some (VRef c) ->
  h !! c = Some (Obj existing) ->
  exists (h1 h2 : heap) (fields1 fields2 : gmap string value) (l1 l2 : loc),
    applyAction m (ActionMerge t payload) h = (Ok tt, h1)
    /\ applyAction m (ActionMerge t payload) h1 = (Ok tt, h2)
    /\ h1 !! l = Some (Obj fields1)
    /\ fields1 !! ToPropertyKey property = Some (VRef l1)
    /\ h1 !! l1 = Some (Obj (payload ∪ existing))
    /\ h2 !! l = Some (Obj fields2)
    /\ fields2 !! ToPropertyKey property = Some (VRef l2)
    /\ h2 !! l2 = Some (Obj (payload ∪ existing)).
Proof.
  intros Hp Hk Hl Hc Ho.
  pose proof (lookup_lt_Some _ _ _ Hl) as Hlt.
  set (key := ToPropertyKey property) in *.
  set (merged := payload ∪ existing).
  set (fields1 := <[key := VRef (length h)]> fields).
  set (h1 := <[l := Obj fields1]> (h ++ [Obj merged])).
  set (fields2 := <[key := VRef (length h1)]> fields1).
  set (h2 := <[l := Obj fields2]> (h1 ++ [Obj merged])).
  assert (Hlen1 : length h1 = S (length h)).
  { subst h1. rewrite length_insert, length_app. simpl. lia. }
  assert (H1l : h1 !! l = Some (Obj fields1)).
  { subst h1. apply list_lookup_insert_eq. rewrite length_app. simpl. lia. }
  assert (H1new : h1 !! length h = Some (Obj merged)).
  { subst h1. rewrite list_lookup_insert_ne by lia.
    rewrite lookup_app_r by lia. rewrite Nat.sub_diag. reflexivity. }
  exists h1, h2, fields1, fields2, (length h), (length h1).
  split; [|split; [|split; [|split; [|split; [|split; [|split]]]]]].
  - unfold applyAction. rewrite Hp, Hk.
    rewrite (bind_ok _ _ h h (Obj fields)) by (unfold read; rewrite Hl; reflexivity).
    fold key. rewrite Hc. cbn [default from_option id spread_current].
    rewrite (bind_ok _ _ h h existing)
      by (unfold bind, read, ret; rewrite Ho; reflexivity).
    reflexivity.
  - unfold applyAction. rewrite Hp, Hk.
    rewrite (bind_ok _ _ h1 h1 (Obj fields1)) by (unfold read; rewrite H1l; reflexivity).
    fold key. subst fields1. rewrite lookup_insert_eq.
    cbn [default from_option id spread_current].
    rewrite (bind_ok _ _ h1 h1 merged)
      by (unfold bind, read, ret; rewrite H1new; reflexivity).
    unfold bind, alloc, write. subst h2 fields2 merged.
    rewrite (map_union_assoc payload payload existing), (map_union_idemp payload).
    reflexivity.
  - exact H1l.
  - subst fields1. apply lookup_insert_eq.
  - exact H1new.
  - subst h2. apply list_lookup_insert_eq. rewrite length_app. simpl. lia.
  - subst fields2. apply lookup_insert_eq.
  - subst h2. rewrite list_lookup_insert_ne by lia.
    rewrite lookup_app_r by lia. rewrite Nat.sub_diag. reflexivity.
Qed.

Lemma merge_twice_witness :
  exists (h1 h2 : heap) (fields2 : gmap string value) (l2 : loc),
    applyAction Demo.infoMatch (ActionMerge "$.info" Demo.versionPatch) Demo.infoHeap
    = (Ok tt, h1)
    /\ applyAction Demo.infoMatch (ActionMerge "$.info" Demo.versionPatch) h1 = (Ok tt, h2)
    /\ h2 !! 0%nat = Some (Obj fields2)
    /\ fields2 !! "info" = Some (VRef l2)
    /\ h2 !! l2 = Some (Obj (Demo.versionPatch ∪ Demo.infoFields)).
Proof.
  assert (Hslot : ({["info" := VRef 1%nat]} : gmap string value)
                    !! ToPropertyKey (PKStr "info") = Some (VRef 1%nat))
    by (vm_compute; reflexivity).
  destruct (merge_twice Demo.infoMatch "$.info" Demo.versionPatch Demo.infoFields
              {["info" := VRef 1%nat]} 0%nat 1%nat (PKStr "info") Demo.infoHeap
              eq_refl eq_refl eq_refl Hslot eq_refl)
    as (h1 & h2 & fields1 & fields2 & l1 & l2 & Hone & Htwo & _ & _ & _ & H2l & H2k & H2n).
  exists h1, h2, fields2, l2. repeat split; assumption.
Defined.

(** X19: a [remove] that has nothing to remove fails on nothing: an
    index at or past the end of the array leaves the array as it is, and
    a key the object does not have leaves the object as it is. *)
Theorem remove_absent_is_silent
    (m : JsonPathMatch) (t : string) (l : loc) (property : PropKey) (h : heap) :
  parent m = Some l ->
  parentProperty m = Some property ->
  (forall (elems : list value) (props : gmap string value) (i : Z),
      h !! l = Some (Arr elems props) ->
      Number property = Finite i ->
      Z.of_nat (length elems) <= i ->
      applyAction m (ActionRemove t) h = (Ok tt, h))
  /\ (forall fields : gmap string value,
         h !! l = Some (Obj fields) ->
         fields !! ToPropertyKey property = None ->
         applyAction m (ActionRemove t) h = (Ok tt, h)).
Proof.
  intros Hp Hk. split.
  - intros elems props i Hl Hn Hi. unfold applyAction. rewrite Hp, Hk.
    rewrite (bind_ok _ _ h h (Arr elems props)) by (unfold read; rewrite Hl; reflexivity).
    rewrite Hn. unfold write, splice1. cbv zeta.
    destruct (Z.ltb_spec i 0) as [?|_]; [lia|].
    rewrite (Z.min_r i) by lia.
    rewrite (Z.min_r 1) by lia. rewrite (Z.max_l 0) by lia.
    rewrite Z.add_0_r, Nat2Z.id, firstn_all, drop_all, app_nil_r.
    rewrite list_insert_id by exact Hl. reflexivity.
  - intros fields Hl Hnone. unfold applyAction. rewrite Hp, Hk.
    rewrite (bind_ok _ _ h h (Obj fields)) by (unfold read; rewrite Hl; reflexivity).
    unfold write. rewrite delete_id by exact Hnone.
    rewrite list_insert_id by exact Hl. reflexivity.
Qed.

Lemma remove_absent_is_silent_witness :
  applyAction {| parent := Some 0%nat; parentProperty := Some (PKNum 7);
                 matched := VUndefined |}
    (ActionRemove "$[7]") [Arr [VStr "a"; VStr "b"] ∅]
  = (Ok tt, [Arr [VStr "a"; VStr "b"] ∅]).
Proof.
  apply (proj1 (remove_absent_is_silent
                  {| parent := Some 0%nat; parentProperty := Some (PKNum 7);
                     matched := VUndefined |}
                  "$[7]" 0%nat (PKNum 7) [Arr [VStr "a"; VStr "b"] ∅] eq_refl eq_refl)
           [VStr "a"; VStr "b"] ∅ 7); [reflexivity|reflexivity|simpl; lia].
Defined.

Lemma applyAction_length (m : JsonPathMatch) (action : OverlayAction)
    (h h' : heap) (r : result unit) :
  applyAction m action h = (r, h') ->
  (length h <= length h')%nat
  /\ ((forall t payload, action <> ActionMerge t payload) -> length h' = length h).
Proof.
  unfold applyAction. intros Hrun.
  destruct (parent m) as [l|]; [|inversion Hrun; subst; auto].
  destruct (parentProperty m) as [property|]; [|inversion Hrun; subst; auto].
  unfold bind, read in Hrun.
  destruct (h !! l) as [o|]; [|inversion Hrun; subst; auto].
  destruct action as [t v|t payload|t].
  - destruct o; inversion Hrun; subst; rewrite length_insert; auto.
  - split; [|intros Hno; exfalso; eapply Hno; reflexivity].
    destruct o as [fields|elems props]; [|inversion Hrun; subst; auto].
    unfold bind in Hrun.
    destruct (spread_current (default VUndefined (fields !! ToPropertyKey property)) h)
      as [[base|e] h1] eqn:Hs.
    + assert (h1 = h) as ->.
      { destruct (fields !! ToPropertyKey property) as [[]|];
          cbn [default from_option id spread_current] in Hs;
          try (inversion Hs; reflexivity).
        unfold bind, read, ret in Hs. destruct (h !! l0); inversion Hs; reflexivity. }
      unfold alloc, write in Hrun. inversion Hrun; subst.
      rewrite length_insert, length_app. simpl. lia.
    + assert (h1 = h) as ->.
      { destruct (fields !! ToPropertyKey property) as [[]|];
          cbn [default from_option id spread_current] in Hs;
          try (inversion Hs; reflexivity).
        unfold bind, read, ret in Hs. destruct (h !! l0); inversion Hs; reflexivity. }
      inversion Hrun; subst. lia.
  - destruct o; inversion Hrun; subst; rewrite length_insert; auto.
Qed.

Lemma applyMatches_length (matches : list JsonPathMatch) (action : OverlayAction) :
  forall (h h' : heap) (r : result unit),
    applyMatches matches action h = (r, h') ->
    (length h <= length h')%nat
    /\ ((forall t payload, action <> ActionMerge t payload) -> length h' = length h).
Proof.
  induction matches as [|m matches IH]; intros h h' r Hrun.
  - inversion Hrun; subst. auto.
  - cbn [applyMatches] in Hrun. unfold bind in Hrun.
    destruct (applyAction m action h) as [[[]|e] h1] eqn:Hone;
      destruct (applyAction_length _ _ _ _ _ Hone) as [Hle Heq].
    + destruct (IH _ _ _ Hrun) as [Hle' Heq'].
      split; [lia|]. intros Hno. rewrite (Heq' Hno), (Heq Hno). reflexivity.
    + inversion Hrun; subst. auto.
Qed.

(** X20: the engine never drops an object: the heap after a call,
    successful or not, is at least as long as before, so every location
    stays valid; and a call without [merge] actions allocates nothing. *)
Theorem applyJsonPathOverlay_allocation
    (E : Env) (doc : value) (actions : list OverlayAction)
    (h h' : heap) (r : result value) :
  applyJsonPathOverlay E doc actions h = (r, h') ->
  (length h <= length h')%nat
  /\ (Forall (fun action => forall t payload, action <> ActionMerge t payload) actions ->
      length h' = length h).
Proof.
  revert h. induction actions as [|action actions IH]; intros h Hrun.
  - inversion Hrun; subst. auto.
  - cbn [applyJsonPathOverlay] in Hrun. unfold bind in Hrun.
    unfold selectNodes in Hrun at 1.
    destruct (JSONPath E h doc (target action)) as [matches|e];
      [|inversion Hrun; subst; auto].
    destruct (is_nil matches); [inversion Hrun; subst; auto|].
    destruct (applyMatches matches action h) as [[[]|e] h1] eqn:Hm;
      destruct (applyMatches_length _ _ _ _ _ Hm) as [Hle Heq].
    + destruct (IH _ Hrun) as [Hle' Heq'].
      split; [lia|]. intros Hno. apply Forall_cons in Hno as [Hno Hrest].
      rewrite (Heq' Hrest), (Heq Hno). reflexivity.
    + inversion Hrun; subst. split; [exact Hle|].
      intros Hno. apply Forall_cons in Hno as [Hno _]. exact (Heq Hno).
Qed.

Lemma applyJsonPathOverlay_allocation_witness :
  (length Demo.titleHeap <= length [Obj ({["title" := VStr "v2"]} : gmap string value)])%nat
  /\ (Forall (fun action => forall t payload, action <> ActionMerge t payload)
        [ActionSet "$.title" (VStr "v2")] ->
      length [Obj ({["title" := VStr "v2"]} : gmap string value)] = length Demo.titleHeap).
Proof.
  apply (applyJsonPathOverlay_allocation Demo.bare (VRef 0%nat)
           [ActionSet "$.title" (VStr "v2")] Demo.titleHeap
           [Obj {["title" := VStr "v2"]}] (Ok (VRef 0%nat))).
  vm_compute. reflexivity.
Defined.

(** X21: whatever the actions before it did to a property of an object,
    a [set] at the end of the list decides it: after a successful run
    the property holds the payload of that last [set].  Overlays loaded
    later (those of the chain, after the global ones) so override the
    earlier ones. *)
Theorem set_last_wins
    (E : Env) (doc : value) (front : list OverlayAction) (t : string) (v : value)
    (h h1 h' : heap) (d d' : value)
    (matches : list JsonPathMatch) (m : JsonPathMatch)
    (l : loc) (property : PropKey) (fields : gmap string value) :
  applyJsonPathOverlay E doc front h = (Ok d, h1) ->
  JSONPath E h1 doc t = Ok matches ->
  m ∈ matches ->
  parent m = Some l ->
  parentProperty m = Some property ->
  h1 !! l = Some (Obj fields) ->
  applyJsonPathOverlay E doc (front ++ [ActionSet t v]) h = (Ok d', h') ->
  exists fields' : gmap string value,
    h' !! l = Some (Obj fields') /\ fields' !! ToPropertyKey property = Some v.
Proof.
  intros Hfront Hpath Hin Hp Hk Hl Hrun.
  rewrite applyJsonPathOverlay_app in Hrun. unfold bind at 1 in Hrun.
  rewrite Hfront in Hrun.
  cbn [applyJsonPathOverlay target] in Hrun. unfold bind, selectNodes in Hrun.
  rewrite Hpath in Hrun. destruct (is_nil matches); [discriminate|].
  destruct (applyMatches matches (ActionSet t v) h1) as [[[]|e] h2] eqn:Hm; [|discriminate].
  inversion Hrun; subst.
  destruct (applyMatches_set_keeps t v l (ToPropertyKey property) _ _ _ _ Hm Hl)
    as (fields' & Hl' & _ & Hall).
  exists fields'. split; [exact Hl'|]. eapply Hall; eauto.
Qed.

Lemma set_last_wins_witness :
  exists fields' : gmap string value,
    [Obj ({["title" := VStr "v2"]} : gmap string value)] !! 0%nat = Some (Obj fields')
    /\ fields' !! "title" = Some (VStr "v2").
Proof.
  apply (set_last_wins Demo.bare (VRef 0%nat) [ActionSet "$.title" (VStr "v1")]
           "$.title" (VStr "v2") Demo.titleHeap
           [Obj {["title" := VStr "v1"]}] [Obj {["title" := VStr "v2"]}]
           (VRef 0%nat) (VRef 0%nat)
           [{| parent := Some 0%nat; parentProperty := Some (PKStr "title");
               matched := VStr "v1" |}]
           {| parent := Some 0%nat; parentProperty := Some (PKStr "title");
              matched := VStr "v1" |}
           0%nat (PKStr "title") {["title" := VStr "v1"]}).
  - vm_compute. reflexivity.
  - vm_compute. reflexivity.
  - apply list_elem_of_here.
  - reflexivity.
  - reflexivity.
  - vm_compute. reflexivity.
  - vm_compute. reflexivity.
Defined.

(** ** The loader, further *)

Section LoaderFurther.

Variable E : Env.

Lemma overlayExtension_not_empty (ext : string) :
  overlayExtension ext = true -> is_empty ext = false.
Proof. destruct ext; [discriminate|reflexivity]. Qed.

Lemma loadEntries_filter (descend : string -> M heap (list OverlayAction))
    (dir : string) (recursive : bool) (entries : list Dirent) :
  forall (actions : list OverlayAction) (h : heap),
    loadEntries E descend dir recursive entries actions h
    = loadEntries E descend dir recursive
        (List.filter (scanned recursive) entries) actions h.
Proof.
  induction entries as [|entry rest IH]; intros actions h; [reflexivity|].
  cbn [List.filter]. unfold scanned at 1. cbn [loadEntries].
  destruct (startsWithDot (name entry)) eqn:Hdot; cbn [negb andb]; [apply IH|].
  destruct (kind entry) eqn:Hkind.
  - destruct (overlayExtension (toLowerCase (lastSegment (name entry)))) eqn:Hext.
    + rewrite (overlayExtension_not_empty _ Hext). cbn [orb negb].
      cbn [loadEntries].
      rewrite Hdot, Hkind, Hext, (overlayExtension_not_empty _ Hext). cbn [orb negb].
      unfold bind.
      destruct (lift (readFile E (join E dir (name entry))) h) as [[raw|e] h1];
        [|reflexivity].
      destruct (parseOverlayFile E raw _ h1) as [[parsed|e] h2]; [|reflexivity].
      apply IH.
    + cbn [negb]. rewrite orb_true_r. apply IH.
  - destruct recursive; [|apply IH].
    cbn [loadEntries]. rewrite Hdot, Hkind. unfold bind.
    destruct (descend (join E dir (name entry)) h) as [[sub|e] h1]; [apply IH|reflexivity].
  - apply IH.
Qed.

Lemma loadEntries_flat (descend descend' : string -> M heap (list OverlayAction))
    (dir : string) (entries : list Dirent) :
  forall (actions : list OverlayAction) (h : heap),
    loadEntries E descend dir false entries actions h
    = loadEntries E descend' dir false entries actions h.
Proof.
  induction entries as [|entry rest IH]; intros actions h; [reflexivity|].
  cbn [loadEntries].
  destruct (startsWithDot (name entry)); [apply IH|].
  destruct (kind entry); [|apply IH..].
  destruct (is_empty _ || negb _); [apply IH|].
  unfold bind.
  destruct (lift (readFile E (join E dir (name entry))) h) as [[raw|e] h1]; [|reflexivity].
  destruct (parseOverlayFile E raw _ h1) as [[parsed|e] h2]; [|reflexivity].
  apply IH.
Qed.

Lemma loadEntries_app (descend : string -> M heap (list OverlayAction))
    (dir : string) (recursive : bool) (entries1 entries2 : list Dirent) :
  forall (actions : list OverlayAction) (h : heap),
    loadEntries E descend dir recursive (entries1 ++ entries2) actions h
    = match loadEntries E descend dir recursive entries1 actions h with
      | (Ok collected, h1) => loadEntries E descend dir recursive entries2 collected h1
      | (Err e, h1) => (Err e, h1)
      end.
Proof.
  induction entries1 as [|entry rest IH]; intros actions h; [reflexivity|].
  cbn [app loadEntries].
  destruct (startsWithDot (name entry)); [apply IH|].
  destruct (kind entry).
  - destruct (is_empty _ || negb _); [apply IH|].
    unfold bind.
    destruct (lift (readFile E (join E dir (name entry))) h) as [[raw|e] h1];
      [|reflexivity].
    destruct (parseOverlayFile E raw _ h1) as [[parsed|e] h2]; [|reflexivity].
    apply IH.
  - destruct recursive; [|apply IH]. unfold bind.
    destruct (descend (join E dir (name entry)) h) as [[sub|e] h1]; [apply IH|reflexivity].
  - apply IH.
Qed.

Lemma loadEntries_added (descend : string -> M heap (list OverlayAction))
    (dir : string) (recursive : bool) (entries : list Dirent) :
  forall (actions out : list OverlayAction) (h h' : heap),
    loadEntries E descend dir recursive entries actions h = (Ok out, h') ->
    exists added : list OverlayAction,
      out = actions ++ added
      /\ forall actions' : list OverlayAction,
           loadEntries E descend dir recursive entries actions' h
           = (Ok (actions' ++ added), h').
Proof.
  induction entries as [|entry rest IH]; intros actions out h h' Hrun.
  - inversion Hrun; subst. exists []. rewrite app_nil_r. split; [reflexivity|].
    intros actions'. rewrite app_nil_r. reflexivity.
  - cbn [loadEntries] in Hrun |- *.
    destruct (startsWithDot (name entry)); [apply (IH _ _ _ _ Hrun)|].
    destruct (kind entry).
    + destruct (is_empty _ || negb _); [apply (IH _ _ _ _ Hrun)|].
      unfold bind in Hrun |- *.
      destruct (lift (readFile E (join E dir (name entry))) h) as [[raw|e] h1];
        [|discriminate].
      destruct (parseOverlayFile E raw _ h1) as [[parsed|e] h2]; [|discriminate].
      destruct (IH _ _ _ _ Hrun) as (added & -> & Hall).
      exists (parsed ++ added). rewrite app_assoc. split; [reflexivity|].
      intros actions'. rewrite app_assoc. apply Hall.
    + destruct recursive; [|apply (IH _ _ _ _ Hrun)].
      unfold bind in Hrun |- *.
      destruct (descend (join E dir (name entry)) h) as [[sub|e] h1]; [|discriminate].
      destruct (IH _ _ _ _ Hrun) as (added & -> & Hall).
      exists (sub ++ added). rewrite app_assoc. split; [reflexivity|].
      intros actions'. rewrite app_assoc. apply Hall.
    + apply (IH _ _ _ _ Hrun).
Qed.

End LoaderFurther.

(** X22: a scan looks only into the visible files whose name ends in
    [json], [yaml] or [yml] (in any case) and, when it is recursive, into
    the visible directories: every other entry of the listing could as
    well be absent.  A scan that is not recursive never enters a
    directory, so that what it returns depends neither on the
    subdirectories nor on the bound of the recursion. *)
Theorem loadOverlayActions_scanned (E : Env) (dir : string) :
  (forall (descend : string -> M heap (list OverlayAction)) (recursive : bool)
          (entries : list Dirent) (actions : list OverlayAction) (h : heap),
      loadEntries E descend dir recursive entries actions h
      = loadEntries E descend dir recursive
          (List.filter (scanned recursive) entries) actions h)
  /\ (forall (descend descend' : string -> M heap (list OverlayAction))
             (entries : list Dirent) (actions : list OverlayAction) (h : heap),
         loadEntries E descend dir false entries actions h
         = loadEntries E descend' dir false entries actions h)
  /\ (forall (fuel fuel' : nat) (h : heap),
         loadOverlayActions E (S fuel) dir false h
         = loadOverlayActions E (S fuel') dir false h).
Proof.
  split; [|split].
  - intros. apply loadEntries_filter.
  - intros. apply loadEntries_flat.
  - intros fuel fuel' h. cbn [loadOverlayActions]. unfold try_catch, bind.
    destruct (lift (readdir E dir) h) as [[entries|e] h1]; [|reflexivity].
    rewrite (loadEntries_flat E _ (fun sub => loadOverlayActions E fuel' sub true)).
    reflexivity.
Qed.

(** X23: the actions of a listing come out in the order of the listing:
    what a listing yields is what its front part yields followed by what
    its back part yields, the back part being read on the heap the front
    part leaves. *)
Theorem loadEntries_in_listing_order
    (E : Env) (descend : string -> M heap (list OverlayAction))
    (dir : string) (recursive : bool) (entries1 entries2 : list Dirent)
    (out : list OverlayAction) (h h' : heap) :
  loadEntries E descend dir recursive (entries1 ++ entries2) [] h = (Ok out, h') ->
  exists (first second : list OverlayAction) (h1 : heap),
    loadEntries E descend dir recursive entries1 [] h = (Ok first, h1)
    /\ loadEntries E descend dir recursive entries2 [] h1 = (Ok second, h')
    /\ out = first ++ second.
Proof.
  intros Hrun. rewrite loadEntries_app in Hrun.
  destruct (loadEntries E descend dir recursive entries1 [] h) as [[first|e] h1];
    [|discriminate].
  destruct (loadEntries_added E _ _ _ _ _ _ _ _ Hrun) as (second & -> & Hall).
  exists first, second, h1. split; [reflexivity|]. split; [|reflexivity].
  apply (Hall []).
Qed.

Lemma loadEntries_in_listing_order_witness :
  exists (first second : list OverlayAction) (h1 : heap),
    loadEntries Demo.patched (fun sub => loadOverlayActions Demo.patched 1 sub true)
      "overlays" false [{| name := ".gitkeep"; kind := IsFile |}] [] [] = (Ok first, h1)
    /\ loadEntries Demo.patched (fun sub => loadOverlayActions Demo.patched 1 sub true)
         "overlays" false
         [{| name := "title.json"; kind := IsFile |};
          {| name := "11155111"; kind := IsDirectory |}] [] h1
       = (Ok second, [])
    /\ [ActionSet "$.title" (VStr "v2")] = first ++ second.
Proof.
  apply (loadEntries_in_listing_order Demo.patched
           (fun sub => loadOverlayActions Demo.patched 1 sub true) "overlays" false
           [{| name := ".gitkeep"; kind := IsFile |}]
           [{| name := "title.json"; kind := IsFile |};
            {| name := "11155111"; kind := IsDirectory |}]
           [ActionSet "$.title" (VStr "v2")] [] []).
  vm_compute. reflexivity.
Defined.

(** X24: a file of the listing that cannot be read, or whose contents
    the parser refuses, ends the scan of its directory.  When the error
    carries the code [ENOENT] (the file has gone since the listing was
    made) the scan returns no action at all, the actions collected from
    the files before it included; any other error is thrown. *)
Theorem loadOverlayActions_file_failure
    (E : Env) (fuel : nat) (dir : string) (recursive : bool)
    (before after : list Dirent) (entry : Dirent)
    (collected : list OverlayAction) (h h1 : heap) (e : exn) :
  readdir E dir = Ok (before ++ entry :: after) ->
  loadEntries E (fun sub => loadOverlayActions E fuel sub true) dir recursive before [] h
  = (Ok collected, h1) ->
  kind entry = IsFile ->
  scanned recursive entry = true ->
  (readFile E (join E dir (name entry)) = Err e
   \/ exists raw : string,
        readFile E (join E dir (name entry)) = Ok raw
        /\ (if String.eqb (toLowerCase (lastSegment (name entry))) "json"
            then JSON_parse E raw else yaml_load E raw) = Err e) ->
  loadOverlayActions E (S fuel) dir recursive h
  = (if isENOENT e then Ok [] else Err e, h1).
Proof.
  intros Hdir Hbefore Hkind Hscan Hfail.
  unfold scanned in Hscan. rewrite Hkind in Hscan.
  apply andb_true_iff in Hscan as [Hdot Hext].
  apply negb_true_iff in Hdot.
  cbn [loadOverlayActions]. unfold try_catch.
  match goal with
  | |- (let (_, _) := ?body h in _) = _ => assert (Hbody : body h = (Err e, h1))
  end.
  { unfold bind at 1, lift at 1. rewrite Hdir.
    rewrite loadEntries_app, Hbefore. cbn [loadEntries].
    rewrite Hdot, Hkind, Hext, (overlayExtension_not_empty _ Hext). cbn [orb negb].
    unfold bind at 1, lift at 1.
    destruct Hfail as [Hread|(raw & Hread & Hparse)]; rewrite Hread; [reflexivity|].
    unfold bind at 1, parseOverlayFile. unfold bind at 1, lift at 1.
    rewrite Hparse. reflexivity. }
  rewrite Hbody. destruct (isENOENT e); reflexivity.
Qed.

Lemma loadOverlayActions_file_failure_witness :
  loadOverlayActions Harvest.vanished 2 "overlays" false []
  = (Ok [], []).
Proof.
  apply (loadOverlayActions_file_failure Harvest.vanished 1 "overlays" false
           [{| name := "title.json"; kind := IsFile |}] []
           {| name := "gone.yaml"; kind := IsFile |}
           [ActionSet "$.title" (VStr "v2")] [] [] (ErrnoException "ENOENT")).
  - reflexivity.
  - vm_compute. reflexivity.
  - reflexivity.
  - vm_compute. reflexivity.
  - left. reflexivity.
Defined.

Lemma has_dot_cons (a : ascii) (s : string) :
  has_dot (String a s) = Ascii.eqb a "." || has_dot s.
Proof.
  unfold has_dot. cbn [list_ascii_of_string existsb].
  rewrite (Ascii.eqb_sym "." a). reflexivity.
Qed.

Lemma has_dot_append (base ext : string) : has_dot (base +:+ "." +:+ ext) = true.
Proof.
  induction base as [|a base IH].
  - reflexivity.
  - change (String a base +:+ "." +:+ ext) with (String a (base +:+ "." +:+ ext)).
    rewrite has_dot_cons, IH. apply orb_true_r.
Qed.

Lemma lastSegment_no_dot (s : string) : has_dot s = false -> lastSegment s = s.
Proof.
  destruct s as [|a s]; [reflexivity|].
  rewrite has_dot_cons. intros H. apply orb_false_iff in H as [Ha Hs].
  cbn [lastSegment]. rewrite Ha. fold (has_dot s). rewrite Hs. reflexivity.
Qed.

(** X25: the extension the loader tests is the text after the last dot
    of the file name, and the whole name when it has no dot; the test
    ignores case.  A visible file [base.ext] is looked into exactly when
    [ext], in lower case, is [json], [yaml] or [yml]. *)
Theorem lastSegment_extension (base ext : string) :
  has_dot ext = false ->
  lastSegment (base +:+ "." +:+ ext) = ext
  /\ lastSegment ext = ext
  /\ forall recursive : bool,
       scanned recursive {| name := base +:+ "." +:+ ext; kind := IsFile |}
       = negb (startsWithDot (base +:+ "." +:+ ext)) && overlayExtension (toLowerCase ext).
Proof.
  intros Hext.
  assert (Hlast : lastSegment (base +:+ "." +:+ ext) = ext).
  { induction base as [|a base IH].
    - change (lastSegment (String "." ext) = ext). cbn [lastSegment].
      change (Ascii.eqb "." ".") with true. cbv iota.
      apply lastSegment_no_dot, Hext.
    - change (String a base +:+ "." +:+ ext) with (String a (base +:+ "." +:+ ext)).
      cbn [lastSegment]. fold (has_dot (base +:+ "." +:+ ext)).
      rewrite has_dot_append. destruct (Ascii.eqb a "."); exact IH. }
  split; [exact Hlast|]. split; [apply lastSegment_no_dot, Hext|].
  intros recursive. unfold scanned. cbn [name kind]. rewrite Hlast. reflexivity.
Qed.

Lemma lastSegment_extension_witness :
  lastSegment ("archive.tar" +:+ "." +:+ "JSON") = "JSON".
Proof.
  apply (proj1 (lastSegment_extension "archive.tar" "JSON" eq_refl)).
Defined.

(** ** The clone, further *)

(** X26: the copy [deepClone] makes of a document shares nothing with
    the heap it was made on: the objects that were there are as they
    were, the copy is a new object, and every object the copy leads to
    is a new one. *)
Theorem deepClone_shares_nothing (d : loc) (h h' : heap) (clone : value) :
  deepClone (VRef d) h = (Ok clone, h') ->
  untouched h h'
  /\ (exists l : loc, clone = VRef l /\ (length h <= l)%nat)
  /\ (forall l : loc, reach h' clone l -> (length h <= l)%nat).
Proof.
  intros Hrun.
  destruct (deepClone_isolated h d h h' clone (isolated_start h) Hrun)
    as [[Hsame Hclosed] (l & -> & Hl)].
  split; [exact Hsame|]. split; [exists l; split; [reflexivity|exact Hl]|].
  intros l' Hreach. apply (reach_above h h' (VRef l) l' Hclosed Hl Hreach).
Qed.

Lemma deepClone_shares_nothing_witness :
  untouched Demo.titleHeap
    (Demo.titleHeap ++ [Obj ({["title" := VStr "API"]} : gmap string value)]).
Proof.
  apply (deepClone_shares_nothing 0%nat Demo.titleHeap
           (Demo.titleHeap ++ [Obj {["title" := VStr "API"]}]) (VRef 1%nat)).
  vm_compute. reflexivity.
Defined.

(** ** The refresh run *)

(** *** Relations every step maintains *)

Section Preserves.

Context {St : Type} (R : St -> St -> Prop).

Hypothesis R_refl : forall s : St, R s s.
Hypothesis R_trans : forall s1 s2 s3 : St, R s1 s2 -> R s2 s3 -> R s1 s3.

Lemma preserves_ret {A : Type} (a : A) : preserves R (ret a).
Proof. intros s r s' H. inversion H; subst. apply R_refl. Qed.

Lemma preserves_throw {A : Type} (e : exn) : preserves R (throw e : M St A).
Proof. intros s r s' H. inversion H; subst. apply R_refl. Qed.

Lemma preserves_lift {A : Type} (x : result A) : preserves R (lift x).
Proof. intros s r s' H. inversion H; subst. apply R_refl. Qed.

Lemma preserves_bind {A B : Type} (c1 : M St A) (c2 : A -> M St B) :
  preserves R c1 -> (forall a : A, preserves R (c2 a)) -> preserves R (bind c1 c2).
Proof.
  intros H1 H2 s r s' H. unfold bind in H.
  destruct (c1 s) as [[a|e] s1] eqn:E1.
  - eapply R_trans; [eapply H1, E1|eapply H2, H].
  - inversion H; subst. eapply H1, E1.
Qed.

Lemma preserves_try {A : Type} (c : M St A) (handler : exn -> M St A) :
  preserves R c -> (forall e : exn, preserves R (handler e)) ->
  preserves R (try_catch c handler).
Proof.
  intros H1 H2 s r s' H. unfold try_catch in H.
  destruct (c s) as [[a|e] s1] eqn:E1.
  - inversion H; subst. eapply H1, E1.
  - eapply R_trans; [eapply H1, E1|eapply H2, H].
Qed.

End Preserves.

Ltac preserve Hrefl Htrans tac :=
  repeat first
    [ assumption
    | tac
    | apply (preserves_ret _ Hrefl)
    | apply (preserves_throw _ Hrefl)
    | apply (preserves_lift _ Hrefl)
    | apply (preserves_bind _ Htrans); [|intros ?]
    | apply (preserves_try _ Htrans); [|intros ?]
    | match goal with
      | H : forall _, preserves _ _ |- _ => apply H
      | |- preserves _ (if ?b then _ else _) => destruct b
      | |- preserves _ (match ?x with _ => _ end) => destruct x
      end ].

Lemma asked_refl (urls : list string) (n : Net) : asked urls n n.
Proof. exists []. rewrite app_nil_r. split; [reflexivity|constructor]. Qed.

Lemma asked_trans (urls : list string) (n1 n2 n3 : Net) :
  asked urls n1 n2 -> asked urls n2 n3 -> asked urls n1 n3.
Proof.
  intros (q1 & H1 & F1) (q2 & H2 & F2). exists (q1 ++ q2).
  rewrite H2, H1, app_assoc. split; [reflexivity|].
  apply Forall_app. split; assumption.
Qed.

Lemma refreshed_refl (D : Disk) (urls : list string) (allowed : string -> Prop) (r : Run) :
  refreshed D urls allowed r r.
Proof.
  split; [apply asked_refl|]. split.
  - exists []. rewrite app_nil_r. split; [reflexivity|constructor].
  - exists [], []. rewrite !app_nil_r. repeat split; constructor.
Qed.

Lemma refreshed_trans (D : Disk) (urls : list string) (allowed : string -> Prop)
    (r1 r2 r3 : Run) :
  refreshed D urls allowed r1 r2 -> refreshed D urls allowed r2 r3 ->
  refreshed D urls allowed r1 r3.
Proof.
  intros (A1 & (m1 & Hd1 & Fd1) & (w1 & l1 & Hf1 & Ff1 & Hl1 & Hn1))
         (A2 & (m2 & Hd2 & Fd2) & (w2 & l2 & Hf2 & Ff2 & Hl2 & Hn2)).
  split; [eapply asked_trans; eassumption|]. split.
  - exists (m1 ++ m2). rewrite Hd2, Hd1, app_assoc. split; [reflexivity|].
    apply Forall_app. split; assumption.
  - exists (w1 ++ w2), (l1 ++ l2).
    rewrite Hf2, Hf1, Hl2, Hl1, !app_assoc, !length_app, Hn1, Hn2.
    repeat split. apply Forall_app. split; assumption.
Qed.

Lemma unwarned_refl (r : Run) : unwarned r r.
Proof. reflexivity. Qed.

Lemma unwarned_trans (r1 r2 r3 : Run) : unwarned r1 r2 -> unwarned r2 r3 -> unwarned r1 r3.
Proof. unfold unwarned. congruence. Qed.

(** *** The requests of a context *)

Section Asked.

Variable E : Env.
Variable urls : list string.
Variable rpcUrl : string.

Hypothesis Hurl : In rpcUrl urls.

Lemma jsonRpcRequest_asked (method : string) (params : list json) :
  preserves (asked urls) (jsonRpcRequest E rpcUrl method params).
Proof.
  intros n r n' Hrun.
  pose proof (jsonRpcRequest_sent E rpcUrl method params n) as Hsent.
  rewrite Hrun in Hsent. cbn [snd] in Hsent. subst n'.
  exists [{| req_url := rpcUrl; req_method := method; req_params := params |}].
  split; [reflexivity|]. constructor; [exact Hurl|constructor].
Qed.

Local Ltac asking :=
  cbv zeta;
  preserve (asked_refl urls) (asked_trans urls) ltac:(apply jsonRpcRequest_asked).

Lemma findBlockLoop_asked (attempts : nat) :
  forall current : Z, preserves (asked urls) (findBlockLoop E rpcUrl attempts current).
Proof.
  induction attempts as [|attempts IH]; intros current; cbn [findBlockLoop]; asking.
Qed.

Lemma findBlockWithTransactions_asked (startBlock : json) :
  preserves (asked urls) (findBlockWithTransactions E rpcUrl startBlock).
Proof.
  unfold findBlockWithTransactions.
  preserve (asked_refl urls) (asked_trans urls) ltac:(apply findBlockLoop_asked).
Qed.

Lemma safeGetLogs_asked (filter : json) :
  preserves (asked urls) (safeGetLogs E rpcUrl filter).
Proof. unfold safeGetLogs. asking. Qed.

Lemma findLogsLoop_asked (attempts : nat) :
  forall current : Z, preserves (asked urls) (findLogsLoop E rpcUrl attempts current).
Proof.
  induction attempts as [|attempts IH]; intros current; cbn [findLogsLoop]; cbv zeta;
    preserve (asked_refl urls) (asked_trans urls)
      ltac:(first [apply jsonRpcRequest_asked|apply safeGetLogs_asked]).
Qed.

Lemma findLogsCandidate_asked (block fallbackNumber : json) :
  preserves (asked urls) (findLogsCandidate E rpcUrl block fallbackNumber).
Proof.
  unfold findLogsCandidate. cbv zeta.
  preserve (asked_refl urls) (asked_trans urls)
    ltac:(first [apply safeGetLogs_asked|apply findLogsLoop_asked]).
Qed.

End Asked.

Lemma buildNetworkContext_asked (E : Env) (urls : list string) (config : BlockOverlayConfig) :
  In (cfg_rpcUrl config) urls ->
  preserves (asked urls) (buildNetworkContext E config).
Proof.
  intros Hurl. unfold buildNetworkContext. cbv zeta.
  preserve (asked_refl urls) (asked_trans urls)
    ltac:(first [ apply jsonRpcRequest_asked, Hurl
                | apply findBlockWithTransactions_asked, Hurl
                | apply findLogsCandidate_asked, Hurl ]).
Qed.

(** *** The files of a context *)

Section Refreshed.

Variable E : Env.
Variable D : Disk.
Variable urls : list string.
Variable allowed : string -> Prop.
Variable ctx : NetworkContext.

Hypothesis Hurl : In (ctx_rpcUrl ctx) urls.
Hypothesis Hallowed :
  forall m : string, In m methodNames -> allowed (overlayPath E ctx m).

Lemma on_rnet_refreshed {A : Type} (c : M Net A) :
  preserves (asked urls) c -> preserves (refreshed D urls allowed) (on_rnet c).
Proof.
  intros Hc r a r' Hrun. unfold on_rnet in Hrun.
  destruct (c (rnet r)) as [a' n] eqn:Hn. inversion Hrun; subst.
  split; [exact (Hc _ _ _ Hn)|]. cbn [dirs files logged]. split.
  - exists []. rewrite app_nil_r. split; [reflexivity|constructor].
  - exists [], []. rewrite !app_nil_r. repeat split; constructor.
Qed.

Lemma console_warn_refreshed (line : string) :
  preserves (refreshed D urls allowed) (console_warn line).
Proof.
  intros r a r' Hrun. inversion Hrun; subst.
  split; [apply asked_refl|]. cbn [dirs files logged]. split.
  - exists []. rewrite app_nil_r. split; [reflexivity|constructor].
  - exists [], []. rewrite !app_nil_r. repeat split; constructor.
Qed.

Lemma writeOverlay_refreshed (methodName : string) (example : OverlayExample) :
  In methodName methodNames ->
  preserves (refreshed D urls allowed) (writeOverlay E D ctx methodName example).
Proof.
  intros Hm r a r' Hrun. pose proof (Hallowed _ Hm) as Hpath.
  unfold writeOverlay, bind, make_dir, write_file, console_log in Hrun. cbv zeta in Hrun.
  destruct (mkdir D (dirname D (overlayPath E ctx methodName))) as [[]|e].
  - cbn [rnet dirs files logged skipped] in Hrun.
    destruct (writeFile D (overlayPath E ctx methodName) _) as [[]|e].
    + inversion Hrun; subst. cbn [rnet dirs files logged skipped].
      split; [apply asked_refl|]. split.
      * exists [dirname D (overlayPath E ctx methodName)]. split; [reflexivity|].
        constructor; [|constructor]. eexists. split; [exact Hpath|reflexivity].
      * eexists [(_, _)], [_]. repeat split. constructor; [exact Hpath|constructor].
    + inversion Hrun; subst. cbn [rnet dirs files logged skipped].
      split; [apply asked_refl|]. split.
      * exists [dirname D (overlayPath E ctx methodName)]. split; [reflexivity|].
        constructor; [|constructor]. eexists. split; [exact Hpath|reflexivity].
      * exists [], []. rewrite !app_nil_r. repeat split; constructor.
  - inversion Hrun; subst. apply refreshed_refl.
Qed.

Local Ltac listed := cbv [methodNames In]; repeat (first [left; reflexivity|right]).

Local Ltac refreshing :=
  cbv zeta;
  preserve (refreshed_refl D urls allowed) (refreshed_trans D urls allowed)
    ltac:(first [ apply console_warn_refreshed
                | apply on_rnet_refreshed, jsonRpcRequest_asked, Hurl
                | apply writeOverlay_refreshed; listed ]).

Lemma generateBlockExamples_refreshed :
  preserves (refreshed D urls allowed) (generateBlockExamples E D ctx).
Proof. unfold generateBlockExamples. refreshing. Qed.

Lemma generateTransactionExamples_refreshed :
  preserves (refreshed D urls allowed) (generateTransactionExamples E D ctx).
Proof. unfold generateTransactionExamples. refreshing. Qed.

Lemma generateLogsExample_refreshed :
  preserves (refreshed D urls allowed) (generateLogsExample E D ctx).
Proof. unfold generateLogsExample. refreshing. Qed.

Lemma generateProofExample_refreshed :
  preserves (refreshed D urls allowed) (generateProofExample E D ctx).
Proof. unfold generateProofExample. refreshing. Qed.

Lemma generateFilterExamples_refreshed :
  preserves (refreshed D urls allowed) (generateFilterExamples E D ctx).
Proof. unfold generateFilterExamples. refreshing. Qed.

Lemma generateEstimateGasExample_refreshed :
  preserves (refreshed D urls allowed) (generateEstimateGasExample E D ctx).
Proof. unfold generateEstimateGasExample. refreshing. Qed.

Lemma generateCreateAccessListExample_refreshed :
  preserves (refreshed D urls allowed) (generateCreateAccessListExample E D ctx).
Proof. unfold generateCreateAccessListExample. refreshing. Qed.

Lemma generateExamples_refreshed :
  preserves (refreshed D urls allowed) (generateExamples E D ctx).
Proof.
  unfold generateExamples.
  preserve (refreshed_refl D urls allowed) (refreshed_trans D urls allowed)
    ltac:(first [ apply generateBlockExamples_refreshed
                | apply generateTransactionExamples_refreshed
                | apply generateLogsExample_refreshed
                | apply generateProofExample_refreshed
                | apply generateFilterExamples_refreshed
                | apply generateEstimateGasExample_refreshed
                | apply generateCreateAccessListExample_refreshed ]).
Qed.

End Refreshed.

Lemma generateBlockExampleOverlays_refreshed
    (E : Env) (D : Disk) (urls : list string) (configs : list BlockOverlayConfig) :
  (forall config : BlockOverlayConfig, In config configs -> In (cfg_rpcUrl config) urls) ->
  preserves (refreshed D urls (overlayFile E)) (generateBlockExampleOverlays E D configs).
Proof.
  induction configs as [|config rest IH]; intros Hurls.
  - apply preserves_ret, refreshed_refl.
  - cbn [generateBlockExampleOverlays]. intros r res r' Hrun.
    assert (Hconfig : In (cfg_rpcUrl config) urls) by (apply Hurls; left; reflexivity).
    unfold bind at 1 in Hrun.
    destruct (on_rnet (buildNetworkContext E config) r) as [[ctx|e] r1] eqn:Hctx.
    + pose proof (on_rnet_refreshed D urls (overlayFile E) _
                    (buildNetworkContext_asked E urls config Hconfig) _ _ _ Hctx) as H1.
      assert (Hbuilt : buildNetworkContext E config (rnet r) = (Ok ctx, rnet r1)).
      { unfold on_rnet in Hctx.
        destruct (buildNetworkContext E config (rnet r)) as [a n].
        inversion Hctx; subst. reflexivity. }
      destruct (buildNetworkContext_built _ _ _ _ _ Hbuilt) as (Hu & Hid & Hdir & _).
      eapply refreshed_trans; [exact H1|].
      revert Hrun. apply (preserves_bind _ (refreshed_trans D urls (overlayFile E))).
      * apply generateExamples_refreshed.
        -- rewrite Hu. exact Hconfig.
        -- intros m Hm. unfold overlayPath. rewrite Hdir.
           exists (ctx_chainId ctx), m. auto.
      * intros _. apply IH. intros c Hc. apply Hurls. right. exact Hc.
    + inversion Hrun; subst.
      exact (on_rnet_refreshed D urls (overlayFile E) _
               (buildNetworkContext_asked E urls config Hconfig) _ _ _ Hctx).
Qed.

(** X27: whatever a refresh run does and however it ends, it sends
    requests to the configured endpoints only; the directories it makes
    and the files it writes are those of overlay files,
    [overlays/<chain id>/<method>.yaml] with a chain id that is not
    empty; the files, directories and requests that were there before
    are still there; and it prints one line per file it wrote. *)
Theorem generateBlockExampleOverlays_confined
    (E : Env) (D : Disk) (configs : list BlockOverlayConfig)
    (r r' : Run) (res : result unit) :
  generateBlockExampleOverlays E D configs r = (res, r') ->
  refreshed D (map cfg_rpcUrl configs) (overlayFile E) r r'.
Proof.
  apply generateBlockExampleOverlays_refreshed.
  intros config Hin. apply in_map, Hin.
Qed.

Lemma generateBlockExampleOverlays_confined_witness :
  refreshed Harvest.disk ["https://rpc.example"] (overlayFile Harvest.archive)
    Harvest.run0
    (snd (generateBlockExampleOverlays Harvest.archive Harvest.disk
            [Harvest.sepolia] Harvest.run0)).
Proof.
  apply (generateBlockExampleOverlays_confined Harvest.archive Harvest.disk
           [Harvest.sepolia] Harvest.run0
           (snd (generateBlockExampleOverlays Harvest.archive Harvest.disk
                   [Harvest.sepolia] Harvest.run0))
           (Ok tt)).
  vm_compute. reflexivity.
Defined.

(** *** Skipped generators *)

Section Unwarned.

Variable E : Env.
Variable D : Disk.
Variable ctx : NetworkContext.

Lemma on_rnet_unwarned {A : Type} (c : M Net A) : preserves unwarned (on_rnet c).
Proof.
  intros r a r' Hrun. unfold on_rnet in Hrun.
  destruct (c (rnet r)) as [a' n]. inversion Hrun; subst. reflexivity.
Qed.

Lemma writeOverlay_unwarned (methodName : string) (example : OverlayExample) :
  preserves unwarned (writeOverlay E D ctx methodName example).
Proof.
  intros r a r' Hrun.
  unfold writeOverlay, bind, make_dir, write_file, console_log in Hrun. cbv zeta in Hrun.
  destruct (mkdir D (dirname D (overlayPath E ctx methodName))) as [[]|e].
  - cbn [rnet dirs files logged skipped] in Hrun.
    destruct (writeFile D (overlayPath E ctx methodName) _) as [[]|e];
      inversion Hrun; subst; reflexivity.
  - inversion Hrun; subst. reflexivity.
Qed.

End Unwarned.

(** X28: for a context [buildNetworkContext] has made, the two
    generators that need logs skip together, and exactly when the
    context has no logs: without logs each of them only prints its
    warning, sending and writing nothing; with logs neither prints a
    warning. *)
Theorem generators_skip_without_logs
    (E : Env) (D : Disk) (config : BlockOverlayConfig) (n0 n1 : Net)
    (ctx : NetworkContext) (r : Run) :
  buildNetworkContext E config n0 = (Ok ctx, n1) ->
  (ctx_logs ctx = None ->
   generateLogsExample E D ctx r
   = console_warn (skipMessage "eth_getLogs" (ctx_rpcUrl ctx) "no logs found") r
   /\ generateFilterExamples E D ctx r
      = console_warn
          (skipMessage "filter examples" (ctx_rpcUrl ctx) "no logs to anchor filter") r)
  /\ (forall found : LogsContext,
         ctx_logs ctx = Some found ->
         skipped (snd (generateLogsExample E D ctx r)) = skipped r
         /\ skipped (snd (generateFilterExamples E D ctx r)) = skipped r).
Proof.
  intros Hbuilt. split.
  - intros Hnone. unfold generateLogsExample, generateFilterExamples.
    rewrite Hnone. split; reflexivity.
  - intros found Hsome.
    destruct (buildNetworkContext_built _ _ _ _ _ Hbuilt)
      as (_ & _ & _ & _ & _ & _ & _ & _ & Hlogs).
    specialize (Hlogs found Hsome). split.
    + unfold generateLogsExample. rewrite Hsome.
      exact (writeOverlay_unwarned E D ctx _ _ r _ _ (surjective_pairing _)).
    + assert (Hquiet : preserves unwarned (generateFilterExamples E D ctx)).
      { unfold generateFilterExamples. rewrite Hsome.
        destruct found as [logsBlock filter [|firstLog rest]]; [contradiction|].
        cbv zeta.
        preserve unwarned_refl unwarned_trans
          ltac:(first [apply on_rnet_unwarned|apply writeOverlay_unwarned]). }
      exact (Hquiet r _ _ (surjective_pairing _)).
Qed.

Lemma generators_skip_without_logs_witness :
  generateFilterExamples Harvest.archive Harvest.disk Harvest.sepoliaContext Harvest.run0
  = console_warn
      (skipMessage "filter examples" "https://rpc.example" "no logs to anchor filter")
      Harvest.run0.
Proof.
  assert (Hbuilt :
            buildNetworkContext Harvest.archive Harvest.sepolia Demo.net0
            = (Ok Harvest.sepoliaContext,
               snd (buildNetworkContext Harvest.archive Harvest.sepolia Demo.net0)))
    by (vm_compute; reflexivity).
  apply (proj1 (generators_skip_without_logs Harvest.archive Harvest.disk
                  Harvest.sepolia Demo.net0 _ Harvest.sepoliaContext Harvest.run0 Hbuilt)).
  reflexivity.
Defined.

(** *** The transaction of the access-list example *)

Lemma jfield_app (k : string) (l1 l2 : list (string * json)) :
  jfield k (l1 ++ l2)
  = match jfield k l2 with
    | Some v => Some v
    | None => jfield k l1
    end.
Proof.
  induction l1 as [|[k' v] l1 IH]; cbn [app jfield].
  - destruct (jfield k l2); reflexivity.
  - rewrite IH. destruct (jfield k l2); reflexivity.
Qed.

Lemma jfield_deleteKey_same (k : string) (l : list (string * json)) :
  jfield k (deleteKey k l) = None.
Proof.
  unfold deleteKey. induction l as [|[k' v] l IH]; [reflexivity|].
  cbn [List.filter fst]. destruct (String.eqb_spec k' k) as [->|Hne]; cbn [negb].
  - exact IH.
  - cbn [jfield]. rewrite IH. destruct (String.eqb_spec k k'); [congruence|reflexivity].
Qed.

Lemma jfield_deleteKey_other (k k' : string) (l : list (string * json)) :
  k' <> k -> jfield k' (deleteKey k l) = jfield k' l.
Proof.
  intros Hne. unfold deleteKey. induction l as [|[k0 v] l IH]; [reflexivity|].
  cbn [List.filter fst jfield]. destruct (String.eqb_spec k0 k) as [->|Hk]; cbn [negb].
  - rewrite IH. destruct (String.eqb_spec k' k); [contradiction|].
    destruct (jfield k' l); reflexivity.
  - cbn [jfield]. rewrite IH. reflexivity.
Qed.

Lemma jfield_grafted_other (baseTx : json) (k field : string) :
  k <> field -> jfield k (grafted baseTx field) = None.
Proof.
  intros Hne. unfold grafted.
  destruct (jprop_opt baseTx field) as [[| | |s| |]|]; try reflexivity.
  destruct (String.eqb s "0x"); [reflexivity|].
  cbn [jfield]. destruct (String.eqb_spec k field); [contradiction|reflexivity].
Qed.

Lemma jfield_flat_grafted (baseTx : json) (k : string) (fields : list string) :
  List.NoDup fields -> In k fields ->
  jfield k (flat_map (grafted baseTx) fields) = jfield k (grafted baseTx k).
Proof.
  induction fields as [|field fields IH]; intros Hnd Hin; [destruct Hin|].
  apply List.NoDup_cons_iff in Hnd as [Hfresh Hnd]. cbn [flat_map]. rewrite jfield_app.
  destruct Hin as [->|Hin].
  - assert (Hrest : jfield k (flat_map (grafted baseTx) fields) = None).
    { clear IH Hnd. induction fields as [|f fields IH]; [reflexivity|].
      cbn [flat_map]. rewrite jfield_app, IH.
      + apply jfield_grafted_other. intros ->. apply Hfresh. left. reflexivity.
      + intros Hin. apply Hfresh. right. exact Hin. }
    rewrite Hrest. reflexivity.
  - rewrite (IH Hnd Hin).
    destruct (jfield k (grafted baseTx k)) eqn:Hk; [reflexivity|].
    apply jfield_grafted_other. intros ->. contradiction.
Qed.

Lemma graft_NoDup : List.NoDup graft.
Proof.
  unfold graft.
  repeat (apply List.NoDup_cons;
          [cbv [In]; intros H; repeat (destruct H as [H|H]; [discriminate H|]); exact H|]).
  apply List.NoDup_nil.
Qed.

Lemma grafted_shape (baseTx : json) (field : string) :
  Forall (fun kv => fst kv = field
                    /\ exists s : string,
                         snd kv = JStr s /\ s <> "0x"
                         /\ jprop_opt baseTx field = Some (JStr s))
    (grafted baseTx field).
Proof.
  unfold grafted. destruct (jprop_opt baseTx field) as [[| | |s| |]|]; try constructor.
  destruct (String.eqb_spec s "0x"); constructor; [|constructor].
  split; [reflexivity|]. exists s. auto.
Qed.

(** X29: the transaction [generateCreateAccessListExample] sends is
    made of fields of the sample transaction only: each of its entries
    is one of the eight grafted fields, with the text the sample has for
    it, a text other than "0x".  It never carries a gas price together
    with an EIP-1559 fee, and dropping the gas price changes no other
    field. *)
Theorem accessListTx_shape (baseTx : json) :
  Forall (fun kv => In (fst kv) graft
                    /\ exists s : string,
                         snd kv = JStr s /\ s <> "0x"
                         /\ jprop_opt baseTx (fst kv) = Some (JStr s))
    (accessListTx baseTx)
  /\ (truthy (jfield "gasPrice" (accessListTx baseTx)) = true ->
      truthy (jfield "maxFeePerGas" (accessListTx baseTx)) = false
      /\ truthy (jfield "maxPriorityFeePerGas" (accessListTx baseTx)) = false)
  /\ (forall field : string,
         In field graft -> field <> "gasPrice" ->
         jfield field (accessListTx baseTx) = jfield field (grafted baseTx field)).
Proof.
  assert (Hall : Forall (fun kv => In (fst kv) graft
                                   /\ exists s : string,
                                        snd kv = JStr s /\ s <> "0x"
                                        /\ jprop_opt baseTx (fst kv) = Some (JStr s))
                   (flat_map (grafted baseTx) graft)).
  { apply List.Forall_flat_map. apply List.Forall_forall. intros field Hin.
    eapply List.Forall_impl; [|apply grafted_shape].
    intros [k v] [Hk Hs]. cbn [fst snd] in *. subst k. split; assumption. }
  unfold accessListTx. cbv zeta.
  destruct (truthy (jfield "gasPrice" (flat_map (grafted baseTx) graft))
            && (truthy (jfield "maxFeePerGas" (flat_map (grafted baseTx) graft))
                || truthy (jfield "maxPriorityFeePerGas"
                             (flat_map (grafted baseTx) graft)))) eqn:Hboth.
  - split; [|split].
    + unfold deleteKey. apply List.Forall_forall. intros kv Hin.
      apply List.filter_In in Hin as [Hin _].
      exact (proj1 (List.Forall_forall _ _) Hall kv Hin).
    + rewrite jfield_deleteKey_same. discriminate.
    + intros field Hin Hne. rewrite jfield_deleteKey_other by exact Hne.
      apply jfield_flat_grafted; [apply graft_NoDup|exact Hin].
  - split; [exact Hall|]. split.
    + intros Hprice. rewrite Hprice in Hboth. cbn [andb] in Hboth.
      apply orb_false_iff in Hboth. exact Hboth.
    + intros field Hin _. apply jfield_flat_grafted; [apply graft_NoDup|exact Hin].
Qed.

Lemma accessListTx_shape_witness :
  jfield "from" (accessListTx Harvest.sampleTx)
  = jfield "from" (grafted Harvest.sampleTx "from").
Proof.
  apply (proj2 (proj2 (accessListTx_shape Harvest.sampleTx)) "from").
  - left. reflexivity.
  - discriminate.
Defined.

(** *** File names *)

Lemma safeChar_not_slash (a : ascii) : safeChar a = true -> Ascii.eqb "/" a = false.
Proof.
  intros Ha. destruct (Ascii.eqb_spec "/"%char a) as [<-|_]; [discriminate Ha|reflexivity].
Qed.

Lemma sanitizeMethodName_safe (methodName : string) :
  forallb safeChar (list_ascii_of_string (sanitizeMethodName methodName)) = true.
Proof.
  induction methodName as [|a r IH]; [reflexivity|].
  cbn [sanitizeMethodName list_ascii_of_string forallb]. rewrite IH, andb_true_r.
  destruct (safeChar a) eqn:Ha; [exact Ha|reflexivity].
Qed.

Lemma sanitizeMethodName_id (methodName : string) :
  forallb safeChar (list_ascii_of_string methodName) = true ->
  sanitizeMethodName methodName = methodName.
Proof.
  induction methodName as [|a r IH]; [reflexivity|].
  cbn [sanitizeMethodName list_ascii_of_string forallb].
  intros H. apply andb_true_iff in H as [Ha Hr]. rewrite Ha, (IH Hr). reflexivity.
Qed.

(** X30: [sanitizeMethodName] replaces character by character: the
    result has the length of the name, holds only letters, digits, [_],
    [.] and [-] (no path separator in particular), is left alone by a
    second pass, and is the name itself exactly when the name holds
    only such characters. *)
Theorem sanitizeMethodName_spec (methodName : string) :
  String.length (sanitizeMethodName methodName) = String.length methodName
  /\ forallb safeChar (list_ascii_of_string (sanitizeMethodName methodName)) = true
  /\ existsb (Ascii.eqb "/") (list_ascii_of_string (sanitizeMethodName methodName)) = false
  /\ sanitizeMethodName (sanitizeMethodName methodName) = sanitizeMethodName methodName
  /\ (sanitizeMethodName methodName = methodName
      <-> forallb safeChar (list_ascii_of_string methodName) = true).
Proof.
  split; [|split; [|split; [|split]]].
  - induction methodName as [|a r IH]; [reflexivity|].
    cbn [sanitizeMethodName String.length]. rewrite IH. reflexivity.
  - apply sanitizeMethodName_safe.
  - pose proof (sanitizeMethodName_safe methodName) as Hsafe.
    induction (list_ascii_of_string (sanitizeMethodName methodName)) as [|a l IH];
      [reflexivity|].
    cbn [forallb existsb] in *. apply andb_true_iff in Hsafe as [Ha Hl].
    rewrite (safeChar_not_slash a Ha), (IH Hl). reflexivity.
  - apply sanitizeMethodName_id, sanitizeMethodName_safe.
  - split.
    + intros Hid. rewrite <- Hid. apply sanitizeMethodName_safe.
    + apply sanitizeMethodName_id.
Qed.

Lemma sanitizeMethodName_spec_witness :
  sanitizeMethodName "eth_getLogs" = "eth_getLogs".
Proof.
  apply (proj2 (proj2 (proj2 (proj2 (proj2 (sanitizeMethodName_spec "eth_getLogs")))))).
  reflexivity.
Defined.
